(** * KmsHttpEPServer: a shallow embedding of the HTTP end point server

    The development follows [src/httpepserver/KmsHttpEPServer.cpp].  It has
    three parts:

    - [find_content_part], the multipart boundary scanner, over a byte
      memory in which every read is recorded, so that the range of the
      reads can be stated;
    - the request dispatcher ([got_headers_handler] and the functions it
      calls), the expiry timer and the registry, over an explicit state
      holding the GObject side tables the source attaches to messages and
      to end point elements;
    - the server object itself: its properties, [get_address], start
      and stop, over its private data.

    Reference counting and the release of memory are not modelled, nor
    are the reason phrases of the responses and the log.  The producer
    side of a GET is [new_sample_handler], which runs on a streaming
    thread and queues [send_buffer_cb]; in the runs of events it is
    represented by the write tasks it queues.  The handler table
    [priv->handlers] is created by [kms_http_ep_server_init] and dropped
    by [kms_http_ep_server_destroy_handlers] (stop and finalize); the
    state of the dispatcher holds the table or NULL.  A read of a local
    variable that was never assigned ends a computation like a read
    through a null pointer does.

    GLib and libsoup functions are modelled after their documentation:
    [g_str_has_prefix], [g_utf8_strlen], [g_strcmp0], [memchr], the data
    tables of [g_object_set_data_full] with their destroy notification,
    signal connections, timeouts of the main loop, cookies and dates. *)

From Stdlib Require Import ZArith List String Ascii Bool Lia.
From stdpp Require Import base option list strings pretty gmap.

Local Open Scope Z_scope.

(** ** Bytes and C strings *)

(** A byte is a [Z] in [0, 256); a C string is the list of its bytes
    without the terminating NUL. *)
Definition byte := Z.

Definition byte_of (c : ascii) : byte := Z.of_nat (nat_of_ascii c).

Fixpoint bytes_of (s : string) : list byte :=
  match s with
  | EmptyString => []
  | String c r => byte_of c :: bytes_of r
  end.

Definition CR : byte := 13.
Definition LF : byte := 10.
Definition DASH : byte := 45.
Definition NUL : byte := 0.
Definition CRLF : list byte := [CR; LF].

(** ** GLib functions used by the source *)

Module GLib.

(** [g_str_has_prefix (str, prefix)]: "looks whether the string [str]
    begins with [prefix]". *)
Fixpoint g_str_has_prefix (str prefix : list byte) : bool :=
  match prefix with
  | [] => true
  | p :: prefix' =>
      match str with
      | [] => false
      | c :: str' => (c =? p) && g_str_has_prefix str' prefix'
      end
  end.

(** The table behind [g_utf8_next_char]: the length of the UTF-8 sequence
    announced by a lead byte. *)
Definition utf8_skip (c : byte) : nat :=
  if c <? 192 then 1
  else if c <? 224 then 2
  else if c <? 240 then 3
  else if c <? 248 then 4
  else if c <? 252 then 5
  else if c <? 254 then 6
  else 1%nat.

(** [g_utf8_strlen (p, -1)]: count the characters, stepping with
    [g_utf8_next_char] until the terminator.  [pending] is the number of
    bytes still to step over for the character being counted. *)
Fixpoint utf8_count (pending : nat) (p : list byte) : Z :=
  match p with
  | [] => 0
  | c :: p' =>
      match pending with
      | O => 1 + utf8_count (utf8_skip c - 1) p'
      | S k => utf8_count k p'
      end
  end.

Definition g_utf8_strlen (p : list byte) : Z := utf8_count 0 p.

(** [g_strcmp0 (a, b) == 0] on two non-NULL strings. *)
Definition g_strcmp0_eq (a b : string) : bool := bool_decide (a = b).

End GLib.

(** ** Memory, pointers and recorded reads *)

(** A pointer is [NULL] or an address into the memory region that
    encloses the chunk: an index into the list of its bytes.  The chunk
    is the range [start, end) of the region. *)
Inductive ptr : Type :=
  | NULL
  | Ptr (a : Z).

(** The expression of the source a read comes from. *)
Inductive site : Type :=
  | AtMemchr          (* a byte examined by memchr *)
  | AtB1              (* b[1] *)
  | AtPrefix          (* the string at b + 2 handed to g_str_has_prefix *)
  | AtBm1             (* b[-1] *)
  | AtBm2             (* b[-2] *)
  | AtAfter (k : Z)   (* b[boundary_len + k], k = 2, 3 *)
  | AtC (k : Z).      (* c[k], k = 1, 2, 3 *)

Inductive fault : Type :=
  | NullDeref           (* a read through a null pointer *)
  | Unmapped (a : Z)    (* a read outside the enclosing region *)
  | Exhausted.          (* the iteration bound of the embedding was hit *)

(** A computation that reads memory: the reads made so far, in order,
    and a value or the fault that stopped it. *)
Record R (A : Type) : Type := mkR {
  reads : list (site * Z);
  result : fault + A
}.
Arguments mkR {A} _ _.
Arguments reads {A} _.
Arguments result {A} _.

Definition r_ret {A} (a : A) : R A := mkR [] (inr a).
Definition r_fail {A} (f : fault) : R A := mkR [] (inl f).
Definition r_bind {A B} (r : R A) (k : A → R B) : R B :=
  match result r with
  | inl f => mkR (reads r) (inl f)
  | inr a => let r' := k a in mkR (reads r ++ reads r') (result r')
  end.

#[global] Instance R_ret : MRet R := @r_ret.
#[global] Instance R_bind : MBind R := fun A B k r => r_bind r k.

(** One recorded read that yields nothing. *)
Definition touch (s : site) (a : Z) : R unit := mkR [(s, a)] (inr tt).

Definition load (m : list byte) (s : site) (a : Z) : R byte :=
  if a <? 0 then mkR [(s, a)] (inl (Unmapped a))
  else match m !! Z.to_nat a with
       | Some x => mkR [(s, a)] (inr x)
       | None => mkR [(s, a)] (inl (Unmapped a))
       end.

(** [size_t] conversion of a pointer difference (64-bit). *)
Definition to_size_t (n : Z) : Z := n mod 2 ^ 64.

(** [memchr (s, c, n)]: examine at most [n] bytes from address [a]. *)
Fixpoint memchr_from (c : byte) (a n : Z) (bytes : list byte) : R ptr :=
  if n <=? 0 then r_ret NULL
  else match bytes with
       | [] => mkR [(AtMemchr, a)] (inl (Unmapped a))
       | x :: bytes' =>
           if x =? c then mkR [(AtMemchr, a)] (inr (Ptr a))
           else touch AtMemchr a ;; memchr_from c (a + 1) (n - 1) bytes'
       end.

Definition memchr (m : list byte) (s : Z) (c : byte) (n : Z) : R ptr :=
  if s <? 0 then
    (if to_size_t n =? 0 then r_ret NULL else mkR [(AtMemchr, s)] (inl (Unmapped s)))
  else memchr_from c s (to_size_t n) (drop (Z.to_nat s) m).

(** The NUL-terminated string found at address [a]. *)
Fixpoint cstring_from (a : Z) (bytes : list byte) : R (list byte) :=
  match bytes with
  | [] => mkR [(AtPrefix, a)] (inl (Unmapped a))
  | x :: bytes' =>
      if x =? NUL then mkR [(AtPrefix, a)] (inr [])
      else touch AtPrefix a ;; s ← cstring_from (a + 1) bytes'; mret (x :: s)
  end.

Definition cstring_at (m : list byte) (a : Z) : R (list byte) :=
  if a <? 0 then mkR [(AtPrefix, a)] (inl (Unmapped a))
  else cstring_from a (drop (Z.to_nat a) m).

(** ** find_content_part *)

Section FindContentPart.

(** [m] is the memory region, [start] and [end_] delimit the chunk in
    it, [boundary] is the boundary string. *)
Variable m : list byte.
Variables start end_ : Z.
Variable boundary : list byte.

Let boundary_len : Z := GLib.g_utf8_strlen boundary.

(** The test [b[1] != '-' || g_str_has_prefix (boundary, b + 2) != 0]
    of the first loop; [true] means [continue]. *)
Definition not_boundary_test (b : Z) : R bool :=
  b1 ← load m AtB1 (b + 1);
  if negb (b1 =? DASH) then mret true
  else s ← cstring_at m (b + 2); mret (GLib.g_str_has_prefix boundary s).

(** The test [b == start || (b[-1] == '\n' && b[-2] == '\r')]. *)
Definition start_of_line_test (b : Z) : R bool :=
  if b =? start then mret true
  else
    x ← load m AtBm1 (b - 1);
    if x =? LF then y ← load m AtBm2 (b - 2); mret (y =? CR)
    else mret false.

(** The two-way test after the boundary: the new values of
    [*content_start] and [*content_end]. *)
Definition after_boundary (b : Z) (cs ce : ptr) : R (ptr * ptr) :=
  x ← load m (AtAfter 2) (b + boundary_len + 2);
  dashes ← (if x =? DASH
            then y ← load m (AtAfter 3) (b + boundary_len + 3); mret (y =? DASH)
            else mret false);
  if (dashes : bool) then mret (cs, Ptr (b - 2))
  else
    x' ← load m (AtAfter 2) (b + boundary_len + 2);
    crlf ← (if x' =? CR
            then y ← load m (AtAfter 3) (b + boundary_len + 3); mret (y =? LF)
            else mret false);
    if (crlf : bool) then mret (Ptr (b + boundary_len + 3), ce)
    else mret (cs, ce).

(** The first [for] loop, entered with the current value of [b]. *)
Fixpoint boundary_loop (fuel : nat) (b : ptr) (cs ce : ptr) : R (ptr * ptr) :=
  match fuel with
  | O => r_fail Exhausted
  | S fuel' =>
      match b with
      | NULL => mret (cs, ce)
      | Ptr b =>
          if negb (b + boundary_len + 4 <? end_) then mret (cs, ce)
          else
            skip ← not_boundary_test b;
            '(cs', ce') ←
              (if (skip : bool) then mret (cs, ce)
               else
                 sol ← start_of_line_test b;
                 if (sol : bool) then after_boundary b cs ce
                 else mret (cs, ce));
            b' ← memchr m (b + 2) DASH (end_ - (b + 2));
            boundary_loop fuel' b' cs' ce'
      end
  end.

(** The second [for] loop, which looks for the blank line after the
    content start; it yields the final [*content_start].  A null [c]
    passes the test [c < end] (the null pointer is below every object)
    and is then read through. *)
Fixpoint header_loop (fuel : nat) (c : ptr) (cs : Z) : R Z :=
  match fuel with
  | O => r_fail Exhausted
  | S fuel' =>
      match c with
      | NULL => r_fail NullDeref
      | Ptr c =>
          if negb (c <? end_) then mret cs
          else
            x1 ← load m (AtC 1) (c + 1);
            found ←
              (if x1 =? LF then
                 x2 ← load m (AtC 2) (c + 2);
                 if x2 =? CR then
                   x3 ← load m (AtC 3) (c + 3); mret (x3 =? LF)
                 else mret false
               else mret false);
            if (found : bool) then mret (c + 4)
            else
              c' ← memchr m (c + 4) CR (end_ - (c + 2));
              header_loop fuel' c' cs
      end
  end.

Definition iterations : nat := S (length m).

Definition find_content_part : R (ptr * ptr) :=
  b ← memchr m start DASH (end_ - start);
  '(cs, ce) ← boundary_loop iterations b NULL NULL;
  match cs with
  | NULL => mret (NULL, ce)
  | Ptr cs0 =>
      c ← memchr m cs0 CR (end_ - cs0);
      cs' ← header_loop iterations c cs0;
      mret (Ptr cs', ce)
  end.

End FindContentPart.

(** A chunk given by its bytes alone, placed in a region that ends with
    the bytes [after]. *)
Definition scan_chunk (chunk after : list byte) (boundary : string) : R (ptr * ptr) :=
  find_content_part (chunk ++ after) 0 (Z.of_nat (length chunk)) (bytes_of boundary).

(** The computation did not stop at the iteration bound. *)
Definition within_bound {A} (r : R A) : Prop := result r ≠ inl Exhausted.

Definition in_chunk (start end_ : Z) (e : site * Z) : bool :=
  (start <=? snd e) && (snd e <? end_).


(** ** The objects of the server *)

Inductive http_method : Type :=
  | GET
  | POST
  | OTHER (name : string).

Inductive KmsHttpEndPointAction : Type :=
  | ACTION_UNDEFINED
  | ACTION_GET
  | ACTION_POST.

(** [obj_signals]: what the server object emits. *)
Inductive signal : Type :=
  | ACTION_REQUESTED (path : string) (a : KmsHttpEndPointAction)
  | URL_REMOVED (path : string)
  | URL_EXPIRED (path : string).

(** A cookie as libsoup keeps it; [expires] is absent for a cookie made
    with [max_age = -1]. *)
Record SoupCookie : Type := {
  cookie_name : string;
  cookie_value : string;
  cookie_domain : string;
  cookie_path : string;
  cookie_max_age : Z;
  cookie_expires : option Z
}.

(** The values kept in the [g_object_set_data] tables. *)
Inductive qdata : Type :=
  | QServer
  | QUlong (id : nat)
  | QUint (n : Z)
  | QBool (b : bool)
  | QString (s : string)
  | QMessage (msg : nat)
  | QCookie (c : SoupCookie).

Definition KEY_HTTP_EP_SERVER : string := "kms-http-ep-server".
Definition KEY_NEW_SAMPLE_HANDLER_ID : string := "kms-new-sample-handler-id".
Definition KEY_GOT_CHUNK_HANDLER_ID : string := "kms-got-chunk-handler-id".
Definition KEY_FINISHED_HANDLER_ID : string := "kms-finish-handler-id".
Definition KEY_EOS_HANDLER_ID : string := "kms-eos-handler-id".
Definition KEY_TIMEOUT_ID : string := "kms-timeout-id".
Definition KEY_FINISHED : string := "kms-finish".
Definition KEY_BOUNDARY : string := "kms-boundary".
Definition KEY_MESSAGE : string := "kms-message".
Definition KEY_COOKIE : string := "kms-cookie".
Definition KEY_PARAM_TIMEOUT : string := "kms-param-timeout".
Definition KEY_PARAM_LIFETIME : string := "kms-param-lifetime".
Definition COOKIE_NAME : string := "HttpEPCookie".

Definition SOUP_STATUS_OK : Z := 200.
Definition SOUP_STATUS_BAD_REQUEST : Z := 400.
Definition SOUP_STATUS_NOT_FOUND : Z := 404.
Definition SOUP_STATUS_METHOD_NOT_ALLOWED : Z := 405.
Definition SOUP_STATUS_NOT_ACCEPTABLE : Z := 406.

(** The callbacks the source connects, with their user data. *)
Inductive callback : Type :=
  | finished_get_processing_cb (httpep : nat)
  | finished_post_processing_cb (httpep : nat)
  | got_chunk_handler_cb (httpep : nat)
  | new_sample_handler_cb
  | get_recv_eos_cb (msg : nat).

Record connection : Type := {
  conn_id : nat;
  conn_signal : string;
  conn_callback : callback
}.

Record SoupMessage : Type := {
  method : http_method;
  uri_path : string;
  (* the parsed Content-Type of the request: the type and its parameters *)
  request_content_type : option (string * gmap string string);
  (* soup_cookies_from_request: name and value of each request cookie *)
  request_cookies : list (string * string);
  status_code : Z;
  response_headers : list (string * string);
  response_chunked : bool;
  response_body : list byte;
  response_complete : bool;
  request_accumulate : bool;
  paused : bool;
  msg_data : gmap string qdata;
  msg_connections : list connection
}.

Record GstElement : Type := {
  is_httpendpoint : bool;
  el_data : gmap string qdata;
  el_start : bool;
  el_connections : list connection;
  el_pushed : list (list byte);
  el_eos : bool
}.

(** A pending timeout of the main loop: [emit_expiration_signal_cb] with
    its message, and the interval it was added with. *)
Record timeout_source : Type := {
  interval_ms : Z;
  source_msg : nat
}.

(** [priv->handlers] is a table from paths to elements, or NULL once
    [kms_http_ep_server_destroy_handlers] has dropped it.  On a null
    table GLib's functions return at once: [g_hash_table_lookup] answers
    NULL, [g_hash_table_insert] and [g_hash_table_remove] do nothing.
    They are the lookup, insert and delete of the table below. *)
Definition GHashTable : Type := option (gmap string nat).

Definition table_is_null (table : GHashTable) : bool :=
  match table with
  | None => true
  | Some _ => false
  end.

#[global] Instance g_hash_table_lookup : Lookup string nat GHashTable :=
  λ key table,
    match table with
    | None => None
    | Some t => t !! key
    end.

#[global] Instance g_hash_table_insert : Insert string nat GHashTable :=
  λ key value table,
    match table with
    | None => None
    | Some t => Some (<[key := value]> t)
    end.

#[global] Instance g_hash_table_remove : Delete string GHashTable :=
  λ key table,
    match table with
    | None => None
    | Some t => Some (delete key t)
    end.

Record State : Type := {
  handlers : GHashTable;               (* priv->handlers: path to element, or NULL *)
  elements : gmap nat GstElement;
  messages : gmap nat SoupMessage;
  sources : gmap Z timeout_source;
  next_handler_id : nat;
  next_source_id : Z;
  emitted : list signal;
  announcedAddr : string
}.

(** Field updates. *)
Definition with_status (c : Z) (m : SoupMessage) : SoupMessage :=
  {| method := method m; uri_path := uri_path m;
     request_content_type := request_content_type m;
     request_cookies := request_cookies m; status_code := c;
     response_headers := response_headers m;
     response_chunked := response_chunked m;
     response_body := response_body m;
     response_complete := response_complete m;
     request_accumulate := request_accumulate m; paused := paused m;
     msg_data := msg_data m; msg_connections := msg_connections m |}.

Definition with_response_headers (h : list (string * string)) (m : SoupMessage) : SoupMessage :=
  {| method := method m; uri_path := uri_path m;
     request_content_type := request_content_type m;
     request_cookies := request_cookies m; status_code := status_code m;
     response_headers := h;
     response_chunked := response_chunked m;
     response_body := response_body m;
     response_complete := response_complete m;
     request_accumulate := request_accumulate m; paused := paused m;
     msg_data := msg_data m; msg_connections := msg_connections m |}.

Definition with_response_chunked (b : bool) (m : SoupMessage) : SoupMessage :=
  {| method := method m; uri_path := uri_path m;
     request_content_type := request_content_type m;
     request_cookies := request_cookies m; status_code := status_code m;
     response_headers := response_headers m;
     response_chunked := b;
     response_body := response_body m;
     response_complete := response_complete m;
     request_accumulate := request_accumulate m; paused := paused m;
     msg_data := msg_data m; msg_connections := msg_connections m |}.

Definition with_response_body (b : list byte) (m : SoupMessage) : SoupMessage :=
  {| method := method m; uri_path := uri_path m;
     request_content_type := request_content_type m;
     request_cookies := request_cookies m; status_code := status_code m;
     response_headers := response_headers m;
     response_chunked := response_chunked m;
     response_body := b;
     response_complete := response_complete m;
     request_accumulate := request_accumulate m; paused := paused m;
     msg_data := msg_data m; msg_connections := msg_connections m |}.

Definition with_response_complete (b : bool) (m : SoupMessage) : SoupMessage :=
  {| method := method m; uri_path := uri_path m;
     request_content_type := request_content_type m;
     request_cookies := request_cookies m; status_code := status_code m;
     response_headers := response_headers m;
     response_chunked := response_chunked m;
     response_body := response_body m;
     response_complete := b;
     request_accumulate := request_accumulate m; paused := paused m;
     msg_data := msg_data m; msg_connections := msg_connections m |}.

Definition with_request_accumulate (b : bool) (m : SoupMessage) : SoupMessage :=
  {| method := method m; uri_path := uri_path m;
     request_content_type := request_content_type m;
     request_cookies := request_cookies m; status_code := status_code m;
     response_headers := response_headers m;
     response_chunked := response_chunked m;
     response_body := response_body m;
     response_complete := response_complete m;
     request_accumulate := b; paused := paused m;
     msg_data := msg_data m; msg_connections := msg_connections m |}.

Definition with_paused (b : bool) (m : SoupMessage) : SoupMessage :=
  {| method := method m; uri_path := uri_path m;
     request_content_type := request_content_type m;
     request_cookies := request_cookies m; status_code := status_code m;
     response_headers := response_headers m;
     response_chunked := response_chunked m;
     response_body := response_body m;
     response_complete := response_complete m;
     request_accumulate := request_accumulate m; paused := b;
     msg_data := msg_data m; msg_connections := msg_connections m |}.

Definition with_msg_data (d : gmap string qdata) (m : SoupMessage) : SoupMessage :=
  {| method := method m; uri_path := uri_path m;
     request_content_type := request_content_type m;
     request_cookies := request_cookies m; status_code := status_code m;
     response_headers := response_headers m;
     response_chunked := response_chunked m;
     response_body := response_body m;
     response_complete := response_complete m;
     request_accumulate := request_accumulate m; paused := paused m;
     msg_data := d; msg_connections := msg_connections m |}.

Definition with_msg_connections (c : list connection) (m : SoupMessage) : SoupMessage :=
  {| method := method m; uri_path := uri_path m;
     request_content_type := request_content_type m;
     request_cookies := request_cookies m; status_code := status_code m;
     response_headers := response_headers m;
     response_chunked := response_chunked m;
     response_body := response_body m;
     response_complete := response_complete m;
     request_accumulate := request_accumulate m; paused := paused m;
     msg_data := msg_data m; msg_connections := c |}.

Definition with_el_data (d : gmap string qdata) (e : GstElement) : GstElement :=
  {| is_httpendpoint := is_httpendpoint e; el_data := d; el_start := el_start e;
     el_connections := el_connections e; el_pushed := el_pushed e;
     el_eos := el_eos e |}.

Definition with_el_start (b : bool) (e : GstElement) : GstElement :=
  {| is_httpendpoint := is_httpendpoint e; el_data := el_data e; el_start := b;
     el_connections := el_connections e; el_pushed := el_pushed e;
     el_eos := el_eos e |}.

Definition with_el_connections (c : list connection) (e : GstElement) : GstElement :=
  {| is_httpendpoint := is_httpendpoint e; el_data := el_data e;
     el_start := el_start e; el_connections := c; el_pushed := el_pushed e;
     el_eos := el_eos e |}.

Definition with_el_pushed (p : list (list byte)) (e : GstElement) : GstElement :=
  {| is_httpendpoint := is_httpendpoint e; el_data := el_data e;
     el_start := el_start e; el_connections := el_connections e;
     el_pushed := p; el_eos := el_eos e |}.

Definition with_el_eos (b : bool) (e : GstElement) : GstElement :=
  {| is_httpendpoint := is_httpendpoint e; el_data := el_data e;
     el_start := el_start e; el_connections := el_connections e;
     el_pushed := el_pushed e; el_eos := b |}.

Definition with_handlers (h : GHashTable) (s : State) : State :=
  {| handlers := h; elements := elements s; messages := messages s;
     sources := sources s; next_handler_id := next_handler_id s;
     next_source_id := next_source_id s; emitted := emitted s;
     announcedAddr := announcedAddr s |}.

Definition with_elements (e : gmap nat GstElement) (s : State) : State :=
  {| handlers := handlers s; elements := e; messages := messages s;
     sources := sources s; next_handler_id := next_handler_id s;
     next_source_id := next_source_id s; emitted := emitted s;
     announcedAddr := announcedAddr s |}.

Definition with_messages (m : gmap nat SoupMessage) (s : State) : State :=
  {| handlers := handlers s; elements := elements s; messages := m;
     sources := sources s; next_handler_id := next_handler_id s;
     next_source_id := next_source_id s; emitted := emitted s;
     announcedAddr := announcedAddr s |}.

Definition with_sources (t : gmap Z timeout_source) (s : State) : State :=
  {| handlers := handlers s; elements := elements s; messages := messages s;
     sources := t; next_handler_id := next_handler_id s;
     next_source_id := next_source_id s; emitted := emitted s;
     announcedAddr := announcedAddr s |}.

Definition with_next_handler_id (n : nat) (s : State) : State :=
  {| handlers := handlers s; elements := elements s; messages := messages s;
     sources := sources s; next_handler_id := n;
     next_source_id := next_source_id s; emitted := emitted s;
     announcedAddr := announcedAddr s |}.

Definition with_next_source_id (n : Z) (s : State) : State :=
  {| handlers := handlers s; elements := elements s; messages := messages s;
     sources := sources s; next_handler_id := next_handler_id s;
     next_source_id := n; emitted := emitted s;
     announcedAddr := announcedAddr s |}.

Definition with_emitted (l : list signal) (s : State) : State :=
  {| handlers := handlers s; elements := elements s; messages := messages s;
     sources := sources s; next_handler_id := next_handler_id s;
     next_source_id := next_source_id s; emitted := l;
     announcedAddr := announcedAddr s |}.

(** ** Computations on the server state *)

Inductive crash : Type :=
  | NullPointer (key : string)   (* an absent table entry was read through *)
  | WrongData (key : string)     (* a table entry of another type *)
  | NoObject (p : nat)           (* not a live object *)
  | ReadFault (f : fault)        (* a fault while scanning a chunk *)
  | BadRange (from len : Z)      (* a copy outside the memory of the chunk *)
  | Uninitialised (var : string). (* a local variable read before it was assigned *)

Definition M (A : Type) : Type := State → crash + (A * State).

#[global] Instance M_ret : MRet M := fun A a s => inr (a, s).
#[global] Instance M_bind : MBind M := fun A B k c s =>
  match c s with
  | inl e => inl e
  | inr (a, s') => k a s'
  end.

Definition crashed {A} (c : crash) : M A := fun _ => inl c.
Definition get_state : M State := fun s => inr (s, s).
Definition modify (f : State → State) : M unit := fun s => inr (tt, f s).

Definition get_msg (p : nat) : M SoupMessage := fun s =>
  match messages s !! p with
  | Some m => inr (m, s)
  | None => inl (NoObject p)
  end.

Definition upd_msg (p : nat) (f : SoupMessage → SoupMessage) : M unit :=
  m ← get_msg p;
  modify (fun s => with_messages (<[p := f m]> (messages s)) s).

Definition get_el (p : nat) : M GstElement := fun s =>
  match elements s !! p with
  | Some e => inr (e, s)
  | None => inl (NoObject p)
  end.

Definition upd_el (p : nat) (f : GstElement → GstElement) : M unit :=
  e ← get_el p;
  modify (fun s => with_elements (<[p := f e]> (elements s)) s).

(** [g_object_get_data] and [g_object_set_data_full] on the two kinds of
    objects.  Only [KEY_MESSAGE] has a destroy notification with an
    effect on the state; it is handled by [set_message_binding]. *)
Definition msg_get_data (p : nat) (key : string) : M (option qdata) :=
  m ← get_msg p; mret (msg_data m !! key).

Definition msg_set_data (p : nat) (key : string) (v : qdata) : M unit :=
  upd_msg p (fun m => with_msg_data (<[key := v]> (msg_data m)) m).

Definition el_get_data (p : nat) (key : string) : M (option qdata) :=
  e ← get_el p; mret (el_data e !! key).

Definition el_set_data (p : nat) (key : string) (v : qdata) : M unit :=
  upd_el p (fun e => with_el_data (<[key := v]> (el_data e)) e).

Definition el_unset_data (p : nat) (key : string) : M unit :=
  upd_el p (fun e => with_el_data (delete key (el_data e)) e).

(** Reading through the pointer a table entry holds. *)
Definition deref_ulong (key : string) (d : option qdata) : M nat :=
  match d with
  | Some (QUlong id) => mret id
  | Some _ => crashed (WrongData key)
  | None => crashed (NullPointer key)
  end.

Definition deref_uint (key : string) (d : option qdata) : M Z :=
  match d with
  | Some (QUint n) => mret n
  | Some _ => crashed (WrongData key)
  | None => crashed (NullPointer key)
  end.

Definition deref_bool (key : string) (d : option qdata) : M bool :=
  match d with
  | Some (QBool b) => mret b
  | Some _ => crashed (WrongData key)
  | None => crashed (NullPointer key)
  end.

(** [serv->priv]: the server pointer kept on a message is read through. *)
Definition deref_server (d : option qdata) : M unit :=
  match d with
  | Some QServer => mret tt
  | Some _ => crashed (WrongData KEY_HTTP_EP_SERVER)
  | None => crashed (NullPointer KEY_HTTP_EP_SERVER)
  end.

Definition g_signal_emit (sig : signal) : M unit :=
  modify (fun s => with_emitted (emitted s ++ [sig]) s).

(** [g_signal_emit (G_OBJECT (serv), ...)] with the server pointer read
    from a message: GLib emits nothing on a null instance. *)
Definition g_signal_emit_on (serv : option qdata) (sig : signal) : M unit :=
  match serv with
  | Some QServer => g_signal_emit sig
  | _ => mret tt
  end.

Definition fresh_handler_id : M nat :=
  s ← get_state;
  modify (with_next_handler_id (S (next_handler_id s)));;
  mret (next_handler_id s).

Definition g_signal_connect_msg (p : nat) (sig : string) (cb : callback) : M nat :=
  id ← fresh_handler_id;
  upd_msg p (fun m => with_msg_connections
    (msg_connections m ++ [{| conn_id := id; conn_signal := sig; conn_callback := cb |}]) m);;
  mret id.

Definition g_signal_connect_el (p : nat) (sig : string) (cb : callback) : M nat :=
  id ← fresh_handler_id;
  upd_el p (fun e => with_el_connections
    (el_connections e ++ [{| conn_id := id; conn_signal := sig; conn_callback := cb |}]) e);;
  mret id.

Definition drop_connection (id : nat) (l : list connection) : list connection :=
  filter (fun c => conn_id c ≠ id) l.

Definition g_signal_handler_disconnect_msg (p : nat) (id : nat) : M unit :=
  upd_msg p (fun m => with_msg_connections (drop_connection id (msg_connections m)) m).

Definition g_signal_handler_disconnect_el (p : nat) (id : nat) : M unit :=
  upd_el p (fun e => with_el_connections (drop_connection id (el_connections e)) e).

Definition soup_message_set_status (p : nat) (c : Z) : M unit :=
  upd_msg p (with_status c).

Definition set_start (httpep : nat) (b : bool) : M unit :=
  upd_el httpep (with_el_start b).

(** ** libsoup: cookies and dates *)

(** The [int] a [guint] converts to. *)
Definition to_gint (n : Z) : Z := if n mod 2 ^ 32 <? 2 ^ 31 then n mod 2 ^ 32 else n mod 2 ^ 32 - 2 ^ 32.

(** Arithmetic on [guint]. *)
Definition to_guint (n : Z) : Z := n mod 2 ^ 32.

(** [soup_cookie_new]: [max_age = -1] makes a session cookie without an
    expiry date, [0] a cookie that expired long ago, any other value one
    that expires [max_age] seconds from now. *)
Definition soup_cookie_new (now : Z) (name value domain path : string) (max_age : Z) : SoupCookie :=
  {| cookie_name := name; cookie_value := value; cookie_domain := domain;
     cookie_path := path; cookie_max_age := max_age;
     cookie_expires :=
       if max_age =? -1 then None
       else if max_age =? 0 then Some 0
       else Some (now + max_age) |}.

Definition soup_cookie_to_set_cookie_header (c : SoupCookie) : string :=
  cookie_name c +:+ "=" +:+ cookie_value c
    +:+ "; Max-Age=" +:+ pretty (cookie_max_age c)
    +:+ "; Domain=" +:+ cookie_domain c
    +:+ "; Path=" +:+ cookie_path c.

(** [soup_date_is_past]: the date is before now; libsoup answers TRUE for
    a missing date. *)
Definition soup_date_is_past (now : Z) (date : option Z) : bool :=
  match date with
  | None => true
  | Some d => d <? now
  end.

Definition soup_message_headers_replace (name value : string)
    (hs : list (string * string)) : list (string * string) :=
  filter (fun h => fst h ≠ name) hs ++ [(name, value)].

Definition soup_message_headers_append (name value : string)
    (hs : list (string * string)) : list (string * string) :=
  hs ++ [(name, value)].

(** ** The functions of the source *)

Definition cookie_has_expired (now : Z) (cookie : SoupCookie) : bool :=
  soup_date_is_past now (cookie_expires cookie).

Definition g_source_remove (id : Z) : M unit :=
  modify (fun s => with_sources (delete id (sources s)) s).

Definition remove_cookie_timeout (httpep : nat) : M unit :=
  timeout_id ← el_get_data httpep KEY_TIMEOUT_ID;
  match timeout_id with
  | None => mret tt
  | Some _ =>
      id ← deref_uint KEY_TIMEOUT_ID timeout_id;
      g_source_remove id;;
      el_unset_data httpep KEY_TIMEOUT_ID
  end.

Definition msg_has_finished (msg : nat) : M bool :=
  finished ← msg_get_data msg KEY_FINISHED;
  deref_bool KEY_FINISHED finished.

(** [kms_http_ep_server_get_ep_from_msg], with the server pointer as it
    was read from the message. *)
Definition kms_http_ep_server_get_ep_from_msg (self : option qdata) (msg : nat) : M (option nat) :=
  m ← get_msg msg;
  deref_server self;;
  s ← get_state;
  if table_is_null (handlers s) then mret None
  else mret (handlers s !! uri_path m).

(** A sample as [send_buffer_cb] sees it: it may have no buffer, and the
    buffer may fail to map. *)
Record GstBuffer : Type := {
  buffer_maps : bool;
  buffer_bytes : list byte
}.

Record sample_data : Type := {
  sd_sample : option GstBuffer;   (* gst_sample_get_buffer (sdata->sample) *)
  sd_msg : nat
}.

Definition send_buffer_cb (sdata : sample_data) : M unit :=
  finished ← msg_has_finished (sd_msg sdata);
  if (finished : bool) then mret tt
  else
    match sd_sample sdata with
    | None => mret tt
    | Some buffer =>
        if negb (buffer_maps buffer) then mret tt
        else
          upd_msg (sd_msg sdata)
            (fun m => with_response_body (response_body m ++ buffer_bytes buffer) m);;
          upd_msg (sd_msg sdata) (with_paused false)
    end.

Definition get_recv_eos (msg : nat) : M unit :=
  upd_msg msg (with_response_complete true).

Definition msg_finished (msg : nat) : M unit :=
  finished ← msg_get_data msg KEY_FINISHED;
  _ ← deref_bool KEY_FINISHED finished;
  msg_set_data msg KEY_FINISHED (QBool true).

Definition disconnect_eos_new_sample_signals (msg : nat) : M unit :=
  serv ← msg_get_data msg KEY_HTTP_EP_SERVER;
  m ← get_msg msg;
  deref_server serv;;
  s ← get_state;
  if table_is_null (handlers s) then mret tt
  else
    match handlers s !! uri_path m with
    | None => mret tt
    | Some httpep =>
        handler ← msg_get_data msg KEY_NEW_SAMPLE_HANDLER_ID;
        id ← deref_ulong KEY_NEW_SAMPLE_HANDLER_ID handler;
        g_signal_handler_disconnect_el httpep id;;
        handler ← msg_get_data msg KEY_EOS_HANDLER_ID;
        id ← deref_ulong KEY_EOS_HANDLER_ID handler;
        g_signal_handler_disconnect_el httpep id
    end.

Definition emit_expiration_signal_cb (msg : nat) : M unit :=
  serv ← msg_get_data msg KEY_HTTP_EP_SERVER;
  m ← get_msg msg;
  g_signal_emit_on serv (URL_EXPIRED (uri_path m));;
  deref_server serv;;
  s ← get_state;
  match handlers s !! uri_path m with
  | None => mret tt
  | Some httpep => remove_cookie_timeout httpep
  end.

(** [g_timeout_add_full (G_PRIORITY_DEFAULT, interval, emit_expiration_signal_cb, msg, ...)]. *)
Definition g_timeout_add_full (interval : Z) (msg : nat) : M Z :=
  s ← get_state;
  let id := next_source_id s in
  modify (with_next_source_id (id + 1));;
  modify (fun s => with_sources
    (<[id := {| interval_ms := interval; source_msg := msg |}]> (sources s)) s);;
  mret id.

(** The main loop runs a pending timeout: the callback returns FALSE, so
    the source is destroyed afterwards. *)
Definition timeout_dispatch (id : Z) : M unit :=
  s ← get_state;
  match sources s !! id with
  | None => mret tt
  | Some src =>
      emit_expiration_signal_cb (source_msg src);;
      g_source_remove id
  end.

(** The [interval] computed by [emit_expiration_signal]. *)
Definition expiry_interval (now : Z) (date : Z) (timeout : Z) : Z :=
  let t_cookie := date - now in
  let t_timeout := (now + timeout) - now in
  to_guint (if t_cookie <? t_timeout then t_cookie else t_timeout).

Definition emit_expiration_signal (now : Z) (msg httpep : nat) : M unit :=
  self ← msg_get_data msg KEY_HTTP_EP_SERVER;
  m ← get_msg msg;
  cookie ← el_get_data httpep KEY_COOKIE;
  match cookie with
  | Some (QCookie cookie) =>
      if cookie_has_expired now cookie then
        g_signal_emit_on self (URL_EXPIRED (uri_path m))
      else
        timeout ← el_get_data httpep KEY_PARAM_TIMEOUT;
        timeout ← deref_uint KEY_PARAM_TIMEOUT timeout;
        let interval := expiry_interval now (default 0 (cookie_expires cookie)) timeout in
        id ← g_timeout_add_full (to_guint (interval * 1000)) msg;
        el_set_data httpep KEY_TIMEOUT_ID (QUint id)
  | Some _ => crashed (WrongData KEY_COOKIE)
  | None => mret tt
  end.

(** [g_object_steal_data (httpep, KEY_MESSAGE)]: the entry is removed
    without its destroy notification. *)
Definition steal_message (httpep : nat) : M unit :=
  el_unset_data httpep KEY_MESSAGE.

Definition finished_get_processing (now : Z) (msg httpep : nat) : M unit :=
  msg_finished msg;;
  disconnect_eos_new_sample_signals msg;;
  set_start httpep false;;
  steal_message httpep;;
  emit_expiration_signal now msg httpep.

Definition msg_add_finished_property (msg : nat) : M unit :=
  msg_set_data msg KEY_FINISHED (QBool false).

Definition kms_http_ep_server_get_handler (msg httpep : nat) : M unit :=
  soup_message_set_status msg SOUP_STATUS_OK;;
  upd_msg msg (fun m => with_response_headers
    (soup_message_headers_replace "Content-Type" "video/webm" (response_headers m)) m);;
  upd_msg msg (with_response_chunked true);;
  msg_add_finished_property msg;;
  handlerid ← g_signal_connect_msg msg "finished" (finished_get_processing_cb httpep);
  msg_set_data msg KEY_FINISHED_HANDLER_ID (QUlong handlerid);;
  handlerid ← g_signal_connect_el httpep "new-sample" new_sample_handler_cb;
  msg_set_data msg KEY_NEW_SAMPLE_HANDLER_ID (QUlong handlerid);;
  handlerid ← g_signal_connect_el httpep "eos" (get_recv_eos_cb msg);
  msg_set_data msg KEY_EOS_HANDLER_ID (QUlong handlerid);;
  set_start httpep true.

(** A chunk of the request body: the memory it lies in, the address of
    its first byte and its length. *)
Record SoupBuffer : Type := {
  buffer_region : list byte;
  buffer_data : Z;
  buffer_length : Z
}.

(** The range [got_chunk_handler] copies, from the two pointers
    [find_content_part] left: where the copy starts and its length. *)
Definition content_range (chunk : SoupBuffer) (content_start content_end : ptr) : Z * Z :=
  match content_start, content_end with
  | Ptr cs, Ptr ce => (cs, ce - cs)
  | Ptr cs, NULL => (cs, buffer_length chunk - (cs - buffer_data chunk))
  | NULL, Ptr ce => (buffer_data chunk, ce - buffer_data chunk)
  | NULL, NULL => (buffer_data chunk, buffer_length chunk)
  end.

(** The bytes [memcpy] moves: [len] bytes from [from], all of which must
    lie in the region. *)
Definition copy_bytes (region : list byte) (from len : Z) : M (list byte) :=
  if (0 <=? from) && (0 <=? len) && (from + len <=? Z.of_nat (length region))
  then mret (take (Z.to_nat len) (drop (Z.to_nat from) region))
  else crashed (BadRange from len).

Definition got_chunk_handler (msg : nat) (chunk : SoupBuffer) (httpep : nat) : M unit :=
  boundary ← msg_get_data msg KEY_BOUNDARY;
  '(content_start, content_end) ←
    match boundary with
    | Some (QString boundary) =>
        match result (find_content_part (buffer_region chunk) (buffer_data chunk)
                        (buffer_data chunk + buffer_length chunk) (bytes_of boundary)) with
        | inr found => mret found
        | inl f => crashed (ReadFault f)
        end
    | Some _ => crashed (WrongData KEY_BOUNDARY)
    | None => mret (NULL, NULL)
    end;
  let '(copy_from, len) := content_range chunk content_start content_end in
  bytes ← copy_bytes (buffer_region chunk) copy_from len;
  (* push-buffer; a result other than GST_FLOW_OK is only logged *)
  upd_el httpep (fun e => with_el_pushed (el_pushed e ++ [bytes]) e).

Definition finished_post_processing (now : Z) (msg httpep : nat) : M unit :=
  msg_finished msg;;
  (* end-of-stream; a result other than GST_FLOW_OK is only logged *)
  upd_el httpep (with_el_eos true);;
  steal_message httpep;;
  emit_expiration_signal now msg httpep.

Definition g_str_has_prefix (str prefix : string) : bool :=
  GLib.g_str_has_prefix (bytes_of str) (bytes_of prefix).

(** [kms_http_ep_server_post_handler].  The local [params] is declared
    without a value and assigned by
    [soup_message_headers_get_content_type] only when the header is
    there.  At the label [end] the source tests it against NULL and
    hands it to [g_hash_table_destroy]: without a Content-Type header
    that is a read of a variable that was never assigned.  With the
    header the table is released there, which is not modelled. *)
Definition kms_http_ep_server_post_handler (msg httpep : nat) : M unit :=
  m ← get_msg msg;
  match request_content_type m with
  | None =>
      soup_message_set_status msg SOUP_STATUS_NOT_ACCEPTABLE;;
      (* end: if (params != NULL) *)
      crashed (Uninitialised "params")
  | Some (content_type, params) =>
      accepted ←
        (if negb (g_str_has_prefix "multipart/" content_type) then mret true
         else
           match params !! "boundary" with
           | None =>
               soup_message_set_status msg SOUP_STATUS_NOT_ACCEPTABLE;;
               mret false
           | Some boundary =>
               msg_set_data msg KEY_BOUNDARY (QString boundary);;
               mret true
           end);
      if (accepted : bool) then
        (* get_chunks: *)
        soup_message_set_status msg SOUP_STATUS_OK;;
        upd_msg msg (with_request_accumulate false);;
        msg_add_finished_property msg;;
        handlerid ← g_signal_connect_msg msg "got-chunk" (got_chunk_handler_cb httpep);
        msg_set_data msg KEY_GOT_CHUNK_HANDLER_ID (QUlong handlerid);;
        handlerid ← g_signal_connect_msg msg "finished" (finished_post_processing_cb httpep);
        msg_set_data msg KEY_FINISHED_HANDLER_ID (QUlong handlerid)
      else mret tt
  end.

Definition destroy_pending_message (msg : nat) : M unit :=
  m ← get_msg msg;
  match method m with
  | GET =>
      serv ← msg_get_data msg KEY_HTTP_EP_SERVER;
      httpep ← kms_http_ep_server_get_ep_from_msg serv msg;
      disconnect_eos_new_sample_signals msg;;
      match httpep with
      | Some httpep => set_start httpep false
      | None => mret tt
      end;;
      upd_msg msg (with_paused false);;
      upd_msg msg (with_response_complete true)
  | POST =>
      handlerid ← msg_get_data msg KEY_GOT_CHUNK_HANDLER_ID;
      id ← deref_ulong KEY_GOT_CHUNK_HANDLER_ID handlerid;
      g_signal_handler_disconnect_msg msg id
  | OTHER _ => mret tt
  end;;
  handlerid ← msg_get_data msg KEY_FINISHED_HANDLER_ID;
  id ← deref_ulong KEY_FINISHED_HANDLER_ID handlerid;
  g_signal_handler_disconnect_msg msg id.

(** [g_object_set_data_full (httpep, KEY_MESSAGE, msg, destroy_pending_message)]:
    the table takes the new value, then the value it held before is
    handed to its destroy notification. *)
Definition set_message_binding (httpep : nat) (msg : option nat) : M unit :=
  old ← el_get_data httpep KEY_MESSAGE;
  match msg with
  | Some msg => el_set_data httpep KEY_MESSAGE (QMessage msg)
  | None => el_unset_data httpep KEY_MESSAGE
  end;;
  match old with
  | Some (QMessage old) => destroy_pending_message old
  | Some _ => crashed (WrongData KEY_MESSAGE)
  | None => mret tt
  end.

(** [kms_http_ep_server_register_handler].  The source does not test
    the table: on a null table the lookup finds nothing, the insert does
    nothing, and the answer is TRUE. *)
Definition kms_http_ep_server_register_handler (uri : string) (endpoint : nat) : M bool :=
  s ← get_state;
  match handlers s !! uri with
  | Some element => mret false
  | None =>
      modify (fun s => with_handlers (<[uri := endpoint]> (handlers s)) s);;
      mret true
  end.

(** [rnd] is the number [g_rand_double_range] draws, as a [gint64]. *)
Definition kms_http_ep_server_set_cookie (now rnd : Z) (httpep msg : nat) (path : string) : M unit :=
  lifetime ← el_get_data httpep KEY_PARAM_LIFETIME;
  lifetime ← deref_uint KEY_PARAM_LIFETIME lifetime;
  s ← get_state;
  let id_str := pretty rnd in
  let cookie := soup_cookie_new now COOKIE_NAME id_str (announcedAddr s) path (to_gint lifetime) in
  let header := soup_cookie_to_set_cookie_header cookie in
  upd_msg msg (fun m => with_response_headers
    (soup_message_headers_append "Set-Cookie" header (response_headers m)) m);;
  el_set_data httpep KEY_COOKIE (QCookie cookie).

(** The loop of [kms_http_ep_server_check_cookie] over the cookies of the
    request. *)
Fixpoint cookie_loop (cookie : SoupCookie) (cookies : list (string * string)) : bool :=
  match cookies with
  | [] => false
  | c :: e =>
      if negb (GLib.g_strcmp0_eq (cookie_name cookie) (fst c)) then cookie_loop cookie e
      else if GLib.g_strcmp0_eq (cookie_value cookie) (snd c) then true
      else cookie_loop cookie e
  end.

Definition kms_http_ep_server_check_cookie (now : Z) (cookie : SoupCookie) (m : SoupMessage) : bool :=
  if cookie_has_expired now cookie then false
  else
    match request_cookies m with
    | [] => false
    | cookies => cookie_loop cookie cookies
    end.

Definition kms_http_ep_server_manage_cookie_session (now rnd : Z) (httpep msg : nat)
    (path : string) : M bool :=
  cookie ← el_get_data httpep KEY_COOKIE;
  match cookie with
  | Some (QCookie cookie) =>
      m ← get_msg msg;
      mret (kms_http_ep_server_check_cookie now cookie m)
  | Some _ => crashed (WrongData KEY_COOKIE)
  | None =>
      kms_http_ep_server_set_cookie now rnd httpep msg path;;
      mret true
  end.

Definition got_headers_handler (now rnd : Z) (msg : nat) : M unit :=
  m ← get_msg msg;
  let path := uri_path m in
  s ← get_state;
  match handlers s !! path with
  | None => soup_message_set_status msg SOUP_STATUS_NOT_FOUND
  | Some httpep =>
      allowed ← kms_http_ep_server_manage_cookie_session now rnd httpep msg path;
      if negb allowed then soup_message_set_status msg SOUP_STATUS_BAD_REQUEST
      else
        remove_cookie_timeout httpep;;
        set_message_binding httpep (Some msg);;
        msg_set_data msg KEY_HTTP_EP_SERVER QServer;;
        match method m with
        | GET =>
            kms_http_ep_server_get_handler msg httpep;;
            g_signal_emit (ACTION_REQUESTED path ACTION_GET)
        | POST =>
            kms_http_ep_server_post_handler msg httpep;;
            g_signal_emit (ACTION_REQUESTED path ACTION_POST)
        | OTHER _ =>
            soup_message_set_status msg SOUP_STATUS_METHOD_NOT_ALLOWED
        end
  end.

Definition add_guint_param (httpep : nat) (name : string) (val : Z) : M unit :=
  el_set_data httpep name (QUint val).

(** [kms_http_ep_server_register_end_point_impl]; [uuid_str] is the
    string [uuid_unparse] wrote, [is_httpendpoint] the outcome of the
    type check against the "httpendpoint" factory.  The result is the
    URL, or nothing. *)
Definition kms_http_ep_server_register_end_point_impl (uuid_str : string)
    (endpoint : nat) (lifetime timeout : Z) : M (option string) :=
  e ← get_el endpoint;
  if negb (is_httpendpoint e) then mret None
  else
    let url := "/" +:+ uuid_str in
    registered ← kms_http_ep_server_register_handler url endpoint;
    if negb registered then mret None
    else
      add_guint_param endpoint KEY_PARAM_LIFETIME lifetime;;
      add_guint_param endpoint KEY_PARAM_TIMEOUT timeout;;
      mret (Some url).

Definition emit_removed_url_signal (uri : string) : M unit :=
  g_signal_emit (URL_REMOVED uri).

Definition kms_http_ep_server_unregister_end_point_impl (uri : string) : M bool :=
  s ← get_state;
  if table_is_null (handlers s) then mret false
  else
    match handlers s !! uri with
    | None => mret false
    | Some httpep =>
        remove_cookie_timeout httpep;;
        set_message_binding httpep None;;
        modify (fun s => with_handlers (delete uri (handlers s)) s);;
        emit_removed_url_signal uri;;
        mret true
    end.

(** ** The events of the main loop *)

(** The "finished" signal of a message runs the callbacks connected to
    it, in connection order. *)
Fixpoint run_finished (now : Z) (msg : nat) (cs : list connection) : M unit :=
  match cs with
  | [] => mret tt
  | c :: cs' =>
      (if bool_decide (conn_signal c = "finished") then
         match conn_callback c with
         | finished_get_processing_cb httpep => finished_get_processing now msg httpep
         | finished_post_processing_cb httpep => finished_post_processing now msg httpep
         | _ => mret tt
         end
       else mret tt);;
      run_finished now msg cs'
  end.

Fixpoint run_got_chunk (msg : nat) (chunk : SoupBuffer) (cs : list connection) : M unit :=
  match cs with
  | [] => mret tt
  | c :: cs' =>
      (if bool_decide (conn_signal c = "got-chunk") then
         match conn_callback c with
         | got_chunk_handler_cb httpep => got_chunk_handler msg chunk httpep
         | _ => mret tt
         end
       else mret tt);;
      run_got_chunk msg chunk cs'
  end.

Fixpoint run_eos (cs : list connection) : M unit :=
  match cs with
  | [] => mret tt
  | c :: cs' =>
      (if bool_decide (conn_signal c = "eos") then
         match conn_callback c with
         | get_recv_eos_cb msg => get_recv_eos msg
         | _ => mret tt
         end
       else mret tt);;
      run_eos cs'
  end.

Inductive event : Type :=
  | EvRegister (uuid_str : string) (endpoint : nat) (lifetime timeout : Z)
  | EvUnregister (uri : string)
  | EvGotHeaders (now rnd : Z) (msg : nat)
  | EvGotChunk (msg : nat) (chunk : SoupBuffer)
  | EvFinished (now : Z) (msg : nat)
  | EvEos (httpep : nat)
  | EvTimeout (id : Z)
  | EvSendBuffer (sdata : sample_data).

Definition run_event (ev : event) : M unit :=
  match ev with
  | EvRegister uuid_str endpoint lifetime timeout =>
      kms_http_ep_server_register_end_point_impl uuid_str endpoint lifetime timeout;; mret tt
  | EvUnregister uri =>
      kms_http_ep_server_unregister_end_point_impl uri;; mret tt
  | EvGotHeaders now rnd msg => got_headers_handler now rnd msg
  | EvGotChunk msg chunk =>
      m ← get_msg msg; run_got_chunk msg chunk (msg_connections m)
  | EvFinished now msg =>
      m ← get_msg msg; run_finished now msg (msg_connections m)
  | EvEos httpep =>
      e ← get_el httpep; run_eos (el_connections e)
  | EvTimeout id => timeout_dispatch id
  | EvSendBuffer sdata => send_buffer_cb sdata
  end.

Fixpoint run_events (evs : list event) : M unit :=
  match evs with
  | [] => mret tt
  | ev :: evs' => run_event ev;; run_events evs'
  end.

(** The event removes the path [p] from the registry. *)
Definition unregisters (p : string) (ev : event) : bool :=
  match ev with
  | EvUnregister uri => bool_decide (uri = p)
  | _ => false
  end.

(** The write tasks queued for the main loop, run in order. *)
Fixpoint run_tasks (tasks : list sample_data) : M unit :=
  match tasks with
  | [] => mret tt
  | sdata :: tasks' => send_buffer_cb sdata;; run_tasks tasks'
  end.

(** The state a computation ends in. *)
Definition exec {A} (c : M A) (s : State) : crash + State :=
  match c s with
  | inl e => inl e
  | inr (_, s') => inr s'
  end.

(** ** Views of the state *)

(** [keeps f c]: whenever [c] returns, the view [f] of the state is what
    it was before. *)
Definition keeps {A B} (f : State → B) (c : M A) : Prop :=
  ∀ s a s', c s = inr (a, s') → f s' = f s.

(** The part of a message that comes from the request. *)
Definition request_view (m : SoupMessage) :=
  (method m, uri_path m, request_content_type m, request_cookies m).

Definition request_of (msg : nat) (s : State) :=
  request_view <$> messages s !! msg.

(** The data table of an element, and the message bound to it. *)
Definition data_of (httpep : nat) (s : State) : option (gmap string qdata) :=
  el_data <$> elements s !! httpep.

Definition message_bound (httpep : nat) (s : State) : option qdata :=
  data_of httpep s ≫= (fun d => d !! KEY_MESSAGE).

(** The two parameters [kms_http_ep_server_register_end_point_impl]
    attaches to an element. *)
Definition params_of (httpep : nat) (s : State) : option (option qdata * option qdata) :=
  (fun d => (d !! KEY_PARAM_LIFETIME, d !! KEY_PARAM_TIMEOUT)) <$> data_of httpep s.

Definition has_params (httpep : nat) (s : State) : Prop :=
  ∃ lifetime timeout,
    params_of httpep s = Some (Some (QUint lifetime), Some (QUint timeout)).

(** Every registered path leads to a live element that has its
    parameters. *)
Definition registry_ok (s : State) : Prop :=
  ∀ p httpep, handlers s !! p = Some httpep → has_params httpep s.

(** The message and the element are live objects. *)
Definition live (msg httpep : nat) (s : State) : Prop :=
  is_Some (messages s !! msg) ∧ is_Some (elements s !! httpep).

(** [total_on P c]: from every state that satisfies [P], [c] returns, in
    a state that satisfies [P]. *)
Definition total_on {A} (P : State → Prop) (c : M A) : Prop :=
  ∀ s, P s → ∃ a s', c s = inr (a, s') ∧ P s'.

(** The element can take a request: no message is bound to it and its
    timeout entry, if there is one, holds a source id. *)
Definition ready (e : GstElement) : Prop :=
  el_data e !! KEY_MESSAGE = None ∧
  (el_data e !! KEY_TIMEOUT_ID = None ∨
   ∃ id, el_data e !! KEY_TIMEOUT_ID = Some (QUint id)).

(** The session check lets the request through: the element has no
    session yet, or the request passes the check against the session
    cookie. *)
Definition session_grants (now : Z) (e : GstElement) (m : SoupMessage) : Prop :=
  el_data e !! KEY_COOKIE = None ∨
  (∃ cookie, el_data e !! KEY_COOKIE = Some (QCookie cookie) ∧
             kms_http_ep_server_check_cookie now cookie m = true).

(** No [g_signal_connect] ran between two states: no handler id was
    handed out. *)
Definition no_handler_installed (s s' : State) : Prop :=
  next_handler_id s' = next_handler_id s.

(** The only difference between two states is the status of [msg]. *)
Definition only_status_set (msg : nat) (s s' : State) : Prop :=
  ∃ m c, messages s !! msg = Some m ∧
         s' = with_messages (<[msg := with_status c m]> (messages s)) s.

(** The request carries the cookie of the session. *)
Definition presents (cookie : SoupCookie) (m : SoupMessage) : Prop :=
  ∃ c, c ∈ request_cookies m ∧ fst c = cookie_name cookie ∧ snd c = cookie_value cookie.

(** The POST requests [kms_http_ep_server_post_handler] turns down and
    returns from: those sent to the boundary check without a boundary. *)
Definition post_rejected (m : SoupMessage) : Prop :=
  ∃ content_type params,
    request_content_type m = Some (content_type, params) ∧
    g_str_has_prefix "multipart/" content_type = true ∧
    params !! "boundary" = None.

(** What a request with a method other than GET and POST leaves behind:
    status 405, no handler connected, nothing emitted. *)
Definition method_not_allowed (msg : nat) (s s' : State) : Prop :=
  status_code <$> messages s' !! msg = Some SOUP_STATUS_METHOD_NOT_ALLOWED ∧
  no_handler_installed s s' ∧
  emitted s' = emitted s.

(** What the dispatch of a POST leaves behind: action-requested emitted,
    and for a request the POST handler turns down, status 406 and no
    handler connected. *)
Definition post_dispatched (msg : nat) (m : SoupMessage) (s s' : State) : Prop :=
  emitted s' = emitted s ++ [ACTION_REQUESTED (uri_path m) ACTION_POST] ∧
  (post_rejected m →
   status_code <$> messages s' !! msg = Some SOUP_STATUS_NOT_ACCEPTABLE ∧
   no_handler_installed s s').

(** ** The dispatcher after admission *)

(** The branch of [got_headers_handler] on the method. *)
Definition dispatch_method (msg httpep : nat) (m : SoupMessage) : M unit :=
  match method m with
  | GET =>
      kms_http_ep_server_get_handler msg httpep;;
      g_signal_emit (ACTION_REQUESTED (uri_path m) ACTION_GET)
  | POST =>
      kms_http_ep_server_post_handler msg httpep;;
      g_signal_emit (ACTION_REQUESTED (uri_path m) ACTION_POST)
  | OTHER _ =>
      soup_message_set_status msg SOUP_STATUS_METHOD_NOT_ALLOWED
  end.

(** What [got_headers_handler] does once the session check has passed. *)
Definition dispatch_allowed (msg httpep : nat) (m : SoupMessage) : M unit :=
  remove_cookie_timeout httpep;;
  set_message_binding httpep (Some msg);;
  msg_set_data msg KEY_HTTP_EP_SERVER QServer;;
  dispatch_method msg httpep m.

(** ** The producer side of a GET *)

Inductive GstFlowReturn : Type :=
  | GST_FLOW_OK
  | GST_FLOW_ERROR.

(** The data [new_sample_handler] hands to [g_idle_add_full]: the buffer
    of the sample, and the message and the server as they were read;
    either may be absent. *)
Record idle_source : Type := {
  idle_sample : option GstBuffer;
  idle_msg : option qdata;
  idle_httpepserver : option qdata
}.

(** [new_sample_handler]; [sample] is what "pull-sample" handed back:
    nothing, or a sample with the buffer [gst_sample_get_buffer] finds
    in it.  The result is the flow return and the idle source that was
    added.  [g_object_ref] and [g_object_get_data] answer NULL on a null
    object. *)
Definition new_sample_handler (httpep : nat) (sample : option (option GstBuffer))
    : M (GstFlowReturn * option idle_source) :=
  msg ← el_get_data httpep KEY_MESSAGE;
  match sample with
  | None => mret (GST_FLOW_ERROR, None)
  | Some sample =>
      serv ← match msg with
             | Some (QMessage msg) => msg_get_data msg KEY_HTTP_EP_SERVER
             | Some _ => crashed (WrongData KEY_MESSAGE)
             | None => mret None
             end;
      mret (GST_FLOW_OK,
            Some {| idle_sample := sample; idle_msg := msg; idle_httpepserver := serv |})
  end.

(** The main loop runs an idle source: [send_buffer_cb] on its data.
    Without a message the read of KEY_FINISHED goes through a null
    pointer; without a server the read of [priv->server] does, after the
    three early exits of [send_buffer_cb]. *)
Definition idle_dispatch (src : idle_source) : M unit :=
  match idle_msg src with
  | Some (QMessage msg) =>
      match idle_httpepserver src with
      | Some QServer => send_buffer_cb {| sd_sample := idle_sample src; sd_msg := msg |}
      | Some _ => crashed (WrongData KEY_HTTP_EP_SERVER)
      | None =>
          finished ← msg_has_finished msg;
          if (finished : bool) then mret tt
          else
            match idle_sample src with
            | None => mret tt
            | Some buffer =>
                if negb (buffer_maps buffer) then mret tt
                else crashed (NullPointer KEY_HTTP_EP_SERVER)
            end
      end
  | Some _ => crashed (WrongData KEY_MESSAGE)
  | None => crashed (NullPointer KEY_FINISHED)
  end.

(** ** The announced address *)

Inductive GSocketFamily : Type :=
  | G_SOCKET_FAMILY_INVALID
  | G_SOCKET_FAMILY_UNIX
  | G_SOCKET_FAMILY_IPV4
  | G_SOCKET_FAMILY_IPV6.

Section GetAddress.

(** [g_inet_address_new_from_string] followed by
    [g_inet_address_get_family]; nothing for a string that does not
    parse. *)
Variable inet_family : string → option GSocketFamily.

(** The loop of [get_address] over the local addresses.  [addressStr] is
    the local variable of that name: it has no value until an IPv4
    address is met. *)
Fixpoint get_address_loop (l : list string) (done : bool) (addressStr : option string)
    : option string :=
  match l with
  | [] => addressStr
  | data :: next =>
      if done then addressStr
      else
        match inet_family data with
        | None => get_address_loop next done addressStr
        | Some G_SOCKET_FAMILY_IPV4 => get_address_loop next true (Some data)
        | Some _ => get_address_loop next done addressStr
        end
  end.

(** [get_address]; [ips] is the list [nice_interfaces_get_local_ips]
    returns.  Nothing stands for the unset pointer the function returns
    when no address is IPv4. *)
Definition get_address (ips : list string) : option string :=
  get_address_loop ips false None.

End GetAddress.

(** ** The server object: properties, start and stop *)

(** The [SoupServer] of the object: whether its listening socket is
    connected, the local address of that socket, and whether the server
    is processing requests. *)
Record SoupServer : Type := {
  listener_connected : bool;
  listener_physical : string;
  listener_port : Z;
  server_running : bool
}.

Record KmsHttpEPServerPrivate : Type := {
  priv_handlers : option (gmap string nat);
  priv_server : option SoupServer;
  priv_announcedAddr : option string;
  priv_iface : option string;
  priv_port : Z
}.

Definition with_priv_handlers (h : option (gmap string nat))
    (self : KmsHttpEPServerPrivate) : KmsHttpEPServerPrivate :=
  {| priv_handlers := h; priv_server := priv_server self;
     priv_announcedAddr := priv_announcedAddr self; priv_iface := priv_iface self;
     priv_port := priv_port self |}.

Definition with_priv_server (srv : option SoupServer)
    (self : KmsHttpEPServerPrivate) : KmsHttpEPServerPrivate :=
  {| priv_handlers := priv_handlers self; priv_server := srv;
     priv_announcedAddr := priv_announcedAddr self; priv_iface := priv_iface self;
     priv_port := priv_port self |}.

Definition with_priv_announcedAddr (a : option string)
    (self : KmsHttpEPServerPrivate) : KmsHttpEPServerPrivate :=
  {| priv_handlers := priv_handlers self; priv_server := priv_server self;
     priv_announcedAddr := a; priv_iface := priv_iface self;
     priv_port := priv_port self |}.

Definition with_priv_iface (i : option string)
    (self : KmsHttpEPServerPrivate) : KmsHttpEPServerPrivate :=
  {| priv_handlers := priv_handlers self; priv_server := priv_server self;
     priv_announcedAddr := priv_announcedAddr self; priv_iface := i;
     priv_port := priv_port self |}.

Definition with_priv_port (p : Z)
    (self : KmsHttpEPServerPrivate) : KmsHttpEPServerPrivate :=
  {| priv_handlers := priv_handlers self; priv_server := priv_server self;
     priv_announcedAddr := priv_announcedAddr self; priv_iface := priv_iface self;
     priv_port := p |}.

(** [kms_http_ep_server_init]: the default values and an empty table. *)
Definition kms_http_ep_server_init : KmsHttpEPServerPrivate :=
  {| priv_handlers := Some ∅; priv_server := None; priv_announcedAddr := None;
     priv_iface := None; priv_port := 0 |}.

(** Property values and ids. *)
Inductive GValue : Type :=
  | GInt (n : Z)
  | GString (s : option string).

Definition PROP_KMS_HTTP_EP_SERVER_PORT : Z := 1.
Definition PROP_KMS_HTTP_EP_SERVER_INTERFACE : Z := 2.
Definition PROP_KMS_HTTP_EP_SERVER_ANNOUNCED_ADDRESS : Z := 3.

(** GObject hands [set_property] a value of the type of the property;
    on a value of another type the accessors answer 0 and NULL. *)
Definition g_value_get_int (v : GValue) : Z :=
  match v with GInt n => n | GString _ => 0 end.

Definition g_value_dup_string (v : GValue) : option string :=
  match v with GString s => s | GInt _ => None end.

(** [kms_http_ep_server_set_property]; [local_address] is what
    [get_address ()] returns at this moment. *)
Definition kms_http_ep_server_set_property (local_address : option string)
    (prop_id : Z) (value : GValue) (self : KmsHttpEPServerPrivate)
    : KmsHttpEPServerPrivate :=
  if prop_id =? PROP_KMS_HTTP_EP_SERVER_PORT then
    with_priv_port (g_value_get_int value) self
  else if prop_id =? PROP_KMS_HTTP_EP_SERVER_INTERFACE then
    with_priv_iface (g_value_dup_string value) self
  else if prop_id =? PROP_KMS_HTTP_EP_SERVER_ANNOUNCED_ADDRESS then
    match g_value_dup_string value with
    | None => with_priv_announcedAddr local_address self
    | Some val => with_priv_announcedAddr (Some val) self
    end
  else self.

(** [kms_http_ep_server_get_property]: the new content of [value], which
    is left as it was for an id that is no property. *)
Definition kms_http_ep_server_get_property (prop_id : Z) (value : GValue)
    (self : KmsHttpEPServerPrivate) : GValue :=
  if prop_id =? PROP_KMS_HTTP_EP_SERVER_PORT then GInt (priv_port self)
  else if prop_id =? PROP_KMS_HTTP_EP_SERVER_INTERFACE then GString (priv_iface self)
  else if prop_id =? PROP_KMS_HTTP_EP_SERVER_ANNOUNCED_ADDRESS then
    GString (priv_announcedAddr self)
  else value.

(** [kms_http_ep_server_create_server]; [srv] is what [soup_server_new]
    returns for the port and the interface: a server, or NULL when it
    cannot listen there.  It is kept and set running; the interface and
    the port are filled in from the listening socket when they were left
    open and the socket is connected.  On a null server libsoup's
    functions do nothing, [soup_server_get_listener] answers NULL and
    [soup_socket_is_connected] FALSE. *)
Definition soup_server_run_async (srv : SoupServer) : SoupServer :=
  {| listener_connected := listener_connected srv;
     listener_physical := listener_physical srv;
     listener_port := listener_port srv; server_running := true |}.

Definition soup_server_quit (srv : SoupServer) : SoupServer :=
  {| listener_connected := listener_connected srv;
     listener_physical := listener_physical srv;
     listener_port := listener_port srv; server_running := false |}.

Definition kms_http_ep_server_create_server (srv : option SoupServer)
    (self : KmsHttpEPServerPrivate) : KmsHttpEPServerPrivate :=
  match srv with
  | None => with_priv_server None self
  | Some srv =>
      let self := with_priv_server (Some (soup_server_run_async srv)) self in
      if negb (listener_connected srv) then self
      else
        let self :=
          match priv_iface self with
          | None => with_priv_iface (Some (listener_physical srv)) self
          | Some _ => self
          end in
        if priv_port self =? 0 then with_priv_port (listener_port srv) self
        else self
  end.

(** The errors handed to the start callback. *)
Inductive KmsHttpEPServerError : Type :=
  | HTTPEPSERVER_RESOLVE_CANCELED_ERROR
  | HTTPEPSERVER_CANT_RESOLVE_ERROR
  | HTTPEPSERVER_UNEXPECTED_ERROR.

Definition SOUP_STATUS_CANCELLED : Z := 1.
Definition SOUP_STATUS_CANT_RESOLVE : Z := 2.

(** What a step of the start leaves: the private data, the calls of the
    start callback it made (each with its error, or none), and the
    address whose resolution it started. *)
Record start_step : Type := {
  step_priv : KmsHttpEPServerPrivate;
  step_callbacks : list (option KmsHttpEPServerError);
  step_resolving : option (string * Z)
}.

(** [soup_address_callback], which ends a resolution with [status];
    [srv] is what [soup_server_new] returns when it is called. *)
Definition soup_address_callback (srv : option SoupServer) (status : Z)
    (self : KmsHttpEPServerPrivate) : start_step :=
  if status =? SOUP_STATUS_OK then
    {| step_priv := kms_http_ep_server_create_server srv self;
       step_callbacks := [None]; step_resolving := None |}
  else if status =? SOUP_STATUS_CANCELLED then
    {| step_priv := self;
       step_callbacks := [Some HTTPEPSERVER_RESOLVE_CANCELED_ERROR];
       step_resolving := None |}
  else if status =? SOUP_STATUS_CANT_RESOLVE then
    {| step_priv := self;
       step_callbacks := [Some HTTPEPSERVER_CANT_RESOLVE_ERROR];
       step_resolving := None |}
  else
    {| step_priv := self;
       step_callbacks := [Some HTTPEPSERVER_UNEXPECTED_ERROR];
       step_resolving := None |}.

(** [kms_http_ep_server_start_impl]; [srv] as above. *)
Definition kms_http_ep_server_start_impl (srv : option SoupServer)
    (self : KmsHttpEPServerPrivate) : start_step :=
  match priv_server self with
  | Some _ => {| step_priv := self; step_callbacks := []; step_resolving := None |}
  | None =>
      match priv_iface self with
      | None =>
          {| step_priv := kms_http_ep_server_create_server srv self;
             step_callbacks := [None]; step_resolving := None |}
      | Some iface =>
          {| step_priv := self; step_callbacks := [];
             step_resolving := Some (iface, priv_port self) |}
      end
  end.

(** [kms_http_ep_server_destroy_handlers]: url-removed for every key of
    the table, in the order [g_hash_table_get_keys] lists them; then the
    table is emptied and dropped.  The function has no answer when the
    table was dropped before: GLib is then handed a null table. *)
Definition kms_http_ep_server_destroy_handlers (self : KmsHttpEPServerPrivate)
    : option (KmsHttpEPServerPrivate * list signal) :=
  match priv_handlers self with
  | None => None
  | Some handlers =>
      Some (with_priv_handlers None self, URL_REMOVED <$> (map_to_list handlers).*1)
  end.

(** [kms_http_ep_server_stop_impl]: the new private data and the signals
    emitted. *)
Definition kms_http_ep_server_stop_impl (self : KmsHttpEPServerPrivate)
    : option (KmsHttpEPServerPrivate * list signal) :=
  match priv_server self with
  | None => Some (self, [])
  | Some srv =>
      r ← kms_http_ep_server_destroy_handlers self;
      Some (with_priv_server (Some (soup_server_quit srv)) r.1, r.2)
  end.

(** [kms_http_ep_server_dispose] and [kms_http_ep_server_finalize]. *)
Definition kms_http_ep_server_dispose (self : KmsHttpEPServerPrivate)
    : KmsHttpEPServerPrivate :=
  match priv_server self with
  | Some _ => with_priv_server None self
  | None => self
  end.

Definition kms_http_ep_server_finalize (self : KmsHttpEPServerPrivate)
    : option (KmsHttpEPServerPrivate * list signal) :=
  let self := with_priv_announcedAddr None (with_priv_iface None self) in
  match priv_handlers self with
  | Some _ => kms_http_ep_server_destroy_handlers self
  | None => Some (self, [])
  end.

(** ** Concrete requests and servers *)

Module Fixture.

Definition request (me : http_method) (path : string)
    (content_type : option (string * gmap string string))
    (cookies : list (string * string)) : SoupMessage :=
  {| method := me; uri_path := path; request_content_type := content_type;
     request_cookies := cookies; status_code := 0; response_headers := [];
     response_chunked := false; response_body := []; response_complete := false;
     request_accumulate := true; paused := false; msg_data := ∅;
     msg_connections := [] |}.

Definition httpendpoint : GstElement :=
  {| is_httpendpoint := true; el_data := ∅; el_start := false;
     el_connections := []; el_pushed := []; el_eos := false |}.

(** A server with one element (1) and the requests given. *)
Definition server (msgs : gmap nat SoupMessage) : State :=
  {| handlers := Some ∅; elements := {[ 1%nat := httpendpoint ]}; messages := msgs;
     sources := ∅; next_handler_id := 1; next_source_id := 1; emitted := [];
     announcedAddr := "10.0.0.1" |}.

Definition the_cookie : list (string * string) := [("HttpEPCookie", "42")].

Definition requests : gmap nat SoupMessage :=
  {[ 10%nat := request GET "/u" None [];
     11%nat := request (OTHER "PUT") "/u" None [];
     12%nat := request POST "/u" (Some ("multipart/form-data", ∅)) the_cookie;
     13%nat := request GET "/unknown" None [];
     14%nat := request POST "/u"
                 (Some ("multipart/form-data", {[ "boundary" := "XYZ" ]})) the_cookie;
     15%nat := request POST "/u" None the_cookie;
     16%nat := request GET "/u" None the_cookie;
     17%nat := request GET "/u" None [("HttpEPCookie", "43")];
     18%nat := request POST "/u" (Some ("multipart/", ∅)) the_cookie;
     19%nat := request (OTHER "PUT") "/u" None [("HttpEPCookie", "43")] ]}.

(** The element registered under "/u" with lifetime 60 and idle
    timeout 5. *)
Definition registered : State :=
  match exec (kms_http_ep_server_register_end_point_impl "u" 1 60 5) (server requests) with
  | inr s => s
  | inl _ => server requests
  end.

(** ... after a first GET at time 1000, which sets the cookie 42. *)
Definition serving : State :=
  match exec (got_headers_handler 1000 42 10) registered with
  | inr s => s
  | inl _ => registered
  end.

(** ... after that GET finished at time 1010. *)
Definition idle : State :=
  match exec (run_event (EvFinished 1010 10)) serving with
  | inr s => s
  | inl _ => serving
  end.

Definition registered_element : GstElement :=
  default httpendpoint (elements registered !! 1%nat).

(** [registered] after a PUT at time 1000. *)
Definition after_put : State :=
  match exec (got_headers_handler 1000 42 11) registered with
  | inr s => s
  | inl _ => registered
  end.

(** The first GET as it stands while it is served and after it
    finished. *)
Definition serving_request : SoupMessage :=
  default (request GET "/u" None []) (messages serving !! 10%nat).

Definition finished_request : SoupMessage :=
  default (request GET "/u" None []) (messages idle !! 10%nat).

(** The element of [idle], and the session cookie it holds. *)
Definition idle_element : GstElement :=
  default httpendpoint (elements idle !! 1%nat).

Definition session_cookie : SoupCookie :=
  soup_cookie_new 1000 COOKIE_NAME "42" "10.0.0.1" "/u" 60.

(** A registration with lifetime and idle timeout of 5000000 seconds,
    one GET at time 1000, finished at time 1010. *)
Definition long_idle : State :=
  match exec (kms_http_ep_server_register_end_point_impl "u" 1 5000000 5000000;;
              got_headers_handler 1000 42 10;;
              run_event (EvFinished 1010 10)) (server requests) with
  | inr s => s
  | inl _ => server requests
  end.

Definition multipart_body : list byte :=
  bytes_of "--XYZ" ++ CRLF ++ bytes_of "H: a" ++ CRLF ++ CRLF
    ++ bytes_of "payload" ++ CRLF ++ bytes_of "--XYZ--" ++ CRLF.

(** The body as one chunk, followed in memory by a NUL. *)
Definition multipart_chunk : SoupBuffer :=
  {| buffer_region := multipart_body ++ [NUL]; buffer_data := 0;
     buffer_length := Z.of_nat (length multipart_body) |}.

(** [registered] after a POST with Content-Type multipart/form-data and
    no boundary. *)
Definition after_post_without_boundary : State :=
  match exec (got_headers_handler 1000 42 12) registered with
  | inr s => s
  | inl _ => registered
  end.

(** [registered] after a POST with Content-Type multipart/form-data;
    boundary=XYZ and one chunk of its body. *)
Definition after_post_with_boundary : State :=
  match exec (got_headers_handler 1000 42 14;;
              run_event (EvGotChunk 14 multipart_chunk)) registered with
  | inr s => s
  | inl _ => registered
  end.

End Fixture.

(** ** The objects as the handlers leave them

    The message and the element after each step of a request, written
    out field by field; the lemmas on the handlers state that these are
    the objects the code leaves.  [n] is the handler id the first
    connection of the step gets. *)

(** A GET after [kms_http_ep_server_get_handler]. *)
Definition served_get (n : nat) (ep : nat) (msg : nat) (m : SoupMessage) : SoupMessage :=
  {| method := method m; uri_path := uri_path m;
     request_content_type := request_content_type m;
     request_cookies := request_cookies m;
     status_code := SOUP_STATUS_OK;
     response_headers :=
       soup_message_headers_replace "Content-Type" "video/webm" (response_headers m);
     response_chunked := true;
     response_body := response_body m;
     response_complete := response_complete m;
     request_accumulate := request_accumulate m;
     paused := paused m;
     msg_data :=
       <[KEY_EOS_HANDLER_ID := QUlong (S (S n))]>
         (<[KEY_NEW_SAMPLE_HANDLER_ID := QUlong (S n)]>
            (<[KEY_FINISHED_HANDLER_ID := QUlong n]>
               (<[KEY_FINISHED := QBool false]>
                  (<[KEY_HTTP_EP_SERVER := QServer]> (msg_data m)))));
     msg_connections :=
       msg_connections m
         ++ [{| conn_id := n; conn_signal := "finished";
                conn_callback := finished_get_processing_cb ep |}] |}.

(** The element after [kms_http_ep_server_get_handler] bound [msg] to it. *)
Definition serving_get (n : nat) (msg : nat) (e : GstElement) : GstElement :=
  {| is_httpendpoint := is_httpendpoint e;
     el_data := <[KEY_MESSAGE := QMessage msg]> (delete KEY_TIMEOUT_ID (el_data e));
     el_start := true;
     el_connections :=
       (el_connections e
          ++ [{| conn_id := S n; conn_signal := "new-sample";
                 conn_callback := new_sample_handler_cb |}])
         ++ [{| conn_id := S (S n); conn_signal := "eos";
                conn_callback := get_recv_eos_cb msg |}];
     el_pushed := el_pushed e; el_eos := el_eos e |}.

(** The cookie [kms_http_ep_server_set_cookie] makes, and the message
    and the element as it leaves them. *)
Definition session_cookie_of (now rnd : Z) (s : State) (m : SoupMessage) (lifetime : Z)
    : SoupCookie :=
  soup_cookie_new now COOKIE_NAME (pretty rnd) (announcedAddr s) (uri_path m)
    (to_gint lifetime).

Definition session_announced (now rnd : Z) (s : State) (lifetime : Z) (m : SoupMessage)
    : SoupMessage :=
  with_response_headers
    (soup_message_headers_append "Set-Cookie"
       (soup_cookie_to_set_cookie_header (session_cookie_of now rnd s m lifetime))
       (response_headers m)) m.

Definition session_opened (now rnd : Z) (s : State) (m : SoupMessage) (lifetime : Z)
    (e : GstElement) : GstElement :=
  with_el_data
    (<[KEY_COOKIE := QCookie (session_cookie_of now rnd s m lifetime)]> (el_data e)) e.

(** The sources after [remove_cookie_timeout] on the element. *)
Definition timer_removed (e : GstElement) (srcs : gmap Z timeout_source) : gmap Z timeout_source :=
  match el_data e !! KEY_TIMEOUT_ID with
  | Some (QUint id) => delete id srcs
  | _ => srcs
  end.

(** The element after [disconnect_eos_new_sample_signals] with the
    handler ids [i1] and [i2], stopped and released. *)
Definition released_get (i1 i2 : nat) (e : GstElement) : GstElement :=
  {| is_httpendpoint := is_httpendpoint e;
     el_data := delete KEY_MESSAGE (el_data e);
     el_start := false;
     el_connections := drop_connection i2 (drop_connection i1 (el_connections e));
     el_pushed := el_pushed e; el_eos := el_eos e |}.

(** The message after [msg_finished]. *)
Definition finished_message (m : SoupMessage) : SoupMessage :=
  with_msg_data (<[KEY_FINISHED := QBool true]> (msg_data m)) m.

(** The timeout [emit_expiration_signal] adds for a message, and the
    element that holds its id. *)
Definition expiry_source (now : Z) (msg : nat) (cookie : SoupCookie) (timeout : Z)
    : timeout_source :=
  {| interval_ms :=
       to_guint (expiry_interval now (default 0 (cookie_expires cookie)) timeout * 1000);
     source_msg := msg |}.

Definition timer_armed (id : Z) (e : GstElement) : GstElement :=
  with_el_data (<[KEY_TIMEOUT_ID := QUint id]> (el_data e)) e.

(** The element after [emit_expiration_signal_cb] dropped the timeout id. *)
Definition timer_cleared (e : GstElement) : GstElement :=
  with_el_data (delete KEY_TIMEOUT_ID (el_data e)) e.

(** A GET after [destroy_pending_message]: the body completed, the
    message unpaused, the finished handler [i0] disconnected. *)
Definition torn_down_get (i0 : nat) (m : SoupMessage) : SoupMessage :=
  {| method := method m; uri_path := uri_path m;
     request_content_type := request_content_type m;
     request_cookies := request_cookies m;
     status_code := status_code m;
     response_headers := response_headers m;
     response_chunked := response_chunked m;
     response_body := response_body m;
     response_complete := true;
     request_accumulate := request_accumulate m;
     paused := false;
     msg_data := msg_data m;
     msg_connections := drop_connection i0 (msg_connections m) |}.

(** The bytes of a chunk, [length] bytes from [data] on, and the chunks
    that lie within their region of memory. *)
Definition chunk_bytes (chunk : SoupBuffer) : list byte :=
  take (Z.to_nat (buffer_length chunk))
       (drop (Z.to_nat (buffer_data chunk)) (buffer_region chunk)).

Definition chunk_in_region (chunk : SoupBuffer) : Prop :=
  0 ≤ buffer_data chunk ∧ 0 ≤ buffer_length chunk ∧
  buffer_data chunk + buffer_length chunk ≤ Z.of_nat (length (buffer_region chunk)).

(** A POST after [kms_http_ep_server_post_handler]. *)
Definition served_post (n : nat) (ep : nat) (m : SoupMessage) : SoupMessage :=
  {| method := method m; uri_path := uri_path m;
     request_content_type := request_content_type m;
     request_cookies := request_cookies m;
     status_code := SOUP_STATUS_OK;
     response_headers := response_headers m;
     response_chunked := response_chunked m;
     response_body := response_body m;
     response_complete := response_complete m;
     request_accumulate := false;
     paused := paused m;
     msg_data :=
       <[KEY_FINISHED_HANDLER_ID := QUlong (S n)]>
         (<[KEY_GOT_CHUNK_HANDLER_ID := QUlong n]>
            (<[KEY_FINISHED := QBool false]>
               (<[KEY_HTTP_EP_SERVER := QServer]> (msg_data m))));
     msg_connections :=
       (msg_connections m
          ++ [{| conn_id := n; conn_signal := "got-chunk";
                 conn_callback := got_chunk_handler_cb ep |}])
         ++ [{| conn_id := S n; conn_signal := "finished";
                conn_callback := finished_post_processing_cb ep |}] |}.

(** The element after [kms_http_ep_server_post_handler] bound [msg] to it. *)
Definition bound_to (msg : nat) (e : GstElement) : GstElement :=
  with_el_data (<[KEY_MESSAGE := QMessage msg]> (delete KEY_TIMEOUT_ID (el_data e))) e.

(** The element after [finished_post_processing]: told the end of the
    stream and released. *)
Definition released_post (e : GstElement) : GstElement :=
  {| is_httpendpoint := is_httpendpoint e;
     el_data := delete KEY_MESSAGE (el_data e);
     el_start := el_start e;
     el_connections := el_connections e;
     el_pushed := el_pushed e; el_eos := true |}.

(** The element after [kms_http_ep_server_register_end_point_impl]. *)
Definition registered_with (lifetime timeout : Z) (e : GstElement) : GstElement :=
  with_el_data
    (<[KEY_PARAM_TIMEOUT := QUint timeout]>
       (<[KEY_PARAM_LIFETIME := QUint lifetime]> (el_data e))) e.

(** The session cookie an element holds. *)
Definition cookie_of (httpep : nat) (s : State) : option qdata :=
  data_of httpep s ≫= (λ d, d !! KEY_COOKIE).

(** The data of the idle source [new_sample_handler] adds for a sample
    with [buffer] while [msg] is bound to the element. *)
Definition write_task (msg : nat) (buffer : GstBuffer) : sample_data :=
  {| sd_sample := Some buffer; sd_msg := msg |}.

(** The element after [kms_http_ep_server_get_handler] bound [msg] to
    it in place of a request that held the handlers [i1] and [i2]. *)
Definition taken_over (n msg : nat) (i1 i2 : nat) (e : GstElement) : GstElement :=
  {| is_httpendpoint := is_httpendpoint e;
     el_data := <[KEY_MESSAGE := QMessage msg]> (el_data e);
     el_start := true;
     el_connections :=
       (drop_connection i2 (drop_connection i1 (el_connections e))
          ++ [{| conn_id := S n; conn_signal := "new-sample";
                 conn_callback := new_sample_handler_cb |}])
         ++ [{| conn_id := S (S n); conn_signal := "eos";
                conn_callback := get_recv_eos_cb msg |}];
     el_pushed := el_pushed e; el_eos := el_eos e |}.

(** A POST after [destroy_pending_message]: the got-chunk handler [i0]
    and the finished handler [i1] disconnected. *)
Definition torn_down_post (i0 i1 : nat) (m : SoupMessage) : SoupMessage :=
  with_msg_connections (drop_connection i0 (drop_connection i1 (msg_connections m))) m.

(** ** Further servers and requests *)

Module Scenario.

Definition soup_server : SoupServer :=
  {| listener_connected := true; listener_physical := "192.0.2.7";
     listener_port := 8080; server_running := false |}.

(** A server object that was started on any interface and an open
    port, with two paths registered. *)
Definition started : KmsHttpEPServerPrivate :=
  with_priv_handlers (Some {[ "/u" := 1%nat; "/v" := 2%nat ]})
    (step_priv (kms_http_ep_server_start_impl (Some soup_server)
                  kms_http_ep_server_init)).

(** A server object that is to listen on a named interface. *)
Definition named : KmsHttpEPServerPrivate :=
  with_priv_iface (Some "media.example.org") kms_http_ep_server_init.

Definition webm_buffer : GstBuffer :=
  {| buffer_maps := true; buffer_bytes := bytes_of "webm" |}.

(** The element registered under "/u" with lifetime 0. *)
Definition registered_zero : State :=
  match exec (kms_http_ep_server_register_end_point_impl "u" 1 0 5)
             (Fixture.server Fixture.requests) with
  | inr s => s
  | inl _ => Fixture.server Fixture.requests
  end.

(** [Fixture.idle] with one more request that carries the session
    cookie. *)
Definition idle_with_two : State :=
  with_messages
    (<[20%nat := Fixture.request GET "/u" None Fixture.the_cookie]>
       (messages Fixture.idle)) Fixture.idle.

(** A PUT that carries the session cookie, as request 21 beside the
    first PUT and beside the GET that is being served. *)
Definition put_with_cookie : SoupMessage :=
  Fixture.request (OTHER "PUT") "/u" None Fixture.the_cookie.

Definition after_put_with_put : State :=
  with_messages (<[21%nat := put_with_cookie]> (messages Fixture.after_put))
    Fixture.after_put.

Definition serving_with_put : State :=
  with_messages (<[21%nat := put_with_cookie]> (messages Fixture.serving))
    Fixture.serving.

(** [Fixture.idle] after a POST with Content-Type multipart/ and no
    boundary, which carries the session cookie. *)
Definition after_bare_multipart : State :=
  match exec (got_headers_handler 1012 0 18) Fixture.idle with
  | inr s => s
  | inl _ => Fixture.idle
  end.

(** The private data of the server of [Fixture.registered] once it was
    started, and that server after [kms_http_ep_server_stop_impl]:
    url-removed was emitted for its path and the table is dropped. *)
Definition registered_priv : KmsHttpEPServerPrivate :=
  {| priv_handlers := handlers Fixture.registered;
     priv_server := Some (soup_server_run_async soup_server);
     priv_announcedAddr := Some (announcedAddr Fixture.registered);
     priv_iface := None; priv_port := 0 |}.

Definition stopped : State :=
  with_emitted (emitted Fixture.registered ++ [URL_REMOVED "/u"])
    (with_handlers None Fixture.registered).

(** ... and after the element was registered again under "/u". *)
Definition registered_after_stop : State :=
  match exec (kms_http_ep_server_register_end_point_impl "u" 1 3600 5) stopped with
  | inr s => s
  | inl _ => stopped
  end.

(** [Fixture.idle] after the path was unregistered and the element
    registered again under another one. *)
Definition registered_again : State :=
  match exec (run_events [EvUnregister "/u"; EvRegister "w" 1 60 5]) Fixture.idle with
  | inr s => s
  | inl _ => Fixture.idle
  end.

End Scenario.

(** * Reasoning about computations *)

Lemma bind_inr {A B} (c : M A) (k : A → M B) s a s1 :
  c s = inr (a, s1) → (c ≫= k) s = k a s1.
Proof. intros H. unfold mbind, M_bind. by rewrite H. Qed.

Lemma bind_inv {A B} (c : M A) (k : A → M B) s b s' :
  (c ≫= k) s = inr (b, s') → ∃ a s1, c s = inr (a, s1) ∧ k a s1 = inr (b, s').
Proof.
  unfold mbind, M_bind. destruct (c s) as [e | [a s1]]; [discriminate |].
  intros H. by exists a, s1.
Qed.

Lemma get_msg_inv p s m s' : get_msg p s = inr (m, s') → messages s !! p = Some m ∧ s' = s.
Proof.
  unfold get_msg. destruct (messages s !! p); [|discriminate].
  intros H. injection H as -> ->. done.
Qed.

Lemma get_msg_ok p s m : messages s !! p = Some m → get_msg p s = inr (m, s).
Proof. intros H. unfold get_msg. by rewrite H. Qed.

Lemma get_el_ok p s e : elements s !! p = Some e → get_el p s = inr (e, s).
Proof. intros H. unfold get_el. by rewrite H. Qed.

Lemma upd_msg_ok p g s m :
  messages s !! p = Some m →
  upd_msg p g s = inr (tt, with_messages (<[p := g m]> (messages s)) s).
Proof. intros H. unfold upd_msg. by rewrite (bind_inr _ _ _ _ _ (get_msg_ok _ _ _ H)). Qed.

Lemma upd_el_ok p g s e :
  elements s !! p = Some e →
  upd_el p g s = inr (tt, with_elements (<[p := g e]> (elements s)) s).
Proof. intros H. unfold upd_el. by rewrite (bind_inr _ _ _ _ _ (get_el_ok _ _ _ H)). Qed.

Lemma upd_msg_inv p g s a s' :
  upd_msg p g s = inr (a, s') →
  ∃ m, messages s !! p = Some m ∧ s' = with_messages (<[p := g m]> (messages s)) s.
Proof.
  unfold upd_msg. intros H. apply bind_inv in H as (m & s1 & H1 & H2).
  apply get_msg_inv in H1 as [H1 ->]. injection H2 as <-. eauto.
Qed.

Section Keeps.
Context {B : Type} (f : State → B).

Lemma keeps_ret {A} (a : A) : keeps f (mret a).
Proof. intros s a' s' H. injection H as _ <-. done. Qed.

Lemma keeps_crashed {A} (c : crash) : keeps f (@crashed A c).
Proof. intros s a s' H. discriminate. Qed.

Lemma keeps_bind {A C} (c : M A) (k : A → M C) :
  keeps f c → (∀ a, keeps f (k a)) → keeps f (c ≫= k).
Proof.
  intros Hc Hk s b s' H. apply bind_inv in H as (a & s1 & H1 & H2).
  rewrite (Hk _ _ _ _ H2). eauto.
Qed.

Lemma keeps_get_state : keeps f get_state.
Proof. intros s a s' H. injection H as _ <-. done. Qed.

Lemma keeps_get_msg p : keeps f (get_msg p).
Proof. intros s a s' H. apply get_msg_inv in H as [_ ->]. done. Qed.

Lemma keeps_get_el p : keeps f (get_el p).
Proof.
  intros s a s' H. unfold get_el in H.
  destruct (elements s !! p); [|discriminate]. injection H as _ <-. done.
Qed.

Lemma keeps_modify g : (∀ s, f (g s) = f s) → keeps f (modify g).
Proof. intros Hg s a s' H. injection H as _ <-. apply Hg. Qed.
End Keeps.

(** The request part of a message is never written. *)
Lemma keeps_request_upd_msg q p g :
  (∀ m, request_view (g m) = request_view m) → keeps (request_of q) (upd_msg p g).
Proof.
  intros Hg s a s' H. apply upd_msg_inv in H as (m & Hm & ->).
  unfold request_of. cbn. destruct (decide (p = q)) as [-> | Hne].
  - rewrite lookup_insert_eq, Hm. cbn. by rewrite Hg.
  - by rewrite lookup_insert_ne.
Qed.

(** Connecting, disconnecting and starting leave the data table of an
    element alone. *)
Lemma keeps_data_upd_el q p g :
  (∀ e, el_data (g e) = el_data e) → keeps (data_of q) (upd_el p g).
Proof.
  intros Hg s a s' H. unfold upd_el in H.
  apply bind_inv in H as (e & s1 & He & H). unfold get_el in He.
  destruct (elements s !! p) as [e'|] eqn:Hp; [| discriminate].
  injection He as <- <-. injection H as _ <-.
  unfold data_of. cbn [elements with_elements].
  destruct (decide (p = q)) as [-> | Hne].
  - rewrite (lookup_insert_eq (elements s)), Hp. cbn. by rewrite Hg.
  - by rewrite lookup_insert_ne.
Qed.

Ltac keeps_step :=
  match goal with
  | H : keeps ?f ?c |- keeps ?f ?c => exact H
  | |- keeps _ (mret _) => apply keeps_ret
  | |- keeps _ (crashed _) => apply keeps_crashed
  | |- keeps _ get_state => apply keeps_get_state
  | |- keeps _ (get_msg _) => apply keeps_get_msg
  | |- keeps _ (get_el _) => apply keeps_get_el
  | |- keeps (request_of _) (upd_msg _ _) =>
      apply keeps_request_upd_msg; intros; reflexivity
  | |- keeps _ (upd_msg _ _) => unfold upd_msg
  | |- keeps (data_of _) (upd_el _ _) =>
      apply keeps_data_upd_el; intros; reflexivity
  | |- keeps _ (upd_el _ _) => unfold upd_el
  | |- keeps _ (modify _) => apply keeps_modify; intros; reflexivity
  | |- keeps _ (_ ≫= _) => apply keeps_bind; [| intros ?]
  | |- keeps _ (match ?x with _ => _ end) => destruct x
  | |- keeps _ (let '(_, _) := ?x in _) => destruct x
  end.

(** Unfold the functions of the source down to the primitives. *)
Ltac unfold_source :=
  unfold got_headers_handler, kms_http_ep_server_manage_cookie_session,
    kms_http_ep_server_set_cookie, set_message_binding, destroy_pending_message,
    kms_http_ep_server_get_handler, kms_http_ep_server_post_handler,
    kms_http_ep_server_get_ep_from_msg, disconnect_eos_new_sample_signals,
    kms_http_ep_server_unregister_end_point_impl, emit_removed_url_signal,
    kms_http_ep_server_register_end_point_impl, kms_http_ep_server_register_handler,
    add_guint_param, finished_get_processing, finished_post_processing,
    emit_expiration_signal, emit_expiration_signal_cb, timeout_dispatch,
    g_timeout_add_full, steal_message, got_chunk_handler, copy_bytes,
    send_buffer_cb, get_recv_eos, msg_finished, msg_has_finished,
    msg_add_finished_property, remove_cookie_timeout, g_source_remove,
    soup_message_set_status, set_start, g_signal_connect_msg, g_signal_connect_el,
    g_signal_handler_disconnect_msg, g_signal_handler_disconnect_el,
    fresh_handler_id, g_signal_emit_on, g_signal_emit,
    msg_get_data, msg_set_data, el_get_data, el_set_data, el_unset_data,
    deref_ulong, deref_uint, deref_bool, deref_server.

Ltac frame := repeat first [ keeps_step | progress unfold_source ].

(** Running the source on a known state. *)

(** Reduce the projections of updated records, and nothing else. *)
Ltac proj_simpl :=
  cbn [handlers elements messages sources next_handler_id next_source_id emitted
       announcedAddr with_handlers with_elements with_messages with_sources
       with_next_handler_id with_next_source_id with_emitted
       method uri_path request_content_type request_cookies status_code
       response_headers response_chunked response_body response_complete
       request_accumulate paused msg_data msg_connections
       with_status with_response_headers with_response_chunked with_response_body
       with_response_complete with_request_accumulate with_paused with_msg_data
       with_msg_connections
       is_httpendpoint el_data el_start el_connections el_pushed el_eos
       with_el_data with_el_start with_el_connections with_el_pushed with_el_eos
       negb fst snd] in *.

(** Unfold a computation down to matches on the state. *)
Ltac munfold :=
  repeat progress unfold_source;
  unfold upd_msg, upd_el, mbind, M_bind, mret, M_ret, crashed, get_state, modify,
    get_msg, get_el;
  proj_simpl.

(** The table of handlers. *)

Lemma table_lookup_present (t : GHashTable) p v :
  t !! p = Some v → table_is_null t = false.
Proof. by destruct t. Qed.

Lemma table_lookup_null (t : GHashTable) p :
  table_is_null t = true → t !! p = None.
Proof. by destruct t. Qed.

Lemma table_lookup_insert_eq (t : GHashTable) p v :
  table_is_null t = false → <[p := v]> t !! p = Some v.
Proof. destruct t as [t|]; [intros _ | done]. apply (lookup_insert_eq t). Qed.

Lemma table_lookup_insert_ne (t : GHashTable) p q v :
  p ≠ q → <[p := v]> t !! q = t !! q.
Proof. intros Hne. destruct t as [t|]; [| done]. by apply (lookup_insert_ne t). Qed.

Lemma table_lookup_delete_eq (t : GHashTable) p : delete p t !! p = None.
Proof. destruct t as [t|]; [| done]. apply (lookup_delete_eq t). Qed.

Lemma table_lookup_delete_ne (t : GHashTable) p q :
  p ≠ q → delete p t !! q = t !! q.
Proof. intros Hne. destruct t as [t|]; [| done]. by apply (lookup_delete_ne t). Qed.

Lemma table_insert_null (t : GHashTable) p v :
  table_is_null t = true → <[p := v]> t = t.
Proof. by destruct t. Qed.

Lemma table_is_null_insert (t : GHashTable) p v :
  table_is_null (<[p := v]> t) = table_is_null t.
Proof. by destruct t. Qed.

Lemma table_is_null_delete (t : GHashTable) p :
  table_is_null (delete p t) = table_is_null t.
Proof. by destruct t. Qed.

(** The test of the table against NULL in
    [kms_http_ep_server_unregister_end_point_impl] answers what the
    lookup that follows would answer. *)
Lemma unregister_end_point_eq uri s :
  kms_http_ep_server_unregister_end_point_impl uri s
  = (s ← get_state;
     match handlers s !! uri with
     | None => mret false
     | Some httpep =>
         remove_cookie_timeout httpep;;
         set_message_binding httpep None;;
         modify (fun s => with_handlers (delete uri (handlers s)) s);;
         emit_removed_url_signal uri;;
         mret true
     end) s.
Proof.
  unfold kms_http_ep_server_unregister_end_point_impl.
  rewrite !(bind_inr _ _ s s s eq_refl).
  destruct (handlers s) as [t|]; reflexivity.
Qed.

(** Run an unfolded computation with the lookups known in the context. *)
Ltac mrun :=
  repeat first
    [ progress proj_simpl
    | match goal with
      | H : ?t !! _ = Some _ |- context [table_is_null ?t] =>
          rewrite (table_lookup_present _ _ _ H)
      end
    | match goal with H : ?l = _ |- context [?l] => rewrite H end ].

Lemma keeps_handlers_dispatch now rnd msg : keeps handlers (got_headers_handler now rnd msg).
Proof. frame. Qed.

(** * The registry *)

Lemma keeps_handlers_run_finished now msg cs : keeps handlers (run_finished now msg cs).
Proof. induction cs as [|c cs IH]; cbn [run_finished]; frame. Qed.

Lemma keeps_handlers_run_got_chunk msg chunk cs : keeps handlers (run_got_chunk msg chunk cs).
Proof. induction cs as [|c cs IH]; cbn [run_got_chunk]; frame. Qed.

Lemma keeps_handlers_run_eos cs : keeps handlers (run_eos cs).
Proof. induction cs as [|c cs IH]; cbn [run_eos]; frame. Qed.

(** A registered path stays registered, to the same element, through
    every event except its own removal. *)
Lemma registered_stable p e ev s s' :
  unregisters p ev = false →
  handlers s !! p = Some e →
  run_event ev s = inr (tt, s') →
  handlers s' !! p = Some e.
Proof.
  intros Hev Hp Hrun. destruct ev; cbn [run_event unregisters] in *.
  - (* register *)
    revert Hrun. unfold kms_http_ep_server_register_end_point_impl,
      kms_http_ep_server_register_handler, add_guint_param, el_set_data.
    intros Hrun. apply bind_inv in Hrun as (r & s1 & Hrun & Hret).
    injection Hret as <-. apply bind_inv in Hrun as (el & s0 & Hel & Hrun).
    apply keeps_get_el with (f := id) in Hel. cbn in Hel. subst s0.
    destruct (is_httpendpoint el); cbn [negb] in Hrun; [| by injection Hrun as _ <-].
    apply bind_inv in Hrun as (b & s2 & Hreg & Hrun).
    apply bind_inv in Hreg as (s0 & s0' & Hget & Hreg).
    injection Hget as <- <-.
    destruct (handlers s !! ("/" +:+ uuid_str)) as [el'|] eqn:Hurl.
    + injection Hreg as <- <-. cbn [negb] in Hrun. by injection Hrun as _ <-.
    + apply bind_inv in Hreg as ([] & s3 & Hmod & Hret). injection Hmod as <-.
      injection Hret as <- <-. cbn [negb] in Hrun.
      assert (Hk : keeps handlers
        (upd_el endpoint (λ e0, with_el_data (<[KEY_PARAM_LIFETIME:=QUint lifetime]> (el_data e0)) e0);;
         upd_el endpoint (λ e0, with_el_data (<[KEY_PARAM_TIMEOUT:=QUint timeout]> (el_data e0)) e0);;
         mret (Some ("/" +:+ uuid_str)))) by frame.
      rewrite (Hk _ _ _ Hrun). cbn [handlers with_handlers].
      rewrite table_lookup_insert_ne; [done | congruence].
  - (* unregister another path *)
    apply bind_inv in Hrun as (r & s1 & Hrun & Hret). injection Hret as <-.
    revert Hrun. rewrite unregister_end_point_eq.
    intros Hrun. apply bind_inv in Hrun as (s0 & s0' & Hget & Hrun).
    injection Hget as <- <-.
    destruct (handlers s !! uri) as [ep|]; [| by injection Hrun as _ <-].
    apply bind_inv in Hrun as ([] & s2 & H1 & Hrun).
    apply bind_inv in Hrun as ([] & s3 & H2 & Hrun).
    apply bind_inv in Hrun as ([] & s4 & H3 & Hrun).
    apply bind_inv in Hrun as ([] & s5 & H4 & Hrun).
    injection Hrun as _ <-. injection H4 as <-. injection H3 as <-.
    cbn [handlers with_handlers with_emitted].
    assert (Hk : keeps handlers (set_message_binding ep None)) by frame.
    assert (Hk' : keeps handlers (remove_cookie_timeout ep)) by frame.
    rewrite (Hk _ _ _ H2), (Hk' _ _ _ H1).
    rewrite table_lookup_delete_ne; [done |].
    intros ->. by rewrite bool_decide_eq_true_2 in Hev.
  - by rewrite (keeps_handlers_dispatch _ _ _ _ _ _ Hrun).
  - apply bind_inv in Hrun as (m & s1 & Hm & Hrun).
    apply get_msg_inv in Hm as [_ ->].
    by rewrite (keeps_handlers_run_got_chunk _ _ _ _ _ _ Hrun).
  - apply bind_inv in Hrun as (m & s1 & Hm & Hrun).
    apply get_msg_inv in Hm as [_ ->].
    by rewrite (keeps_handlers_run_finished _ _ _ _ _ _ Hrun).
  - apply bind_inv in Hrun as (m & s1 & Hm & Hrun).
    apply keeps_get_el with (f := id) in Hm. cbn in Hm. subst s1.
    by rewrite (keeps_handlers_run_eos _ _ _ _ Hrun).
  - assert (Hk : keeps handlers (timeout_dispatch id)) by frame.
    by rewrite (Hk _ _ _ Hrun).
  - assert (Hk : keeps handlers (send_buffer_cb sdata)) by frame.
    by rewrite (Hk _ _ _ Hrun).
Qed.

Lemma registered_stable_events p e evs s s' :
  existsb (unregisters p) evs = false →
  handlers s !! p = Some e →
  run_events evs s = inr (tt, s') →
  handlers s' !! p = Some e.
Proof.
  revert s. induction evs as [|ev evs IH]; intros s Hevs Hp Hrun.
  - injection Hrun as <-. done.
  - cbn [existsb] in Hevs. apply orb_false_elim in Hevs as [Hev Hevs].
    cbn [run_events] in Hrun. apply bind_inv in Hrun as ([] & s1 & H1 & Hrun).
    eapply IH; [done | | done]. eapply registered_stable; eauto.
Qed.

Lemma register_handler_taken p e e2 s :
  handlers s !! p = Some e →
  kms_http_ep_server_register_handler p e2 s = inr (false, s).
Proof.
  intros Hp. unfold kms_http_ep_server_register_handler.
  rewrite (bind_inr _ _ s s s eq_refl). by rewrite Hp.
Qed.

Lemma register_handler_inv p e s b s' :
  kms_http_ep_server_register_handler p e s = inr (b, s') →
  (b = true ∧ handlers s !! p = None ∧ s' = with_handlers (<[p := e]> (handlers s)) s) ∨
  (b = false ∧ is_Some (handlers s !! p) ∧ s' = s).
Proof.
  unfold kms_http_ep_server_register_handler.
  rewrite (bind_inr _ _ s s s eq_refl).
  destruct (handlers s !! p) as [el|] eqn:Hp.
  - intros H. injection H as <- <-. right. eauto.
  - intros H. injection H as <- <-. left. eauto.
Qed.

(** While the table exists, registration is exclusive: once
    [register (p, e)] has succeeded, then through every sequence of
    events that does not unregister [p], a lookup of [p] answers [e], a
    further registration of [p] reports the collision and changes
    nothing, and the public entry point returns no URL for it; once
    [unregister (p)] has removed the entry the path is free and can be
    registered again. *)
Lemma registration_exclusive_on_table (p : string) (e : nat) (s s1 : State)
    (evs : list event) (s2 : State) :
  table_is_null (handlers s) = false →
  kms_http_ep_server_register_handler p e s = inr (true, s1) →
  existsb (unregisters p) evs = false →
  run_events evs s1 = inr (tt, s2) →
  handlers s2 !! p = Some e ∧
  (∀ e2, kms_http_ep_server_register_handler p e2 s2 = inr (false, s2)) ∧
  (∀ uuid_str e2 lifetime timeout,
     "/" +:+ uuid_str = p → is_Some (elements s2 !! e2) →
     kms_http_ep_server_register_end_point_impl uuid_str e2 lifetime timeout s2
       = inr (None, s2)) ∧
  (∀ s3, kms_http_ep_server_unregister_end_point_impl p s2 = inr (true, s3) →
     handlers s3 !! p = None ∧
     ∀ e2, ∃ s4, kms_http_ep_server_register_handler p e2 s3 = inr (true, s4) ∧
                 handlers s4 !! p = Some e2).
Proof.
  intros Htable Hreg Hevs Hrun.
  apply register_handler_inv in Hreg as [(_ & Hfree & ->) | (? & _)]; [| done].
  assert (Hp : handlers s2 !! p = Some e).
  { eapply registered_stable_events; [done | | done]. cbn [handlers with_handlers].
    by apply table_lookup_insert_eq. }
  split; [done |]. split; [| split].
  - intros e2. by eapply register_handler_taken.
  - intros uuid_str e2 lifetime timeout Hurl [el Hel].
    unfold kms_http_ep_server_register_end_point_impl.
    rewrite (bind_inr _ _ _ _ _ (get_el_ok _ _ _ Hel)).
    destruct (is_httpendpoint el); cbn [negb]; [| done].
    rewrite Hurl. by rewrite (bind_inr _ _ _ _ _ (register_handler_taken _ _ e2 _ Hp)).
  - intros s3 Hunreg.
    assert (Hgone : handlers s3 !! p = None ∧ table_is_null (handlers s3) = false).
    { revert Hunreg. rewrite unregister_end_point_eq.
      rewrite (bind_inr _ _ s2 s2 s2 eq_refl). rewrite Hp. intros Hrun'.
      apply bind_inv in Hrun' as ([] & s4 & H1 & Hrun').
      apply bind_inv in Hrun' as ([] & s5 & H2 & Hrun').
      apply bind_inv in Hrun' as ([] & s6 & H3 & Hrun').
      apply bind_inv in Hrun' as ([] & s7 & H4 & Hrun').
      injection Hrun' as <-. injection H4 as <-. injection H3 as <-.
      cbn [handlers with_handlers with_emitted].
      split; [apply table_lookup_delete_eq |].
      rewrite table_is_null_delete.
      assert (Hk : keeps handlers (set_message_binding e None)) by frame.
      assert (Hk' : keeps handlers (remove_cookie_timeout e)) by frame.
      rewrite (Hk _ _ _ H2), (Hk' _ _ _ H1).
      apply (table_lookup_present _ _ _ Hp). }
    destruct Hgone as [Hgone Hnull].
    split; [done |]. intros e2. eexists.
    unfold kms_http_ep_server_register_handler.
    rewrite (bind_inr _ _ s3 s3 s3 eq_refl). rewrite Hgone.
    split; [reflexivity |]. cbn [handlers with_handlers].
    by apply table_lookup_insert_eq.
Qed.

(** C6 fails on the code once the table of handlers is dropped.  After
    [kms_http_ep_server_stop_impl] the table is NULL.
    [kms_http_ep_server_register_handler] does not test it: on a null
    table it answers TRUE for every path and stores nothing.  So after
    the stop a registration of "/u" succeeds and hands out the URL, a
    further registration of the same path succeeds as well, a lookup of
    the path finds no element, and a request to the URL is answered
    404.  [kms_http_ep_server_unregister_end_point_impl] does test the
    table and answers FALSE. *)
Theorem register_on_dropped_table_stores_nothing :
  (∀ s p e, table_is_null (handlers s) = true →
     kms_http_ep_server_register_handler p e s = inr (true, s)) ∧
  kms_http_ep_server_stop_impl Scenario.registered_priv
    = Some (with_priv_server
              (Some (soup_server_quit (soup_server_run_async Scenario.soup_server)))
              (with_priv_handlers (handlers Scenario.stopped) Scenario.registered_priv),
            [URL_REMOVED "/u"]) ∧
  handlers Scenario.stopped = None ∧
  kms_http_ep_server_register_end_point_impl "u" 1 3600 5 Scenario.stopped
    = inr (Some "/u", Scenario.registered_after_stop) ∧
  kms_http_ep_server_register_end_point_impl "u" 1 60 5 Scenario.registered_after_stop
    = inr (Some "/u", Scenario.stopped) ∧
  kms_http_ep_server_register_handler "/u" 2 Scenario.registered_after_stop
    = inr (true, Scenario.registered_after_stop) ∧
  handlers Scenario.registered_after_stop !! "/u" = None ∧
  got_headers_handler 1000 42 10 Scenario.registered_after_stop
    = inr (tt, with_messages
                 (<[10%nat := with_status SOUP_STATUS_NOT_FOUND
                                (Fixture.request GET "/u" None [])]>
                    (messages Scenario.registered_after_stop))
                 Scenario.registered_after_stop) ∧
  kms_http_ep_server_unregister_end_point_impl "/u" Scenario.registered_after_stop
    = inr (false, Scenario.registered_after_stop).
Proof.
  split.
  { intros s p e Hnull. unfold kms_http_ep_server_register_handler.
    rewrite (bind_inr _ _ s s s eq_refl).
    rewrite (table_lookup_null _ _ Hnull).
    unfold modify, mbind, M_bind, mret, M_ret.
    rewrite (table_insert_null _ _ _ Hnull). by destruct s. }
  split; [vm_compute; reflexivity |]. split; [reflexivity |].
  split; [vm_compute; reflexivity |]. split; [vm_compute; reflexivity |].
  split; [vm_compute; reflexivity |]. split; [reflexivity |].
  split; vm_compute; reflexivity.
Qed.

(** * Registered elements keep their parameters *)

Lemma keeps_params_upd_el q p g :
  (∀ e, el_data (g e) !! KEY_PARAM_LIFETIME = el_data e !! KEY_PARAM_LIFETIME ∧
        el_data (g e) !! KEY_PARAM_TIMEOUT = el_data e !! KEY_PARAM_TIMEOUT) →
  keeps (params_of q) (upd_el p g).
Proof.
  intros Hg s a s' H. unfold upd_el in H.
  apply bind_inv in H as (e & s1 & He & H). unfold get_el in He.
  destruct (elements s !! p) as [e'|] eqn:Hp; [| discriminate].
  injection He as <- <-. injection H as _ <-.
  unfold params_of, data_of. cbn [elements with_elements].
  destruct (decide (p = q)) as [-> | Hne].
  - rewrite (lookup_insert_eq (elements s)), Hp. cbn.
    destruct (Hg e') as [-> ->]. done.
  - by rewrite lookup_insert_ne.
Qed.

Ltac params_step :=
  match goal with
  | |- keeps (params_of _) (upd_el _ _) =>
      apply keeps_params_upd_el; intros; proj_simpl;
      rewrite ?lookup_insert_ne, ?lookup_delete_ne by done; done
  end.

Ltac frame_params := repeat first [ params_step | keeps_step | progress unfold_source ].

Lemma keeps_params_run_finished q now msg cs : keeps (params_of q) (run_finished now msg cs).
Proof. induction cs as [|c cs IH]; cbn [run_finished]; frame_params. Qed.

Lemma keeps_params_run_got_chunk q msg chunk cs :
  keeps (params_of q) (run_got_chunk msg chunk cs).
Proof. induction cs as [|c cs IH]; cbn [run_got_chunk]; frame_params. Qed.

Lemma keeps_params_run_eos q cs : keeps (params_of q) (run_eos cs).
Proof. induction cs as [|c cs IH]; cbn [run_eos]; frame_params. Qed.

Lemma keeps_params_event q ev :
  (∀ uuid_str endpoint lifetime timeout, ev ≠ EvRegister uuid_str endpoint lifetime timeout) →
  keeps (params_of q) (run_event ev).
Proof.
  intros Hev. destruct ev; cbn [run_event].
  - by destruct (Hev uuid_str endpoint lifetime timeout).
  - frame_params.
  - frame_params.
  - apply keeps_bind; [apply keeps_get_msg | intros; apply keeps_params_run_got_chunk].
  - apply keeps_bind; [apply keeps_get_msg | intros; apply keeps_params_run_finished].
  - apply keeps_bind; [apply keeps_get_el | intros; apply keeps_params_run_eos].
  - frame_params.
  - frame_params.
Qed.

Lemma keeps_handlers_event ev :
  (∀ uuid_str endpoint lifetime timeout, ev ≠ EvRegister uuid_str endpoint lifetime timeout) →
  ∀ s s' p httpep,
    run_event ev s = inr (tt, s') → handlers s' !! p = Some httpep →
    handlers s !! p = Some httpep.
Proof.
  intros Hev s s' p httpep Hrun Hp.
  destruct (decide (unregisters p ev = true)) as [Hun | Hun].
  - destruct ev; try discriminate Hun. cbn in Hun. apply bool_decide_eq_true in Hun.
    subst uri. cbn [run_event] in Hrun.
    apply bind_inv in Hrun as (r & s1 & Hrun & Hret). injection Hret as <-.
    revert Hrun. rewrite unregister_end_point_eq.
    rewrite (bind_inr _ _ s s s eq_refl).
    destruct (handlers s !! p) as [ep|] eqn:Hsp.
    + intros Hrun.
      apply bind_inv in Hrun as ([] & s2 & H1 & Hrun).
      apply bind_inv in Hrun as ([] & s3 & H2 & Hrun).
      apply bind_inv in Hrun as ([] & s4 & H3 & Hrun).
      apply bind_inv in Hrun as ([] & s5 & H4 & Hrun).
      injection Hrun as _ <-. injection H4 as <-. injection H3 as <-.
      revert Hp. cbn [handlers with_handlers with_emitted].
      by rewrite table_lookup_delete_eq.
    + intros Hrun. injection Hrun as _ <-. congruence.
  - apply not_true_is_false in Hun.
    destruct (handlers s !! p) as [ep|] eqn:Hsp.
    + rewrite (registered_stable _ _ _ _ _ Hun Hsp Hrun) in Hp. done.
    + exfalso. destruct ev; cbn [run_event unregisters] in *.
      * by destruct (Hev uuid_str endpoint lifetime timeout).
      * apply bind_inv in Hrun as (r & s1 & Hrun & Hret). injection Hret as <-.
        revert Hrun. rewrite unregister_end_point_eq.
        rewrite (bind_inr _ _ s s s eq_refl).
        destruct (handlers s !! uri) as [ep|].
        -- intros Hrun.
           apply bind_inv in Hrun as ([] & s2 & H1 & Hrun).
           apply bind_inv in Hrun as ([] & s3 & H2 & Hrun).
           apply bind_inv in Hrun as ([] & s4 & H3 & Hrun).
           apply bind_inv in Hrun as ([] & s5 & H4 & Hrun).
           injection Hrun as _ <-. injection H4 as <-. injection H3 as <-.
           assert (Hk : keeps handlers (set_message_binding ep None)) by frame.
           assert (Hk' : keeps handlers (remove_cookie_timeout ep)) by frame.
           revert Hp. cbn [handlers with_handlers with_emitted].
           rewrite (Hk _ _ _ H2), (Hk' _ _ _ H1).
           destruct (decide (uri = p)) as [-> | Hne].
           ++ by rewrite table_lookup_delete_eq.
           ++ rewrite table_lookup_delete_ne by done. congruence.
        -- intros Hrun. injection Hrun as _ <-. congruence.
      * rewrite (keeps_handlers_dispatch _ _ _ _ _ _ Hrun) in Hp. congruence.
      * apply bind_inv in Hrun as (m & s1 & Hm & Hrun).
        apply get_msg_inv in Hm as [_ ->].
        rewrite (keeps_handlers_run_got_chunk _ _ _ _ _ _ Hrun) in Hp. congruence.
      * apply bind_inv in Hrun as (m & s1 & Hm & Hrun).
        apply get_msg_inv in Hm as [_ ->].
        rewrite (keeps_handlers_run_finished _ _ _ _ _ _ Hrun) in Hp. congruence.
      * apply bind_inv in Hrun as (m & s1 & Hm & Hrun).
        apply keeps_get_el with (f := id) in Hm. cbn in Hm. subst s1.
        rewrite (keeps_handlers_run_eos _ _ _ _ Hrun) in Hp. congruence.
      * assert (Hk : keeps handlers (timeout_dispatch id)) by frame.
        rewrite (Hk _ _ _ Hrun) in Hp. congruence.
      * assert (Hk : keeps handlers (send_buffer_cb sdata)) by frame.
        rewrite (Hk _ _ _ Hrun) in Hp. congruence.
Qed.

Lemma registry_ok_register uuid_str endpoint lifetime timeout s r s' :
  registry_ok s →
  kms_http_ep_server_register_end_point_impl uuid_str endpoint lifetime timeout s
    = inr (r, s') →
  registry_ok s'.
Proof.
  intros Hok. munfold.
  destruct (elements s !! endpoint) as [e|] eqn:He; [| discriminate]. proj_simpl.
  destruct (is_httpendpoint e); proj_simpl; [| by intros H; injection H as _ <-].
  destruct (handlers s !! ("/" +:+ uuid_str)) as [el|] eqn:Hurl; proj_simpl;
    [by intros H; injection H as _ <- |].
  rewrite He. proj_simpl. rewrite (lookup_insert_eq (elements s)). proj_simpl.
  intros H. injection H as _ <-.
  assert (Hnew : has_params endpoint
    (with_elements
       (<[endpoint := with_el_data
            (<[KEY_PARAM_TIMEOUT := QUint timeout]>
               (<[KEY_PARAM_LIFETIME := QUint lifetime]> (el_data e))) e]>
          (<[endpoint := with_el_data
               (<[KEY_PARAM_LIFETIME := QUint lifetime]> (el_data e)) e]> (elements s)))
       (with_elements
          (<[endpoint := with_el_data
               (<[KEY_PARAM_LIFETIME := QUint lifetime]> (el_data e)) e]> (elements s))
          (with_handlers (<[("/" +:+ uuid_str) := endpoint]> (handlers s)) s)))).
  { exists lifetime, timeout. unfold params_of, data_of. proj_simpl.
    rewrite lookup_insert_eq. cbn [fmap option_fmap option_map]. proj_simpl.
    rewrite lookup_insert_eq. rewrite lookup_insert_ne by done.
    by rewrite lookup_insert_eq. }
  intros p ep Hp. proj_simpl.
  destruct (decide (ep = endpoint)) as [-> | Hne]; [exact Hnew |].
  assert (Hold : handlers s !! p = Some ep).
  { revert Hp. proj_simpl. destruct (decide ("/" +:+ uuid_str = p)) as [<- | Hp'].
    - destruct (table_is_null (handlers s)) eqn:Hnull.
      + by rewrite table_insert_null.
      + rewrite table_lookup_insert_eq by done. congruence.
    - by rewrite table_lookup_insert_ne. }
  destruct (Hok p ep Hold) as (l & t & Hpar). exists l, t.
  revert Hpar. unfold params_of, data_of. proj_simpl.
  by rewrite !lookup_insert_ne.
Qed.

(** The invariant of the registry: it holds of a server without
    registrations and every event keeps it. *)
Lemma registry_ok_event ev s s' :
  registry_ok s → run_event ev s = inr (tt, s') → registry_ok s'.
Proof.
  intros Hok Hrun.
  assert (Hcases : (∃ u e l t, ev = EvRegister u e l t) ∨
                   (∀ u e l t, ev ≠ EvRegister u e l t)).
  { destruct ev; try (right; intros; discriminate). left. eauto. }
  destruct Hcases as [(u & e & l & t & ->) | Hev].
  - cbn [run_event] in Hrun. apply bind_inv in Hrun as (r & s1 & Hrun & Hret).
    injection Hret as <-. by eapply registry_ok_register.
  - intros p ep Hp.
    pose proof (keeps_handlers_event ev Hev _ _ _ _ Hrun Hp) as Hold.
    destruct (Hok p ep Hold) as (l & t & Hpar). exists l, t.
    by rewrite (keeps_params_event ep ev Hev _ _ _ Hrun).
Qed.

Lemma registry_ok_events evs s s' :
  registry_ok s → run_events evs s = inr (tt, s') → registry_ok s'.
Proof.
  revert s. induction evs as [|ev evs IH]; intros s Hok Hrun.
  - by injection Hrun as <-.
  - cbn [run_events] in Hrun. apply bind_inv in Hrun as ([] & s1 & H1 & Hrun).
    eapply IH; [| exact Hrun]. by eapply registry_ok_event.
Qed.

Lemma registry_ok_initial s : handlers s = Some ∅ → registry_ok s.
Proof.
  intros H p ep. rewrite H.
  change (Some ∅ !! p) with ((∅ : gmap string nat) !! p). by rewrite lookup_empty.
Qed.


(** * Write tasks *)

Lemma send_buffer_cb_finished sdata s m :
  messages s !! sd_msg sdata = Some m →
  msg_data m !! KEY_FINISHED = Some (QBool true) →
  send_buffer_cb sdata s = inr (tt, s).
Proof.
  intros Hm Hf. unfold send_buffer_cb, msg_has_finished, msg_get_data.
  rewrite (bind_inr _ _ s true s); [done |].
  rewrite (bind_inr _ _ s (msg_data m !! KEY_FINISHED) s).
  - by rewrite Hf.
  - by rewrite (bind_inr _ _ _ _ _ (get_msg_ok _ _ _ Hm)).
Qed.

Lemma send_buffer_cb_other sdata msg s a s' :
  sd_msg sdata ≠ msg →
  send_buffer_cb sdata s = inr (a, s') →
  messages s' !! msg = messages s !! msg.
Proof.
  intros Hne. unfold send_buffer_cb. intros H.
  apply bind_inv in H as (fin & s1 & Hfin & H).
  assert (Hk : keeps id (msg_has_finished (sd_msg sdata))) by frame.
  apply Hk in Hfin. cbn in Hfin. subst s1.
  destruct fin; [by injection H as _ <- |].
  destruct (sd_sample sdata) as [buffer|]; [| by injection H as _ <-].
  destruct (buffer_maps buffer); cbn [negb] in H; [| by injection H as _ <-].
  apply bind_inv in H as ([] & s1 & H1 & H2).
  apply upd_msg_inv in H1 as (m1 & _ & ->). apply upd_msg_inv in H2 as (m2 & _ & ->).
  cbn. by rewrite !lookup_insert_ne.
Qed.

(** C7. A write task looks at the finished flag of its message before it
    writes.  With the flag set the sample is dropped and the state is
    left as it was; with the flag clear and a sample whose buffer maps,
    the bytes are appended to the response body and the message is
    resumed.  So once the flag of a message is set, no sequence of write
    tasks, for this or any other message, changes its response body. *)
Theorem send_buffer_cb_checks_finished (sdata : sample_data) (s : State) (m : SoupMessage) :
  messages s !! sd_msg sdata = Some m →
  (msg_data m !! KEY_FINISHED = Some (QBool true) →
     send_buffer_cb sdata s = inr (tt, s)) ∧
  (msg_data m !! KEY_FINISHED = Some (QBool false) →
     ∀ buffer, sd_sample sdata = Some buffer → buffer_maps buffer = true →
     send_buffer_cb sdata s = inr (tt,
       with_messages
         (<[sd_msg sdata :=
              with_paused false
                (with_response_body (response_body m ++ buffer_bytes buffer) m)]>
            (messages s)) s)) ∧
  (msg_data m !! KEY_FINISHED = Some (QBool true) →
     ∀ tasks s', run_tasks tasks s = inr (tt, s') →
     messages s' !! sd_msg sdata = Some m).
Proof.
  intros Hm. split; [| split].
  - intros Hf. by eapply send_buffer_cb_finished.
  - intros Hf buffer Hb Hmap.
    unfold send_buffer_cb, msg_has_finished, msg_get_data.
    rewrite (bind_inr _ _ s false s).
    + rewrite Hb, Hmap. cbn [negb].
      rewrite (bind_inr _ _ _ _ _ (upd_msg_ok _ _ _ _ Hm)).
      erewrite upd_msg_ok; [| cbn; apply lookup_insert_eq].
      cbn. by rewrite insert_insert_eq.
    + rewrite (bind_inr _ _ s (msg_data m !! KEY_FINISHED) s).
      * by rewrite Hf.
      * by rewrite (bind_inr _ _ _ _ _ (get_msg_ok _ _ _ Hm)).
  - intros Hf tasks. revert s Hm.
    induction tasks as [|t tasks IH]; intros s Hm s' Hrun.
    + by injection Hrun as <-.
    + cbn [run_tasks] in Hrun. apply bind_inv in Hrun as ([] & s1 & H1 & Hrun).
      eapply IH; [| exact Hrun].
      destruct (decide (sd_msg t = sd_msg sdata)) as [Heq | Hne].
      * rewrite <- Heq in Hm. rewrite (send_buffer_cb_finished _ _ _ Hm Hf) in H1.
        injection H1 as <-. by rewrite <- Heq.
      * by rewrite (send_buffer_cb_other _ _ _ _ _ Hne H1).
Qed.

Lemma send_buffer_cb_checks_finished_witness :
  let sdata := {| sd_sample := Some {| buffer_maps := true; buffer_bytes := [1; 2; 3] |};
                  sd_msg := 10%nat |} in
  send_buffer_cb sdata Fixture.serving
    = inr (tt, with_messages
                 (<[10%nat :=
                      with_paused false
                        (with_response_body
                           (response_body Fixture.serving_request ++ [1; 2; 3])
                           Fixture.serving_request)]>
                    (messages Fixture.serving)) Fixture.serving) ∧
  send_buffer_cb sdata Fixture.idle = inr (tt, Fixture.idle).
Proof.
  intros sdata.
  assert (Hs : messages Fixture.serving !! sd_msg sdata = Some Fixture.serving_request)
    by (vm_compute; reflexivity).
  assert (Hi : messages Fixture.idle !! sd_msg sdata = Some Fixture.finished_request)
    by (vm_compute; reflexivity).
  destruct (send_buffer_cb_checks_finished sdata _ _ Hs) as (_ & Hw & _).
  destruct (send_buffer_cb_checks_finished sdata _ _ Hi) as (Hd & _ & _).
  split.
  - apply (Hw ltac:(vm_compute; reflexivity) _ eq_refl eq_refl).
  - apply Hd. vm_compute; reflexivity.
Defined.

Lemma cookie_loop_spec cookie cookies :
  cookie_loop cookie cookies = true ↔
  ∃ c, c ∈ cookies ∧ fst c = cookie_name cookie ∧ snd c = cookie_value cookie.
Proof.
  unfold GLib.g_strcmp0_eq. induction cookies as [|c cookies IH]; cbn [cookie_loop].
  - split; [discriminate |]. intros (c & Hc & _). by apply elem_of_nil in Hc.
  - unfold GLib.g_strcmp0_eq. destruct (decide (cookie_name cookie = fst c)) as [Hn | Hn].
    + rewrite (bool_decide_eq_true_2 _ Hn). cbn [negb].
      destruct (decide (cookie_value cookie = snd c)) as [Hv | Hv].
      * rewrite (bool_decide_eq_true_2 _ Hv). split; [| done].
        intros _. exists c. split; [apply list_elem_of_here | done].
      * rewrite (bool_decide_eq_false_2 _ Hv). rewrite IH. split.
        -- intros (c' & Hc' & H'). exists c'. split; [by apply list_elem_of_further | done].
        -- intros (c' & Hc' & Hn' & Hv'). exists c'. split; [| done].
           apply elem_of_cons in Hc' as [-> | Hc']; [congruence | done].
    + rewrite (bool_decide_eq_false_2 _ Hn). cbn [negb]. rewrite IH. split.
      * intros (c' & Hc' & H'). exists c'. split; [by apply list_elem_of_further | done].
      * intros (c' & Hc' & Hn' & Hv'). exists c'. split; [| done].
        apply elem_of_cons in Hc' as [-> | Hc']; [congruence | done].
Qed.

Lemma check_cookie_spec now cookie m :
  kms_http_ep_server_check_cookie now cookie m = true ↔
  presents cookie m ∧ cookie_has_expired now cookie = false.
Proof.
  unfold kms_http_ep_server_check_cookie, presents.
  destruct (cookie_has_expired now cookie).
  - split; [discriminate | intros [_ ?]; discriminate].
  - rewrite <- cookie_loop_spec.
    destruct (request_cookies m); cbn [cookie_loop]; split; intros; try done; tauto.
Qed.

(** * Sessions *)

(** C4. A request to a registered path whose element has no session yet
    gets a Set-Cookie header and is admitted.  When the element has a
    session, the request is admitted exactly when one of its cookies has
    the name and the value of the session cookie and that cookie has not
    expired; a request that is not admitted is answered 400, and nothing
    but the status of the message changes, so the session stays as it
    was. *)
Theorem cookie_session_policy (now rnd : Z) (msg ep : nat) (s : State)
    (m : SoupMessage) (e : GstElement) :
  messages s !! msg = Some m →
  handlers s !! uri_path m = Some ep →
  elements s !! ep = Some e →
  (el_data e !! KEY_COOKIE = None →
   ∀ lifetime, el_data e !! KEY_PARAM_LIFETIME = Some (QUint lifetime) →
   let cookie := soup_cookie_new now COOKIE_NAME (pretty rnd) (announcedAddr s)
                   (uri_path m) (to_gint lifetime) in
   ∃ s1 e1,
     kms_http_ep_server_manage_cookie_session now rnd ep msg (uri_path m) s
       = inr (true, s1) ∧
     response_headers <$> messages s1 !! msg
       = Some (response_headers m
                 ++ [("Set-Cookie", soup_cookie_to_set_cookie_header cookie)]) ∧
     elements s1 !! ep = Some e1 ∧
     el_data e1 !! KEY_COOKIE = Some (QCookie cookie)) ∧
  (∀ cookie, el_data e !! KEY_COOKIE = Some (QCookie cookie) →
   ∃ allowed,
     kms_http_ep_server_manage_cookie_session now rnd ep msg (uri_path m) s
       = inr (allowed, s) ∧
     (allowed = true ↔ presents cookie m ∧ cookie_has_expired now cookie = false) ∧
     (allowed = false →
      got_headers_handler now rnd msg s
        = inr (tt, with_messages
                     (<[msg := with_status SOUP_STATUS_BAD_REQUEST m]> (messages s)) s))).
Proof.
  intros Hm Hp He. split.
  - intros Hnone lifetime Hl cookie. do 2 eexists.
    munfold. rewrite He. proj_simpl. rewrite Hnone, He. proj_simpl. rewrite Hl, Hm.
    proj_simpl. rewrite He. proj_simpl.
    split; [reflexivity |]. proj_simpl.
    split; [| split].
    + rewrite (lookup_insert_eq (messages s)). reflexivity.
    + apply lookup_insert_eq.
    + proj_simpl. apply lookup_insert_eq.
  - intros cookie Hc. exists (kms_http_ep_server_check_cookie now cookie m).
    split; [| split].
    + munfold. rewrite He. proj_simpl. rewrite Hc, Hm. reflexivity.
    + apply check_cookie_spec.
    + intros Hrej. munfold. rewrite Hm. rewrite Hp, He. proj_simpl.
      rewrite Hc, Hm, Hrej. proj_simpl. rewrite Hm. reflexivity.
Qed.

Lemma cookie_session_policy_witness :
  (∃ s1, kms_http_ep_server_manage_cookie_session 1000 42 1 10 "/u" Fixture.registered
           = inr (true, s1)) ∧
  kms_http_ep_server_manage_cookie_session 1012 0 1 16 "/u" Fixture.idle
    = inr (true, Fixture.idle) ∧
  got_headers_handler 1012 0 17 Fixture.idle
    = inr (tt, with_messages
                 (<[17%nat := with_status SOUP_STATUS_BAD_REQUEST
                                (Fixture.request GET "/u" None [("HttpEPCookie", "43")])]>
                    (messages Fixture.idle)) Fixture.idle).
Proof.
  split; [| split].
  - assert (Hm : messages Fixture.registered !! 10%nat
                 = Some (Fixture.request GET "/u" None [])) by (vm_compute; reflexivity).
    assert (Hp : handlers Fixture.registered !! "/u" = Some 1%nat) by (vm_compute; reflexivity).
    assert (He : elements Fixture.registered !! 1%nat
                 = Some (default Fixture.httpendpoint (elements Fixture.registered !! 1%nat)))
      by (vm_compute; reflexivity).
    destruct (cookie_session_policy 1000 42 10 1 _ _ _ Hm Hp He) as [H _].
    assert (Hc : el_data (default Fixture.httpendpoint (elements Fixture.registered !! 1%nat))
                   !! KEY_COOKIE = None) by (vm_compute; reflexivity).
    assert (Hl : el_data (default Fixture.httpendpoint (elements Fixture.registered !! 1%nat))
                   !! KEY_PARAM_LIFETIME = Some (QUint 60)) by (vm_compute; reflexivity).
    destruct (H Hc 60 Hl) as (s1 & e1 & H1 & _).
    exists s1. exact H1.
  - assert (Hm : messages Fixture.idle !! 16%nat
                 = Some (Fixture.request GET "/u" None Fixture.the_cookie))
      by (vm_compute; reflexivity).
    assert (Hp : handlers Fixture.idle !! "/u" = Some 1%nat) by (vm_compute; reflexivity).
    assert (He : elements Fixture.idle !! 1%nat = Some Fixture.idle_element)
      by (vm_compute; reflexivity).
    destruct (cookie_session_policy 1012 0 16 1 _ _ _ Hm Hp He) as [_ H].
    assert (Hc : el_data Fixture.idle_element !! KEY_COOKIE
                 = Some (QCookie Fixture.session_cookie)) by (vm_compute; reflexivity).
    destruct (H _ Hc) as (allowed & H1 & H2 & _).
    assert (Ha : allowed = true).
    { apply H2. split; [| vm_compute; reflexivity].
      exists ("HttpEPCookie", "42"). split; [apply list_elem_of_here |].
      split; vm_compute; reflexivity. }
    rewrite Ha in H1. exact H1.
  - assert (Hm : messages Fixture.idle !! 17%nat
                 = Some (Fixture.request GET "/u" None [("HttpEPCookie", "43")]))
      by (vm_compute; reflexivity).
    assert (Hp : handlers Fixture.idle !! "/u" = Some 1%nat) by (vm_compute; reflexivity).
    assert (He : elements Fixture.idle !! 1%nat = Some Fixture.idle_element)
      by (vm_compute; reflexivity).
    destruct (cookie_session_policy 1012 0 17 1 _ _ _ Hm Hp He) as [_ H].
    assert (Hc : el_data Fixture.idle_element !! KEY_COOKIE
                 = Some (QCookie Fixture.session_cookie)) by (vm_compute; reflexivity).
    destruct (H _ Hc) as (allowed & H1 & H2 & H3).
    apply H3. destruct allowed; [| reflexivity].
    destruct H2 as [H2 _]. destruct (H2 eq_refl) as [(c & Hc' & Hn & Hv) _].
    apply list_elem_of_singleton in Hc'. subst c. vm_compute in Hv. discriminate Hv.
Defined.

(** * Dispatch *)

Lemma got_headers_handler_allowed now rnd msg s m ep s1 :
  messages s !! msg = Some m →
  handlers s !! uri_path m = Some ep →
  kms_http_ep_server_manage_cookie_session now rnd ep msg (uri_path m) s = inr (true, s1) →
  got_headers_handler now rnd msg s = dispatch_allowed msg ep m s1.
Proof.
  intros Hm Hp Hadm. unfold got_headers_handler.
  rewrite (bind_inr _ _ _ _ _ (get_msg_ok _ _ _ Hm)).
  rewrite (bind_inr _ _ s s s eq_refl). rewrite Hp.
  rewrite (bind_inr _ _ _ _ _ Hadm). reflexivity.
Qed.

Lemma got_headers_handler_not_found now rnd msg s m :
  messages s !! msg = Some m →
  handlers s !! uri_path m = None →
  got_headers_handler now rnd msg s
    = inr (tt, with_messages (<[msg := with_status SOUP_STATUS_NOT_FOUND m]> (messages s)) s).
Proof.
  intros Hm Hp. unfold got_headers_handler.
  rewrite (bind_inr _ _ _ _ _ (get_msg_ok _ _ _ Hm)).
  rewrite (bind_inr _ _ s s s eq_refl). rewrite Hp.
  by apply upd_msg_ok.
Qed.

(** The steps before the method is looked at emit nothing and connect
    nothing. *)
Lemma keeps_emitted_session now rnd ep msg path :
  keeps emitted (kms_http_ep_server_manage_cookie_session now rnd ep msg path).
Proof. frame. Qed.

Lemma keeps_next_handler_id_session now rnd ep msg path :
  keeps next_handler_id (kms_http_ep_server_manage_cookie_session now rnd ep msg path).
Proof. frame. Qed.

Lemma keeps_emitted_prelude ep msg :
  keeps emitted (remove_cookie_timeout ep;; set_message_binding ep (Some msg);;
                 msg_set_data msg KEY_HTTP_EP_SERVER QServer).
Proof. frame. Qed.

Lemma keeps_next_handler_id_prelude ep msg :
  keeps next_handler_id (remove_cookie_timeout ep;; set_message_binding ep (Some msg);;
                         msg_set_data msg KEY_HTTP_EP_SERVER QServer).
Proof. frame. Qed.

Lemma keeps_request_prelude q ep msg :
  keeps (request_of q) (remove_cookie_timeout ep;; set_message_binding ep (Some msg);;
                        msg_set_data msg KEY_HTTP_EP_SERVER QServer).
Proof. frame. Qed.

Lemma keeps_request_session q now rnd ep msg path :
  keeps (request_of q) (kms_http_ep_server_manage_cookie_session now rnd ep msg path).
Proof. frame. Qed.

Lemma keeps_data_teardown q msg : keeps (data_of q) (destroy_pending_message msg).
Proof. frame. Qed.

Lemma keeps_data_msg_set_data q msg key v : keeps (data_of q) (msg_set_data msg key v).
Proof. frame. Qed.

(** Binding a message leaves it bound, whatever the teardown of the
    message bound before did. *)
Lemma set_message_binding_binds ep msg s a s' :
  set_message_binding ep (Some msg) s = inr (a, s') →
  message_bound ep s' = Some (QMessage msg).
Proof.
  unfold set_message_binding. intros H.
  apply bind_inv in H as (old & s1 & Hold & H).
  apply bind_inv in H as ([] & s2 & Hset & H).
  assert (Hb : message_bound ep s2 = Some (QMessage msg)).
  { revert Hset. unfold el_set_data, upd_el. intros Hset.
    apply bind_inv in Hset as (e & s3 & He & Hset). unfold get_el in He.
    destruct (elements s1 !! ep) as [e'|]; [| discriminate].
    injection He as <- <-. injection Hset as <-.
    unfold message_bound, data_of. cbn [elements with_elements].
    rewrite (lookup_insert_eq (elements s1)). cbn. apply lookup_insert_eq. }
  unfold message_bound in *.
  destruct old as [[]|]; try discriminate.
  - by rewrite (keeps_data_teardown _ _ _ _ _ H).
  - injection H as _ <-. done.
Qed.

(** [dispatch_allowed], split after the steps common to all methods. *)
Lemma dispatch_allowed_inv msg ep m s1 s' :
  dispatch_allowed msg ep m s1 = inr (tt, s') →
  ∃ s2,
    (remove_cookie_timeout ep;; set_message_binding ep (Some msg);;
     msg_set_data msg KEY_HTTP_EP_SERVER QServer) s1 = inr (tt, s2) ∧
    dispatch_method msg ep m s2 = inr (tt, s').
Proof.
  unfold dispatch_allowed. intros H.
  apply bind_inv in H as ([] & sa & Ha & H).
  apply bind_inv in H as ([] & sb & Hb & H).
  apply bind_inv in H as ([] & sc & Hc & H).
  exists sc. split; [| exact H].
  rewrite (bind_inr _ _ _ _ _ Ha). rewrite (bind_inr _ _ _ _ _ Hb). exact Hc.
Qed.

(** * Dispatch returns *)

Section Total.
Context (msg ep : nat).

Lemma total_ret {A} (a : A) : total_on (live msg ep) (mret a).
Proof. intros s Hs. by exists a, s. Qed.

Lemma total_bind {A C} (c : M A) (k : A → M C) :
  total_on (live msg ep) c → (∀ a, total_on (live msg ep) (k a)) →
  total_on (live msg ep) (c ≫= k).
Proof.
  intros Hc Hk s Hs. destruct (Hc s Hs) as (a & s1 & H1 & Hs1).
  destruct (Hk a s1 Hs1) as (b & s2 & H2 & Hs2).
  exists b, s2. split; [| done]. by rewrite (bind_inr _ _ _ _ _ H1).
Qed.

Lemma total_get_state : total_on (live msg ep) get_state.
Proof. intros s Hs. by exists s, s. Qed.

Lemma total_get_msg : total_on (live msg ep) (get_msg msg).
Proof.
  intros s Hs. destruct Hs as [[m Hm] He]. exists m, s.
  split; [by apply get_msg_ok |]. split; eauto.
Qed.

Lemma total_get_el : total_on (live msg ep) (get_el ep).
Proof.
  intros s Hs. destruct Hs as [Hm [e He]]. exists e, s.
  split; [by apply get_el_ok |]. split; eauto.
Qed.

Lemma total_modify g :
  (∀ s, messages (g s) = messages s ∧ elements (g s) = elements s) →
  total_on (live msg ep) (modify g).
Proof.
  intros Hg s Hs. exists tt, (g s). split; [done |].
  unfold live. destruct (Hg s) as [-> ->]. exact Hs.
Qed.

Lemma total_upd_msg g : total_on (live msg ep) (upd_msg msg g).
Proof.
  intros s [[m Hm] He]. eexists tt, _. split; [by apply upd_msg_ok |].
  split; proj_simpl; [| done]. rewrite (lookup_insert_eq (messages s)). eauto.
Qed.

Lemma total_upd_el g : total_on (live msg ep) (upd_el ep g).
Proof.
  intros s [Hm [e He]]. eexists tt, _. split; [by apply upd_el_ok |].
  split; proj_simpl; [done |]. rewrite (lookup_insert_eq (elements s)). eauto.
Qed.

End Total.

Ltac total_step :=
  match goal with
  | |- total_on _ (mret _) => apply total_ret
  | |- total_on _ get_state => apply total_get_state
  | |- total_on _ (get_msg _) => apply total_get_msg
  | |- total_on _ (get_el _) => apply total_get_el
  | |- total_on _ (upd_msg _ _) => apply total_upd_msg
  | |- total_on _ (upd_el _ _) => apply total_upd_el
  | |- total_on _ (modify _) => apply total_modify; intros; split; reflexivity
  | |- total_on _ (_ ≫= _) => apply total_bind; [| intros ?]
  | |- total_on _ (match ?x with _ => _ end) => destruct x
  end.

Ltac total := repeat first [ total_step | progress unfold_source ].

(** Once the message is bound, the branch on the method returns for
    every method but POST, whose handler reads a local that may be
    unassigned. *)
Lemma dispatch_method_total msg ep m :
  method m ≠ POST → total_on (live msg ep) (dispatch_method msg ep m).
Proof. intros Hm. unfold dispatch_method. destruct (method m); [total | done | total]. Qed.

Lemma has_params_lifetime ep s e :
  has_params ep s → elements s !! ep = Some e →
  ∃ lifetime, el_data e !! KEY_PARAM_LIFETIME = Some (QUint lifetime).
Proof.
  intros (lifetime & timeout & H) He. exists lifetime.
  unfold params_of, data_of in H. rewrite He in H. cbn in H. congruence.
Qed.

Lemma has_params_timeout ep s e :
  has_params ep s → elements s !! ep = Some e →
  ∃ timeout, el_data e !! KEY_PARAM_TIMEOUT = Some (QUint timeout).
Proof.
  intros (lifetime & timeout & H) He. exists timeout.
  unfold params_of, data_of in H. rewrite He in H. cbn in H. congruence.
Qed.

Lemma prelude_returns msg ep s e m :
  elements s !! ep = Some e →
  messages s !! msg = Some m →
  ready e →
  ∃ s', (remove_cookie_timeout ep;; set_message_binding ep (Some msg);;
         msg_set_data msg KEY_HTTP_EP_SERVER QServer) s = inr (tt, s') ∧
        live msg ep s'.
Proof.
  intros He Hm [Hunbound [Hnone | [id Hid]]].
  - eexists. split.
    + munfold. mrun. reflexivity.
    + split; proj_simpl.
      * rewrite (lookup_insert_eq (messages s)). eauto.
      * rewrite (lookup_insert_eq (elements s)). eauto.
  - eexists. split.
    + munfold. mrun. rewrite (lookup_insert_eq (elements s)). proj_simpl.
      rewrite lookup_delete_ne by done. rewrite Hunbound.
      rewrite (lookup_insert_eq (elements s)). proj_simpl. rewrite Hm. reflexivity.
    + split; proj_simpl.
      * rewrite (lookup_insert_eq (messages s)). eauto.
      * rewrite lookup_insert_eq. eauto.
Qed.

Lemma session_returns now rnd msg ep s e m :
  has_params ep s →
  messages s !! msg = Some m →
  elements s !! ep = Some e →
  ready e →
  session_grants now e m →
  ∃ s1 e1 m1,
    kms_http_ep_server_manage_cookie_session now rnd ep msg (uri_path m) s
      = inr (true, s1) ∧
    elements s1 !! ep = Some e1 ∧ messages s1 !! msg = Some m1 ∧ ready e1.
Proof.
  intros Hpar Hm He Hready [Hnone | [cookie [Hc Hcheck]]].
  - destruct (has_params_lifetime _ _ _ Hpar He) as [lifetime Hl].
    do 3 eexists. split; [| split; [| split]].
    + munfold. mrun. reflexivity.
    + proj_simpl. apply lookup_insert_eq.
    + proj_simpl. apply lookup_insert_eq.
    + destruct Hready as [Hunbound Htimeout]. unfold ready. proj_simpl.
      rewrite !lookup_insert_ne by done. done.
  - exists s, e, m. split; [| done].
    munfold. mrun. reflexivity.
Qed.

(** From a state in which the element is ready and the session check
    lets the request through, [got_headers_handler] returns for every
    method but POST. *)
Lemma dispatch_returns now rnd msg s m ep e :
  method m ≠ POST →
  registry_ok s →
  messages s !! msg = Some m →
  handlers s !! uri_path m = Some ep →
  elements s !! ep = Some e →
  ready e →
  session_grants now e m →
  ∃ s1 s',
    kms_http_ep_server_manage_cookie_session now rnd ep msg (uri_path m) s
      = inr (true, s1) ∧
    got_headers_handler now rnd msg s = inr (tt, s').
Proof.
  intros Hmeth Hok Hm Hp He Hready Hgrants.
  destruct (session_returns now rnd _ _ _ _ _ (Hok _ _ Hp) Hm He Hready Hgrants)
    as (s1 & e1 & m1 & Hallowed & He1 & Hm1 & Hready1).
  destruct (prelude_returns _ _ _ _ _ He1 Hm1 Hready1) as (s2 & Hpre & Hlive).
  destruct (dispatch_method_total msg ep m Hmeth s2 Hlive) as ([] & s' & Hrun & _).
  exists s1, s'. split; [done |].
  rewrite (got_headers_handler_allowed _ _ _ _ _ _ _ Hm Hp Hallowed).
  unfold dispatch_allowed.
  apply bind_inv in Hpre as ([] & sa & Ha & Hpre). rewrite (bind_inr _ _ _ _ _ Ha).
  apply bind_inv in Hpre as ([] & sb & Hb & Hc). rewrite (bind_inr _ _ _ _ _ Hb).
  by rewrite (bind_inr _ _ _ _ _ Hc).
Qed.

(** The two routing exits of [got_headers_handler].  An unknown path is
    answered 404 at once: the session store is not consulted and
    nothing but the status of the message changes.  On a registered
    path a method that is neither GET nor POST is answered 405 once the
    session check has passed; no handler has been connected and nothing
    has been emitted then.  This is what every dispatch that returns
    leaves behind, and the dispatch does return when every registered
    element has its parameters and the element is ready. *)
Lemma routing_exits (now rnd : Z) (msg : nat) (s : State) (m : SoupMessage) :
  messages s !! msg = Some m →
  (handlers s !! uri_path m = None →
   got_headers_handler now rnd msg s
     = inr (tt, with_messages
                  (<[msg := with_status SOUP_STATUS_NOT_FOUND m]> (messages s)) s)) ∧
  (∀ ep name,
     handlers s !! uri_path m = Some ep →
     method m = OTHER name →
     (∀ s1 s',
        kms_http_ep_server_manage_cookie_session now rnd ep msg (uri_path m) s
          = inr (true, s1) →
        got_headers_handler now rnd msg s = inr (tt, s') →
        method_not_allowed msg s s') ∧
     (∀ e, registry_ok s → elements s !! ep = Some e → ready e →
        session_grants now e m →
        ∃ s', got_headers_handler now rnd msg s = inr (tt, s') ∧
              method_not_allowed msg s s')).
Proof.
  intros Hm. split.
  - intros Hp. by apply got_headers_handler_not_found.
  - intros ep name Hp Hmeth.
    assert (Hpartial : ∀ s1 s',
      kms_http_ep_server_manage_cookie_session now rnd ep msg (uri_path m) s
        = inr (true, s1) →
      got_headers_handler now rnd msg s = inr (tt, s') →
      method_not_allowed msg s s').
    { intros s1 s' Hallowed Hrun.
      rewrite (got_headers_handler_allowed _ _ _ _ _ _ _ Hm Hp Hallowed) in Hrun.
      apply dispatch_allowed_inv in Hrun as (s2 & Hpre & Hrun).
      unfold dispatch_method in Hrun. rewrite Hmeth in Hrun.
      apply upd_msg_inv in Hrun as (m2 & Hm2 & ->).
      unfold method_not_allowed. proj_simpl. split; [| split].
      + by rewrite lookup_insert_eq.
      + unfold no_handler_installed. proj_simpl.
        rewrite (keeps_next_handler_id_prelude _ _ _ _ _ Hpre).
        apply (keeps_next_handler_id_session _ _ _ _ _ _ _ _ Hallowed).
      + rewrite (keeps_emitted_prelude _ _ _ _ _ Hpre).
        apply (keeps_emitted_session _ _ _ _ _ _ _ _ Hallowed). }
    split; [exact Hpartial |].
    intros e Hok He Hready Hgrants.
    assert (Hnp : method m ≠ POST) by (rewrite Hmeth; discriminate).
    destruct (dispatch_returns now rnd _ _ _ _ _ Hnp Hok Hm Hp He Hready Hgrants)
      as (s1 & s' & Hallowed & Hrun).
    exists s'. split; [exact Hrun |]. by apply (Hpartial s1).
Qed.

(** C3 fails on the code for the method error: [got_headers_handler]
    looks at the method last.  A PUT to the registered path "/u" is
    answered 405 only after the session was opened for it and the
    message was bound to the element: more than the status changed.  A
    second PUT, carrying the session cookie, is not answered at all:
    binding it tears down the first, which holds no handler id.  A PUT
    that arrives while a GET is being served is answered 405 and ends
    that GET.  A PUT that fails the session check is answered 400. *)
Theorem method_checked_after_binding :
  got_headers_handler 1000 42 11 Fixture.registered = inr (tt, Fixture.after_put) ∧
  status_code <$> messages Fixture.after_put !! 11%nat
    = Some SOUP_STATUS_METHOD_NOT_ALLOWED ∧
  ¬ only_status_set 11 Fixture.registered Fixture.after_put ∧
  cookie_of 1 Fixture.registered = None ∧
  is_Some (cookie_of 1 Fixture.after_put) ∧
  message_bound 1 Fixture.registered = None ∧
  message_bound 1 Fixture.after_put = Some (QMessage 11) ∧
  got_headers_handler 1001 43 21 Scenario.after_put_with_put
    = inl (NullPointer KEY_FINISHED_HANDLER_ID) ∧
  (∃ s', got_headers_handler 1001 43 21 Scenario.serving_with_put = inr (tt, s') ∧
         status_code <$> messages s' !! 21%nat = Some SOUP_STATUS_METHOD_NOT_ALLOWED ∧
         response_complete <$> messages Scenario.serving_with_put !! 10%nat = Some false ∧
         response_complete <$> messages s' !! 10%nat = Some true ∧
         el_start <$> elements Scenario.serving_with_put !! 1%nat = Some true ∧
         el_start <$> elements s' !! 1%nat = Some false) ∧
  (∃ s', got_headers_handler 1012 0 19 Fixture.idle = inr (tt, s') ∧
         status_code <$> messages s' !! 19%nat = Some SOUP_STATUS_BAD_REQUEST).
Proof.
  split; [vm_compute; reflexivity |]. split; [vm_compute; reflexivity |].
  split.
  { intros (m & c & _ & Heq).
    apply (f_equal (message_bound 1)) in Heq.
    vm_compute in Heq. discriminate Heq. }
  split; [vm_compute; reflexivity |].
  split; [vm_compute; by eexists |].
  split; [vm_compute; reflexivity |]. split; [vm_compute; reflexivity |].
  split; [vm_compute; reflexivity |].
  split; eexists; repeat split; vm_compute; reflexivity.
Qed.

(** * POST *)

Lemma post_handler_rejects msg ep s m :
  messages s !! msg = Some m →
  post_rejected m →
  kms_http_ep_server_post_handler msg ep s
    = inr (tt, with_messages
                 (<[msg := with_status SOUP_STATUS_NOT_ACCEPTABLE m]> (messages s)) s).
Proof.
  intros Hm (content_type & params & Hct & Hpre & Hb).
  munfold. rewrite Hm, Hct, Hpre.
  proj_simpl. rewrite Hb, Hm. reflexivity.
Qed.

(** Without a Content-Type header the POST handler does not return. *)
Lemma post_handler_without_content_type msg ep s m :
  messages s !! msg = Some m →
  request_content_type m = None →
  kms_http_ep_server_post_handler msg ep s = inl (Uninitialised "params").
Proof. intros Hm Hnone. munfold. rewrite Hm, Hnone, Hm. reflexivity. Qed.

Lemma keeps_emitted_post_handler msg ep :
  keeps emitted (kms_http_ep_server_post_handler msg ep).
Proof. frame. Qed.

Lemma request_of_lookup msg s s' m :
  request_of msg s' = request_of msg s →
  messages s !! msg = Some m →
  ∃ m', messages s' !! msg = Some m' ∧ request_view m' = request_view m.
Proof.
  unfold request_of. intros H Hm. rewrite Hm in H.
  destruct (messages s' !! msg) as [m'|]; cbn [fmap option_fmap option_map] in H;
    [| discriminate].
  exists m'. split; [done |]. congruence.
Qed.

Lemma post_rejected_view m m' :
  request_view m' = request_view m → post_rejected m → post_rejected m'.
Proof.
  unfold request_view, post_rejected. intros H. injection H as _ _ -> _. done.
Qed.

(** A POST to a registered path that passes the session check and
    carries a Content-Type: every dispatch that returns has emitted
    action-requested (path, Post), also when the POST handler turned the
    request down with 406 for a missing multipart boundary and connected
    no handler.  Without a Content-Type no dispatch returns. *)
Lemma action_requested_after_post (now rnd : Z) (msg ep : nat)
    (s : State) (m : SoupMessage) :
  messages s !! msg = Some m →
  method m = POST →
  handlers s !! uri_path m = Some ep →
  (∀ s1 s',
     kms_http_ep_server_manage_cookie_session now rnd ep msg (uri_path m) s
       = inr (true, s1) →
     got_headers_handler now rnd msg s = inr (tt, s') →
     post_dispatched msg m s s') ∧
  (request_content_type m = None →
   ∀ s1 s',
     kms_http_ep_server_manage_cookie_session now rnd ep msg (uri_path m) s
       = inr (true, s1) →
     got_headers_handler now rnd msg s ≠ inr (tt, s')).
Proof.
  intros Hm Hmeth Hp. split.
  - intros s1 s' Hallowed Hrun.
    rewrite (got_headers_handler_allowed _ _ _ _ _ _ _ Hm Hp Hallowed) in Hrun.
    apply dispatch_allowed_inv in Hrun as (s2 & Hpre & Hrun).
    unfold dispatch_method in Hrun. rewrite Hmeth in Hrun.
    apply bind_inv in Hrun as ([] & s3 & Hpost & Hemit).
    injection Hemit as <-. unfold post_dispatched. proj_simpl.
    pose proof (keeps_emitted_session _ _ _ _ _ _ _ _ Hallowed) as E1.
    pose proof (keeps_emitted_prelude _ _ _ _ _ Hpre) as E2.
    split.
    + rewrite (keeps_emitted_post_handler _ _ _ _ _ Hpost). by rewrite E2, E1.
    + intros Hrej.
      pose proof (keeps_request_session msg _ _ _ _ _ _ _ _ Hallowed) as R1.
      pose proof (keeps_request_prelude msg _ _ _ _ _ Hpre) as R2.
      rewrite R1 in R2.
      destruct (request_of_lookup _ _ _ _ R2 Hm) as (m2 & Hm2 & Hview).
      rewrite (post_handler_rejects _ _ _ _ Hm2 (post_rejected_view _ _ Hview Hrej)) in Hpost.
      injection Hpost as <-. proj_simpl. split.
      * by rewrite lookup_insert_eq.
      * unfold no_handler_installed. proj_simpl.
        rewrite (keeps_next_handler_id_prelude _ _ _ _ _ Hpre).
        apply (keeps_next_handler_id_session _ _ _ _ _ _ _ _ Hallowed).
  - intros Hnone s1 s' Hallowed Hrun.
    rewrite (got_headers_handler_allowed _ _ _ _ _ _ _ Hm Hp Hallowed) in Hrun.
    apply dispatch_allowed_inv in Hrun as (s2 & Hpre & Hrun).
    unfold dispatch_method in Hrun. rewrite Hmeth in Hrun.
    apply bind_inv in Hrun as ([] & s3 & Hpost & _).
    pose proof (keeps_request_session msg _ _ _ _ _ _ _ _ Hallowed) as R1.
    pose proof (keeps_request_prelude msg _ _ _ _ _ Hpre) as R2.
    rewrite R1 in R2.
    destruct (request_of_lookup _ _ _ _ R2 Hm) as (m2 & Hm2 & Hview).
    assert (Hnone2 : request_content_type m2 = None).
    { unfold request_view in Hview. injection Hview as _ _ -> _. exact Hnone. }
    rewrite (post_handler_without_content_type _ _ _ _ Hm2 Hnone2) in Hpost.
    discriminate Hpost.
Qed.

(** C10 fails on the code.  A POST without a Content-Type header that
    passes the session check is not answered: after the status 406 was
    set, the POST handler reads its local [params], which was never
    assigned, and action-requested is not emitted.  A POST sent to the
    boundary check without a boundary is answered 406, no handler is
    connected and action-requested is emitted; the message stays bound,
    and the POST that follows it is not answered either, since binding
    it tears down a message that holds no handler id. *)
Theorem post_without_content_type_reads_unset_params :
  kms_http_ep_server_post_handler 15 1 Fixture.idle = inl (Uninitialised "params") ∧
  got_headers_handler 1012 0 15 Fixture.idle = inl (Uninitialised "params") ∧
  got_headers_handler 1012 0 18 Fixture.idle = inr (tt, Scenario.after_bare_multipart) ∧
  emitted Scenario.after_bare_multipart
    = emitted Fixture.idle ++ [ACTION_REQUESTED "/u" ACTION_POST] ∧
  status_code <$> messages Scenario.after_bare_multipart !! 18%nat
    = Some SOUP_STATUS_NOT_ACCEPTABLE ∧
  no_handler_installed Fixture.idle Scenario.after_bare_multipart ∧
  message_bound 1 Scenario.after_bare_multipart = Some (QMessage 18) ∧
  got_headers_handler 1013 0 12 Scenario.after_bare_multipart
    = inl (NullPointer KEY_GOT_CHUNK_HANDLER_ID).
Proof.
  split; [vm_compute; reflexivity |]. split; [vm_compute; reflexivity |].
  split; [vm_compute; reflexivity |]. split; [vm_compute; reflexivity |].
  split; [vm_compute; reflexivity |]. split; [vm_compute; reflexivity |].
  split; vm_compute; reflexivity.
Qed.

(** * The expiry timer *)

Lemma expiry_interval_min now date timeout :
  cookie_has_expired now {| cookie_name := ""; cookie_value := ""; cookie_domain := "";
                            cookie_path := ""; cookie_max_age := 0;
                            cookie_expires := Some date |} = false →
  0 ≤ timeout < 2 ^ 32 →
  expiry_interval now date timeout = Z.min (date - now) timeout.
Proof.
  unfold cookie_has_expired, soup_date_is_past, expiry_interval, to_guint.
  cbn [cookie_expires]. intros Hpast Ht. apply Z.ltb_ge in Hpast.
  replace (now + timeout - now) with timeout by lia.
  destruct (date - now <? timeout) eqn:Hlt.
  - apply Z.ltb_lt in Hlt. rewrite Z.min_l by lia. apply Z.mod_small. lia.
  - apply Z.ltb_ge in Hlt. rewrite Z.min_r by lia. apply Z.mod_small. lia.
Qed.

(** Completion with a live cookie arms one timeout and emits nothing. *)
Lemma emit_expiration_signal_arms now msg ep s m e cookie date timeout :
  messages s !! msg = Some m →
  elements s !! ep = Some e →
  el_data e !! KEY_COOKIE = Some (QCookie cookie) →
  cookie_expires cookie = Some date →
  cookie_has_expired now cookie = false →
  el_data e !! KEY_PARAM_TIMEOUT = Some (QUint timeout) →
  0 ≤ timeout < 2 ^ 32 →
  let id := next_source_id s in
  let src := {| interval_ms := to_guint (Z.min (date - now) timeout * 1000);
                source_msg := msg |} in
  emit_expiration_signal now msg ep s
    = inr (tt, with_elements
                 (<[ep := with_el_data (<[KEY_TIMEOUT_ID := QUint id]> (el_data e)) e]>
                    (elements s))
                 (with_sources (<[id := src]> (sources s))
                    (with_next_source_id (id + 1) s))).
Proof.
  intros Hm He Hc Hd Hlive Ht Hrange id src.
  assert (Hi : expiry_interval now date timeout = Z.min (date - now) timeout).
  { apply expiry_interval_min; [| done].
    revert Hlive. unfold cookie_has_expired. by rewrite Hd. }
  munfold. mrun. change (default 0 (Some date)) with date. mrun. reflexivity.
Qed.

(** Completion with an expired cookie emits url-expired at once and
    leaves everything else as it was. *)
Lemma emit_expiration_signal_expired now msg ep s m e cookie :
  messages s !! msg = Some m →
  msg_data m !! KEY_HTTP_EP_SERVER = Some QServer →
  elements s !! ep = Some e →
  el_data e !! KEY_COOKIE = Some (QCookie cookie) →
  cookie_has_expired now cookie = true →
  emit_expiration_signal now msg ep s
    = inr (tt, with_emitted (emitted s ++ [URL_EXPIRED (uri_path m)]) s).
Proof.
  intros Hm Hserv He Hc Hpast.
  munfold. mrun. reflexivity.
Qed.

(** A pending timeout fires once: it emits one url-expired and is gone,
    so that running it again does nothing. *)
Lemma timeout_fires_once id s src m ep e :
  sources s !! id = Some src →
  messages s !! source_msg src = Some m →
  msg_data m !! KEY_HTTP_EP_SERVER = Some QServer →
  handlers s !! uri_path m = Some ep →
  elements s !! ep = Some e →
  el_data e !! KEY_TIMEOUT_ID = Some (QUint id) →
  ∃ s', timeout_dispatch id s = inr (tt, s') ∧
        emitted s' = emitted s ++ [URL_EXPIRED (uri_path m)] ∧
        sources s' !! id = None ∧
        timeout_dispatch id s' = inr (tt, s').
Proof.
  intros Hsrc Hm Hserv Hp He Hid. eexists.
  split; [| split; [| split]].
  - munfold. mrun. reflexivity.
  - reflexivity.
  - proj_simpl. apply lookup_delete_eq.
  - munfold. by rewrite lookup_delete_eq.
Qed.

Lemma keeps_sources_after_timeout_removal ep msg m :
  keeps sources (set_message_binding ep (Some msg);;
                 msg_set_data msg KEY_HTTP_EP_SERVER QServer;;
                 dispatch_method msg ep m).
Proof. unfold dispatch_method. frame. Qed.

(** A request that is admitted while the timeout of its element is
    pending removes it: the timeout can no longer fire. *)
Lemma allowed_request_cancels_timer now rnd msg s m ep e id s' :
  messages s !! msg = Some m →
  handlers s !! uri_path m = Some ep →
  elements s !! ep = Some e →
  el_data e !! KEY_TIMEOUT_ID = Some (QUint id) →
  kms_http_ep_server_manage_cookie_session now rnd ep msg (uri_path m) s = inr (true, s) →
  got_headers_handler now rnd msg s = inr (tt, s') →
  sources s' !! id = None ∧ timeout_dispatch id s' = inr (tt, s').
Proof.
  intros Hm Hp He Hid Hadm Hrun.
  rewrite (got_headers_handler_allowed _ _ _ _ _ _ _ Hm Hp Hadm) in Hrun.
  unfold dispatch_allowed in Hrun.
  apply bind_inv in Hrun as ([] & s1 & Hrem & Hrest).
  assert (Hs1 : sources s1 = delete id (sources s)).
  { revert Hrem. munfold. mrun.
    intros H. injection H as <-. reflexivity. }
  assert (Hgone : sources s' !! id = None).
  { rewrite (keeps_sources_after_timeout_removal _ _ _ _ _ _ Hrest), Hs1.
    apply lookup_delete_eq. }
  split; [done |]. munfold. by rewrite Hgone.
Qed.

(** C5 fails where the interval does not fit the millisecond argument.
    With a lifetime and an idle timeout of 5000000 seconds, a transfer
    that completes 10 seconds after the cookie was made leaves
    min (4999990, 5000000) = 4999990 seconds to wait; the timeout is
    added with [interval * 1000] computed on [guint], 705022704 ms. *)
Theorem expiry_timer_interval_wraps :
  exec (kms_http_ep_server_register_end_point_impl "u" 1 5000000 5000000;;
        got_headers_handler 1000 42 10;;
        run_event (EvFinished 1010 10)) (Fixture.server Fixture.requests)
    = inr Fixture.long_idle ∧
  (elements Fixture.long_idle !! 1%nat) ≫= (λ e, el_data e !! KEY_COOKIE)
    = Some (QCookie (soup_cookie_new 1000 COOKIE_NAME "42" "10.0.0.1" "/u" 5000000)) ∧
  Z.min (1000 + 5000000 - 1010) 5000000 = 4999990 ∧
  sources Fixture.long_idle !! 1
    = Some {| interval_ms := 705022704; source_msg := 10%nat |} ∧
  705022704 ≠ 4999990 * 1000.
Proof.
  split; [vm_compute; reflexivity |]. split; [vm_compute; reflexivity |].
  split; [reflexivity |]. split; [vm_compute; reflexivity |]. discriminate.
Qed.

(** * Defects shown on concrete requests *)

(** No content type with a subtype is a prefix of "multipart/". *)
Lemma multipart_subtype_is_no_prefix c sub :
  g_str_has_prefix "multipart/" ("multipart/" +:+ String c sub) = false.
Proof. vm_compute. reflexivity. Qed.

(** So every POST with a content type multipart/subtype goes straight to
    [get_chunks], with or without a boundary. *)
Lemma post_handler_skips_boundary msg ep s m c sub params :
  messages s !! msg = Some m →
  request_content_type m = Some ("multipart/" +:+ String c sub, params) →
  ∃ s' m',
    kms_http_ep_server_post_handler msg ep s = inr (tt, s') ∧
    messages s' !! msg = Some m' ∧
    status_code m' = SOUP_STATUS_OK ∧
    msg_data m' !! KEY_BOUNDARY = msg_data m !! KEY_BOUNDARY ∧
    conn_signal <$> msg_connections m'
      = (conn_signal <$> msg_connections m) ++ ["got-chunk"; "finished"].
Proof.
  intros Hm Hct. do 2 eexists. split; [| split; [| split; [| split]]].
  - munfold. rewrite Hm, Hct. rewrite multipart_subtype_is_no_prefix. proj_simpl.
    rewrite Hm. proj_simpl. repeat (rewrite lookup_insert_eq; proj_simpl).
    reflexivity.
  - proj_simpl. apply lookup_insert_eq.
  - reflexivity.
  - proj_simpl. by rewrite !lookup_insert_ne.
  - proj_simpl. rewrite !fmap_app. by rewrite <- app_assoc.
Qed.

(** C1 fails on the code: the test [g_str_has_prefix ("multipart/",
    content_type)] asks whether "multipart/" begins with the content
    type, so an ordinary multipart type skips the boundary check.  A POST
    with Content-Type multipart/form-data and no boundary is answered 200
    with both handlers connected; with boundary=XYZ the boundary is not
    stored, and a chunk reaches the element with its framing. *)
Theorem multipart_boundary_check_skipped :
  g_str_has_prefix "multipart/" "multipart/form-data" = false ∧
  got_headers_handler 1000 42 12 Fixture.registered
    = inr (tt, Fixture.after_post_without_boundary) ∧
  status_code <$> messages Fixture.after_post_without_boundary !! 12%nat
    = Some SOUP_STATUS_OK ∧
  (λ m, conn_signal <$> msg_connections m)
    <$> messages Fixture.after_post_without_boundary !! 12%nat
    = Some ["got-chunk"; "finished"] ∧
  exec (got_headers_handler 1000 42 14;;
        run_event (EvGotChunk 14 Fixture.multipart_chunk)) Fixture.registered
    = inr Fixture.after_post_with_boundary ∧
  status_code <$> messages Fixture.after_post_with_boundary !! 14%nat
    = Some SOUP_STATUS_OK ∧
  (messages Fixture.after_post_with_boundary !! 14%nat)
    ≫= (λ m, msg_data m !! KEY_BOUNDARY) = None ∧
  el_pushed <$> elements Fixture.after_post_with_boundary !! 1%nat
    = Some [Fixture.multipart_body].
Proof.
  split; [reflexivity |]. split; [vm_compute; reflexivity |].
  split; [vm_compute; reflexivity |]. split; [vm_compute; reflexivity |].
  split; [vm_compute; reflexivity |]. split; [vm_compute; reflexivity |].
  split; vm_compute; reflexivity.
Qed.

(** C8 fails on the code.  A PUT to a registered path is answered 405
    after the message was bound to the element, with no handler id on
    it; the teardown that runs when the path is unregistered reads
    through the absent KEY_FINISHED_HANDLER_ID.  A POST turned down with
    406 for a missing boundary stays bound as well, and the teardown
    that runs when the next request is bound reads through the absent
    KEY_GOT_CHUNK_HANDLER_ID. *)
Theorem teardown_reads_unset_handler_id :
  message_bound 1 Fixture.after_put = Some (QMessage 11) ∧
  (messages Fixture.after_put !! 11%nat) ≫= (λ m, msg_data m !! KEY_FINISHED_HANDLER_ID)
    = None ∧
  destroy_pending_message 11 Fixture.after_put
    = inl (NullPointer KEY_FINISHED_HANDLER_ID) ∧
  exec (kms_http_ep_server_unregister_end_point_impl "/u") Fixture.after_put
    = inl (NullPointer KEY_FINISHED_HANDLER_ID) ∧
  exec (got_headers_handler 1012 0 18;; got_headers_handler 1013 0 16) Fixture.idle
    = inl (NullPointer KEY_GOT_CHUNK_HANDLER_ID).
Proof.
  split; [vm_compute; reflexivity |]. split; [vm_compute; reflexivity |].
  split; [vm_compute; reflexivity |]. split; vm_compute; reflexivity.
Qed.

(** * The boundary scanner on concrete chunks *)

(** A string longer than the boundary is no prefix of it: the first test
    of the loop never skips a "--" that is followed by that many bytes
    other than NUL. *)
Lemma longer_string_is_no_prefix (boundary s : list byte) :
  (length boundary < length s)%nat → GLib.g_str_has_prefix boundary s = false.
Proof.
  revert boundary. induction s as [|x s IH]; intros boundary Hlen;
    cbn [length] in Hlen; [lia |].
  destruct boundary as [|c boundary]; cbn [GLib.g_str_has_prefix]; [reflexivity |].
  cbn [length] in Hlen. rewrite IH by lia. apply andb_false_r.
Qed.

(** The body of scenario B in one chunk: the content starts after the
    blank line and ends before the CRLF of the closing boundary. *)
Example find_content_part_single_part :
  result (scan_chunk Fixture.multipart_body [NUL] "XYZ") = inr (Ptr 15, Ptr 22) ∧
  take 7 (drop 15 Fixture.multipart_body) = bytes_of "payload".
Proof. split; vm_compute; reflexivity. Qed.

(** C2 fails on the code: the comparison with the boundary is
    [g_str_has_prefix (boundary, b + 2) != 0], which skips a "--" only
    when the string that follows it is a prefix of the boundary.  The
    line "--ABC--" does not spell the boundary XYZ, yet it sets
    content_end (to the CR before it); the line "--ABC" followed by CRLF
    sets content_start. *)
Theorem find_content_part_foreign_marker :
  let chunk := bytes_of "abc" ++ CRLF ++ bytes_of "--ABC--defgh" in
  let chunk' := bytes_of "--ABC" ++ CRLF ++ bytes_of "H: a" ++ CRLF ++ CRLF
                  ++ bytes_of "data" in
  take 3 (drop 7 chunk) = bytes_of "ABC" ∧
  result (scan_chunk chunk [NUL] "XYZ") = inr (NULL, Ptr 3) ∧
  result (scan_chunk chunk' [NUL] "XYZ") = inr (Ptr 15, NULL).
Proof. split; [reflexivity |]. split; vm_compute; reflexivity. Qed.

(** C9 fails on the code.  With a CR as last byte of the chunk the
    header loop reads [c[1]] at [end]; when the inner memchr finds no CR
    the loop reads through the null pointer it returned; a chunk that
    starts with LF makes the line test read [b[-2]] before [start]; and
    the string handed to g_str_has_prefix runs on to the first NUL,
    here one byte past the chunk. *)
Theorem find_content_part_reads_outside_chunk :
  let chunk := bytes_of "--XYZ" ++ CRLF ++ bytes_of "abc" ++ [CR] in
  let end_ := Z.of_nat (length chunk) in
  let r := scan_chunk chunk [NUL; NUL; NUL; NUL] "XYZ" in
  (AtC 1, end_) ∈ reads r ∧
  in_chunk 0 end_ (AtC 1, end_) = false ∧
  (AtPrefix, end_) ∈ reads r ∧
  result (scan_chunk (bytes_of "--XYZ" ++ CRLF ++ bytes_of "ab") [NUL] "XYZ")
    = inl NullDeref ∧
  (AtBm2, -1) ∈ reads (scan_chunk ([LF] ++ bytes_of "--XYZ--abc") [NUL] "XYZ").
Proof.
  cbv zeta. split; [| split; [reflexivity | split; [| split; [vm_compute; reflexivity |]]]].
  - apply list_elem_of_In. vm_compute. tauto.
  - apply list_elem_of_In. vm_compute. tauto.
  - apply list_elem_of_In. vm_compute. tauto.
Qed.

(** * The iteration bound of the scanner is never reached *)

Lemma r_bind_result {A B} (r : R A) (k : A → R B) :
  result (r ≫= k) = match result r with
                     | inl f => inl f
                     | inr a => result (k a)
                     end.
Proof. unfold mbind, R_bind, r_bind. by destruct (result r). Qed.

Lemma within_ret {A} (a : A) : within_bound (mret a : R A).
Proof. discriminate. Qed.

Lemma within_bind {A B} (r : R A) (k : A → R B) :
  within_bound r → (∀ a, result r = inr a → within_bound (k a)) →
  within_bound (r ≫= k).
Proof.
  unfold within_bound. rewrite r_bind_result.
  destruct (result r) as [f | a]; intros Hr Hk; [| by apply Hk].
  intros H. apply Hr. by injection H as ->.
Qed.

Lemma within_load m s a : within_bound (load m s a).
Proof.
  unfold within_bound, load.
  destruct (a <? 0); [discriminate |]. destruct (m !! Z.to_nat a); discriminate.
Qed.

Lemma within_memchr_from c a n bytes : within_bound (memchr_from c a n bytes).
Proof.
  revert a n. induction bytes as [|x bytes IH]; intros a n; cbn [memchr_from].
  - destruct (n <=? 0); discriminate.
  - destruct (n <=? 0); [discriminate |]. destruct (x =? c); [discriminate |].
    apply within_bind; [discriminate | intros; apply IH].
Qed.

Lemma within_memchr m s c n : within_bound (memchr m s c n).
Proof.
  unfold memchr. destruct (s <? 0).
  - destruct (to_size_t n =? 0); discriminate.
  - apply within_memchr_from.
Qed.

Lemma within_cstring_from a bytes : within_bound (cstring_from a bytes).
Proof.
  revert a. induction bytes as [|x bytes IH]; intros a; cbn [cstring_from].
  - discriminate.
  - destruct (x =? NUL); [discriminate |].
    apply within_bind; [discriminate | intros _ _].
    apply within_bind; [apply IH | intros; apply within_ret].
Qed.

Lemma within_cstring_at m a : within_bound (cstring_at m a).
Proof.
  unfold cstring_at. destruct (a <? 0); [discriminate | apply within_cstring_from].
Qed.

(** [memchr] only finds mapped bytes, at or after the address it was
    given. *)
Lemma memchr_from_found c a n bytes a' :
  result (memchr_from c a n bytes) = inr (Ptr a') →
  a ≤ a' < a + Z.of_nat (length bytes).
Proof.
  revert a n. induction bytes as [|x bytes IH]; intros a n; cbn [memchr_from].
  - destruct (n <=? 0); discriminate.
  - destruct (n <=? 0); [discriminate |]. destruct (x =? c).
    + cbn. intros H. injection H as <-. cbn [length]. lia.
    + rewrite r_bind_result. cbn [touch result]. intros H. apply IH in H.
      cbn [length]. lia.
Qed.

Lemma memchr_found m s c n a :
  result (memchr m s c n) = inr (Ptr a) →
  0 ≤ s ∧ s ≤ a < Z.of_nat (length m).
Proof.
  unfold memchr. destruct (s <? 0) eqn:Hs.
  - destruct (to_size_t n =? 0); discriminate.
  - apply Z.ltb_ge in Hs. intros H. apply memchr_from_found in H.
    rewrite length_drop in H. lia.
Qed.

Ltac within :=
  repeat first
    [ apply within_ret
    | apply within_load
    | apply within_memchr
    | apply within_cstring_at
    | apply within_bind; [| intros ? ?]
    | match goal with
      | |- within_bound (if ?b then _ else _) => destruct b
      | |- within_bound (match ?x with _ => _ end) => destruct x
      end ].

Section WithinBound.
Variable m : list byte.
Variables start end_ : Z.
Variable boundary : list byte.

Lemma within_boundary_loop fuel b cs ce :
  match b with
  | NULL => (1 ≤ fuel)%nat
  | Ptr a => 0 ≤ a < Z.of_nat (length m) ∧ Z.of_nat (length m) - a + 1 ≤ Z.of_nat fuel
  end →
  within_bound (boundary_loop m start end_ boundary fuel b cs ce).
Proof.
  revert b cs ce. induction fuel as [|fuel IH]; intros b cs ce Hb.
  - destruct b; lia.
  - cbn [boundary_loop]. destruct b as [|a]; [apply within_ret |].
    destruct (negb _); [apply within_ret |].
    apply within_bind; [unfold not_boundary_test; within |]. intros skip _.
    apply within_bind.
    { destruct skip; [apply within_ret |].
      apply within_bind; [unfold start_of_line_test; within |]. intros sol _.
      destruct sol; [unfold after_boundary; within | apply within_ret]. }
    intros [cs' ce'] _.
    apply within_bind; [apply within_memchr |]. intros b' Hb'.
    apply IH. destruct b' as [|a']; [lia |].
    apply memchr_found in Hb'. lia.
Qed.

Lemma within_header_loop fuel c cs :
  match c with
  | NULL => (1 ≤ fuel)%nat
  | Ptr a => 0 ≤ a < Z.of_nat (length m) ∧ Z.of_nat (length m) - a + 1 ≤ Z.of_nat fuel
  end →
  within_bound (header_loop m end_ fuel c cs).
Proof.
  revert c. induction fuel as [|fuel IH]; intros c Hc.
  - destruct c; lia.
  - cbn [header_loop]. destruct c as [|a]; [discriminate |].
    destruct (negb _); [apply within_ret |].
    apply within_bind; [apply within_load |]. intros x1 _.
    apply within_bind; [within |]. intros found _.
    destruct found; [apply within_ret |].
    apply within_bind; [apply within_memchr |]. intros c' Hc'.
    apply IH. destruct c' as [|a']; [lia |].
    apply memchr_found in Hc'. lia.
Qed.

(** X22. [find_content_part] terminates.  Whatever the memory and the
    pointers, each round of its two loops moves its pointer forward, so
    the scan ends with its two pointers or with a fault of the program,
    never at the bound the embedding puts on the loops. *)
Lemma find_content_part_within_bound :
  within_bound (find_content_part m start end_ boundary).
Proof.
  unfold find_content_part, iterations.
  apply within_bind; [apply within_memchr |]. intros b Hb.
  apply within_bind.
  { apply within_boundary_loop. destruct b as [|a]; [lia |].
    apply memchr_found in Hb. lia. }
  intros [cs ce] _. destruct cs as [|cs0]; [apply within_ret |].
  apply within_bind; [apply within_memchr |]. intros c Hc.
  apply within_bind; [| intros; apply within_ret].
  apply within_header_loop. destruct c as [|a]; [lia |].
  apply memchr_found in Hc. lia.
Qed.

End WithinBound.

(** * The announced address *)

Lemma get_address_loop_done inet_family l a :
  get_address_loop inet_family l true a = a.
Proof. by destruct l. Qed.

(** X1. [get_address] returns the first local address that parses as
    IPv4: no address before it in the list is IPv4.  When no address of
    the list is IPv4 the pointer it returns was never set. *)
Theorem get_address_first_ipv4 (inet_family : string → option GSocketFamily)
    (ips : list string) :
  match get_address inet_family ips with
  | Some a =>
      ∃ pre post, ips = pre ++ a :: post ∧
        inet_family a = Some G_SOCKET_FAMILY_IPV4 ∧
        Forall (λ x, inet_family x ≠ Some G_SOCKET_FAMILY_IPV4) pre
  | None => Forall (λ x, inet_family x ≠ Some G_SOCKET_FAMILY_IPV4) ips
  end.
Proof.
  unfold get_address. induction ips as [|data next IH]; cbn [get_address_loop].
  - constructor.
  - destruct (inet_family data) as [fam|] eqn:Hfam.
    + destruct fam;
        try (destruct (get_address_loop inet_family next false None) as [a|];
             [ destruct IH as (pre & post & -> & Ha & Hpre);
               exists (data :: pre), post; repeat split; [done |];
               constructor; [congruence | done]
             | constructor; [congruence | done] ]).
      rewrite get_address_loop_done. exists [], next. repeat split; [done | constructor].
    + destruct (get_address_loop inet_family next false None) as [a|].
      * destruct IH as (pre & post & -> & Ha & Hpre).
        exists (data :: pre), post. repeat split; [done |].
        constructor; [congruence | done].
      * constructor; [congruence | done].
Qed.

(** * The server object *)

Lemma destroy_handlers_signals handlers sig :
  sig ∈ URL_REMOVED <$> (map_to_list handlers).*1 ↔
  ∃ p, sig = URL_REMOVED p ∧ is_Some ((handlers : gmap string nat) !! p).
Proof.
  rewrite list_elem_of_fmap. split.
  - intros (p & -> & Hp). exists p. split; [done |].
    apply list_elem_of_fmap in Hp as ([p' e] & -> & Hpe).
    apply elem_of_map_to_list in Hpe. eauto.
  - intros (p & -> & [e He]). exists p. split; [done |].
    apply list_elem_of_fmap. exists (p, e). split; [done |].
    by apply elem_of_map_to_list.
Qed.

Lemma destroy_handlers_nodup (handlers : gmap string nat) :
  NoDup (URL_REMOVED <$> (map_to_list handlers).*1).
Proof.
  apply NoDup_fmap_2; [| apply NoDup_fst_map_to_list].
  intros p q H. by injection H.
Qed.


(** X3. The start callback.  With an interface name the server is not
    created by the call: the name is resolved first, and the callback is
    made once, when the resolution ends.  It is handed no error exactly
    when the status is OK, also when [soup_server_new] made no server
    or the listening socket is not connected; a server exists afterwards
    exactly when the status is OK and [soup_server_new] made one. *)
Theorem start_reports_resolution (srv : option SoupServer) (status : Z)
    (self : KmsHttpEPServerPrivate) (iface : string) :
  priv_server self = None →
  priv_iface self = Some iface →
  kms_http_ep_server_start_impl srv self
    = {| step_priv := self; step_callbacks := [];
         step_resolving := Some (iface, priv_port self) |} ∧
  ∃ err,
    step_callbacks (soup_address_callback srv status self) = [err] ∧
    (err = None ↔ status = SOUP_STATUS_OK) ∧
    (is_Some (priv_server (step_priv (soup_address_callback srv status self)))
       ↔ status = SOUP_STATUS_OK ∧ is_Some srv) ∧
    (status ≠ SOUP_STATUS_OK → step_priv (soup_address_callback srv status self) = self).
Proof.
  intros Hsrv Hiface. split.
  - unfold kms_http_ep_server_start_impl. by rewrite Hsrv, Hiface.
  - unfold soup_address_callback.
    destruct (status =? SOUP_STATUS_OK) eqn:Hok.
    + apply Z.eqb_eq in Hok. exists None. cbn [step_callbacks step_priv].
      split; [done |]. split; [done |]. split; [| done].
      unfold kms_http_ep_server_create_server.
      destruct srv as [srv|]; cbn [with_priv_server priv_iface priv_port priv_server].
      * split; [by eauto | intros _].
        destruct (negb (listener_connected srv)); [by eexists |].
        destruct (priv_iface self); cbn; destruct (_ =? 0); by eexists.
      * split; [by intros [? ?] | by intros [_ [? ?]]].
    + apply Z.eqb_neq in Hok.
      destruct (status =? SOUP_STATUS_CANCELLED);
        [| destruct (status =? SOUP_STATUS_CANT_RESOLVE)];
        eexists; cbn [step_callbacks step_priv];
        (split; [reflexivity |]); rewrite Hsrv;
        (split; [split; [discriminate | done] |]);
        (split; [split; [by intros [? ?] | by intros [? _]] | done]).
Qed.

(** X4. A server that was started and stopped cannot be started again:
    the stop keeps the server object, so a further start finds the
    server "already running", makes no callback and changes nothing;
    the table of handlers stays dropped. *)
Theorem stopped_server_does_not_restart (srv : SoupServer) (srv' : option SoupServer)
    (self : KmsHttpEPServerPrivate) :
  priv_server self = None →
  priv_iface self = None →
  is_Some (priv_handlers self) →
  step_callbacks (kms_http_ep_server_start_impl (Some srv) self) = [None] ∧
  ∃ stopped sigs,
    kms_http_ep_server_stop_impl
      (step_priv (kms_http_ep_server_start_impl (Some srv) self))
      = Some (stopped, sigs) ∧
    server_running <$> priv_server stopped = Some false ∧
    priv_handlers stopped = None ∧
    kms_http_ep_server_start_impl srv' stopped
      = {| step_priv := stopped; step_callbacks := []; step_resolving := None |}.
Proof.
  intros Hsrv Hiface [handlers Hh].
  unfold kms_http_ep_server_start_impl at 1 2. rewrite Hsrv, Hiface.
  cbn [step_callbacks step_priv]. split; [done |].
  assert (Hs : priv_server (kms_http_ep_server_create_server (Some srv) self)
               = Some (soup_server_run_async srv)).
  { unfold kms_http_ep_server_create_server. cbn [with_priv_server priv_iface priv_port].
    rewrite Hiface. cbn [with_priv_iface priv_port].
    destruct (negb _); [done |]. by destruct (_ =? 0). }
  assert (Ht : priv_handlers (kms_http_ep_server_create_server (Some srv) self)
               = Some handlers).
  { unfold kms_http_ep_server_create_server. cbn [with_priv_server priv_iface priv_port].
    rewrite Hiface. cbn [with_priv_iface priv_port].
    destruct (negb _); [done |]. by destruct (_ =? 0). }
  unfold kms_http_ep_server_stop_impl, kms_http_ep_server_destroy_handlers.
  rewrite Hs, Ht. cbn. do 2 eexists. split; [reflexivity |].
  split; [done |]. split; [done |].
  unfold kms_http_ep_server_start_impl. done.
Qed.

(** X23. The end of the object.  Finalizing a server whose table is
    still there emits url-removed once for every registered path and
    drops the table, the interface and the announced address; after a
    stop the table is gone already, and dispose and finalize emit
    nothing more, so that no path is announced twice. *)
Theorem finalize_announces_remaining_paths (self : KmsHttpEPServerPrivate)
    (handlers : gmap string nat) :
  priv_handlers self = Some handlers →
  (∃ final sigs,
     kms_http_ep_server_finalize (kms_http_ep_server_dispose self) = Some (final, sigs) ∧
     (∀ sig, sig ∈ sigs ↔ ∃ p, sig = URL_REMOVED p ∧ is_Some (handlers !! p)) ∧
     NoDup sigs ∧
     final = {| priv_handlers := None; priv_server := None; priv_announcedAddr := None;
                priv_iface := None; priv_port := priv_port self |}) ∧
  (∀ srv, priv_server self = Some srv →
     ∃ stopped sigs,
       kms_http_ep_server_stop_impl self = Some (stopped, sigs) ∧
       kms_http_ep_server_finalize (kms_http_ep_server_dispose stopped)
         = Some ({| priv_handlers := None; priv_server := None;
                    priv_announcedAddr := None; priv_iface := None;
                    priv_port := priv_port self |}, [])).
Proof.
  intros Hh. split.
  - exists {| priv_handlers := None; priv_server := None; priv_announcedAddr := None;
              priv_iface := None; priv_port := priv_port self |},
      (URL_REMOVED <$> (map_to_list handlers).*1).
    split.
    + unfold kms_http_ep_server_finalize, kms_http_ep_server_dispose,
        kms_http_ep_server_destroy_handlers.
      destruct (priv_server self) eqn:Hsrv; cbn; rewrite Hh;
        unfold with_priv_handlers, with_priv_announcedAddr, with_priv_iface,
          with_priv_server; cbn; rewrite ?Hsrv; reflexivity.
    + split; [apply destroy_handlers_signals |].
      split; [apply destroy_handlers_nodup | reflexivity].
  - intros srv Hsrv.
    unfold kms_http_ep_server_stop_impl, kms_http_ep_server_destroy_handlers.
    rewrite Hsrv, Hh. cbn. do 2 eexists. split; reflexivity.
Qed.

(** X5. Properties.  What [set_property] stores is what [get_property]
    reads back, an id that is no property changes nothing, and an
    announced address that is left out is replaced by the first local
    IPv4 address. *)
Theorem announced_address_defaults_to_local
    (inet_family : string → option GSocketFamily) (ips : list string)
    (self : KmsHttpEPServerPrivate) (old : GValue) :
  let set := kms_http_ep_server_set_property (get_address inet_family ips) in
  (∀ n, kms_http_ep_server_get_property PROP_KMS_HTTP_EP_SERVER_PORT old
          (set PROP_KMS_HTTP_EP_SERVER_PORT (GInt n) self) = GInt n) ∧
  (∀ i, kms_http_ep_server_get_property PROP_KMS_HTTP_EP_SERVER_INTERFACE old
          (set PROP_KMS_HTTP_EP_SERVER_INTERFACE (GString i) self) = GString i) ∧
  (∀ a, kms_http_ep_server_get_property PROP_KMS_HTTP_EP_SERVER_ANNOUNCED_ADDRESS old
          (set PROP_KMS_HTTP_EP_SERVER_ANNOUNCED_ADDRESS (GString (Some a)) self)
          = GString (Some a)) ∧
  (∀ pre a post,
     ips = pre ++ a :: post →
     inet_family a = Some G_SOCKET_FAMILY_IPV4 →
     Forall (λ x, inet_family x ≠ Some G_SOCKET_FAMILY_IPV4) pre →
     kms_http_ep_server_get_property PROP_KMS_HTTP_EP_SERVER_ANNOUNCED_ADDRESS old
       (set PROP_KMS_HTTP_EP_SERVER_ANNOUNCED_ADDRESS (GString None) self)
       = GString (Some a)) ∧
  (∀ id v, id < 1 ∨ 3 < id →
     set id v self = self ∧ kms_http_ep_server_get_property id old self = old).
Proof.
  intros set. split; [done |]. split; [done |]. split; [done |]. split.
  - intros pre a post -> Ha Hpre.
    unfold set, kms_http_ep_server_set_property, kms_http_ep_server_get_property.
    cbn. f_equal. unfold get_address.
    induction Hpre as [|x pre Hx _ IH]; cbn [app get_address_loop].
    + rewrite Ha. apply get_address_loop_done.
    + destruct (inet_family x) as [[]|]; done.
  - intros id v Hid.
    unfold set, kms_http_ep_server_set_property, kms_http_ep_server_get_property,
      PROP_KMS_HTTP_EP_SERVER_PORT, PROP_KMS_HTTP_EP_SERVER_INTERFACE,
      PROP_KMS_HTTP_EP_SERVER_ANNOUNCED_ADDRESS.
    destruct (id =? 1) eqn:H1; [lia |]. destruct (id =? 2) eqn:H2; [lia |].
    destruct (id =? 3) eqn:H3; [lia |]. done.
Qed.

(** * The scanner on chunks without a boundary line *)

Lemma r_bind_reads {A B} (r : R A) (k : A → R B) a :
  result r = inr a → reads (r ≫= k) = reads r ++ reads (k a).
Proof. unfold mbind, R_bind, r_bind. by intros ->. Qed.

Lemma r_bind_result_inr {A B} (r : R A) (k : A → R B) a :
  result r = inr a → result (r ≫= k) = result (k a).
Proof. unfold mbind, R_bind, r_bind. by intros ->. Qed.

(** [memchr] over bytes that are all there reads only them, and finds
    nothing or one of them. *)
Lemma memchr_from_in_range c a n bytes :
  n ≤ Z.of_nat (length bytes) →
  Forall (λ e, a ≤ snd e < a + n) (reads (memchr_from c a n bytes)) ∧
  (result (memchr_from c a n bytes) = inr NULL ∨
   ∃ a', result (memchr_from c a n bytes) = inr (Ptr a') ∧ a ≤ a' < a + n).
Proof.
  revert a n. induction bytes as [|x bytes IH]; intros a n Hn; cbn [memchr_from].
  - cbn [length] in Hn. rewrite (proj2 (Z.leb_le n 0)) by lia.
    split; [constructor | by left].
  - destruct (n <=? 0) eqn:Hle; [split; [constructor | by left] |].
    apply Z.leb_gt in Hle. destruct (x =? c).
    + cbn [reads result]. split.
      * constructor; [cbn; lia | constructor].
      * right. exists a. split; [done | lia].
    + cbn [length] in Hn.
      destruct (IH (a + 1) (n - 1)) as [Hreads Hres]; [lia |].
      rewrite (r_bind_reads (touch AtMemchr a) _ tt eq_refl),
        (r_bind_result_inr (touch AtMemchr a) _ tt eq_refl).
      cbn [touch reads]. split.
      * constructor; [cbn; lia |].
        eapply Forall_impl; [exact Hreads |]. cbn. intros e He. lia.
      * destruct Hres as [Hnull | (a' & Ha' & Hr)]; [by left |].
        right. exists a'. split; [done | lia].
Qed.

Lemma memchr_from_absent c a n bytes :
  n ≤ Z.of_nat (length bytes) →
  Forall (λ x, x ≠ c) (take (Z.to_nat n) bytes) →
  result (memchr_from c a n bytes) = inr NULL.
Proof.
  revert a n. induction bytes as [|x bytes IH]; intros a n Hn Hall; cbn [memchr_from].
  - cbn [length] in Hn. by rewrite (proj2 (Z.leb_le n 0)) by lia.
  - destruct (n <=? 0) eqn:Hle; [done |]. apply Z.leb_gt in Hle.
    cbn [length] in Hn.
    replace (Z.to_nat n) with (S (Z.to_nat (n - 1))) in Hall by lia.
    cbn [take] in Hall. apply Forall_cons in Hall as [Hx Hall].
    rewrite (proj2 (Z.eqb_neq x c) Hx).
    rewrite (r_bind_result_inr (touch AtMemchr a) _ tt eq_refl). apply IH; [lia | done].
Qed.

Section Chunk.
Variable m : list byte.
Variables start end_ : Z.
Hypothesis Hstart : 0 ≤ start ≤ end_.
Hypothesis Hend : end_ ≤ Z.of_nat (length m).
Hypothesis Hsize : Z.of_nat (length m) < 2 ^ 64.

Lemma chunk_size : to_size_t (end_ - start) = end_ - start.
Proof. unfold to_size_t. apply Z.mod_small. lia. Qed.

(** The first [memchr] of the scanner stays in the chunk. *)
Lemma memchr_chunk c :
  Forall (λ e, in_chunk start end_ e = true) (reads (memchr m start c (end_ - start))) ∧
  (result (memchr m start c (end_ - start)) = inr NULL ∨
   ∃ a, result (memchr m start c (end_ - start)) = inr (Ptr a) ∧ start ≤ a < end_).
Proof.
  unfold memchr. rewrite (proj2 (Z.ltb_ge start 0)) by lia. rewrite chunk_size.
  destruct (memchr_from_in_range c start (end_ - start) (drop (Z.to_nat start) m))
    as [Hreads Hres].
  { rewrite length_drop. lia. }
  split.
  - eapply Forall_impl; [exact Hreads |]. intros e He. cbn beta in He. unfold in_chunk.
    apply andb_true_intro. split; [apply Z.leb_le | apply Z.ltb_lt]; lia.
  - destruct Hres as [Hnull | (a & Ha & Hr)]; [by left |].
    right. exists a. split; [done | lia].
Qed.

Lemma memchr_chunk_absent c :
  Forall (λ x, x ≠ c) (take (Z.to_nat (end_ - start)) (drop (Z.to_nat start) m)) →
  result (memchr m start c (end_ - start)) = inr NULL.
Proof.
  intros Hall. unfold memchr. rewrite (proj2 (Z.ltb_ge start 0)) by lia.
  rewrite chunk_size. apply memchr_from_absent; [| done].
  rewrite length_drop. lia.
Qed.

End Chunk.

(** X6. A chunk that holds no '-' is left whole by the scanner: both
    pointers stay null, and every byte the scanner read lies in the
    chunk. *)
Theorem find_content_part_without_dash (m : list byte) (start end_ : Z)
    (boundary : list byte) :
  0 ≤ start ≤ end_ →
  end_ ≤ Z.of_nat (length m) →
  Z.of_nat (length m) < 2 ^ 64 →
  Forall (λ x, x ≠ DASH) (take (Z.to_nat (end_ - start)) (drop (Z.to_nat start) m)) →
  result (find_content_part m start end_ boundary) = inr (NULL, NULL) ∧
  Forall (λ e, in_chunk start end_ e = true)
         (reads (find_content_part m start end_ boundary)).
Proof.
  intros Hstart Hend Hsize Hall.
  pose proof (memchr_chunk_absent m start end_ Hstart Hend Hsize DASH Hall) as Hnull.
  destruct (memchr_chunk m start end_ Hstart Hend Hsize DASH) as [Hreads _].
  unfold find_content_part, iterations.
  rewrite (r_bind_result_inr _ _ _ Hnull), (r_bind_reads _ _ _ Hnull).
  cbn [boundary_loop]. split; [reflexivity |].
  cbn. by rewrite app_nil_r.
Qed.

(** X7. A chunk that is too short to hold a boundary line with the two
    bytes that follow it, [boundary_len + 4] bytes at most, is left
    whole as well, whatever it holds, and is not read outside. *)
Theorem find_content_part_short_chunk (m : list byte) (start end_ : Z)
    (boundary : list byte) :
  0 ≤ start ≤ end_ →
  end_ ≤ Z.of_nat (length m) →
  Z.of_nat (length m) < 2 ^ 64 →
  end_ - start ≤ GLib.g_utf8_strlen boundary + 4 →
  result (find_content_part m start end_ boundary) = inr (NULL, NULL) ∧
  Forall (λ e, in_chunk start end_ e = true)
         (reads (find_content_part m start end_ boundary)).
Proof.
  intros Hstart Hend Hsize Hshort.
  destruct (memchr_chunk m start end_ Hstart Hend Hsize DASH)
    as [Hreads [Hnull | (a & Ha & Hr)]].
  - unfold find_content_part, iterations.
    rewrite (r_bind_result_inr _ _ _ Hnull), (r_bind_reads _ _ _ Hnull).
    cbn [boundary_loop]. split; [reflexivity |]. cbn. by rewrite app_nil_r.
  - unfold find_content_part, iterations.
    rewrite (r_bind_result_inr _ _ _ Ha), (r_bind_reads _ _ _ Ha).
    cbn [boundary_loop].
    rewrite (proj2 (Z.ltb_ge (a + GLib.g_utf8_strlen boundary + 4) end_)) by lia.
    cbn [negb]. split; [reflexivity |]. cbn. by rewrite app_nil_r.
Qed.

(** * The functions of the source on a known state *)

Ltac data_simpl :=
  repeat first
    [ rewrite lookup_insert_eq
    | rewrite lookup_insert_ne by done
    | rewrite lookup_delete_eq
    | rewrite lookup_delete_ne by done
    | progress proj_simpl ].

(** Run an unfolded computation: projections, lookups in updated tables
    and the lookups known in the context. *)
Ltac mexec :=
  repeat first
    [ progress proj_simpl
    | match goal with
      | H : ?t !! _ = Some _ |- context [table_is_null ?t] =>
          rewrite (table_lookup_present _ _ _ H)
      end
    | rewrite lookup_insert_eq
    | rewrite lookup_insert_ne by done
    | rewrite lookup_delete_eq
    | rewrite lookup_delete_ne by done
    | match goal with H : ?l = _ |- context [?l] => rewrite H end ].

(** Normalise nested record updates, innermost first. *)
Ltac norm :=
  cbv beta iota delta
    [handlers elements messages sources next_handler_id next_source_id emitted
     announcedAddr with_handlers with_elements with_messages with_sources
     with_next_handler_id with_next_source_id with_emitted
     method uri_path request_content_type request_cookies status_code
     response_headers response_chunked response_body response_complete
     request_accumulate paused msg_data msg_connections
     with_status with_response_headers with_response_chunked with_response_body
     with_response_complete with_request_accumulate with_paused with_msg_data
     with_msg_connections
     is_httpendpoint el_data el_start el_connections el_pushed el_eos
     with_el_data with_el_start with_el_connections with_el_pushed with_el_eos].

Lemma dispatch_get_state msg ep s m0 m e :
  messages s !! msg = Some m →
  method m0 = GET →
  elements s !! ep = Some e →
  ready e →
  dispatch_allowed msg ep m0 s
    = inr (tt, {| handlers := handlers s;
                  elements := <[ep := serving_get (next_handler_id s) msg e]> (elements s);
                  messages := <[msg := served_get (next_handler_id s) ep msg m]> (messages s);
                  sources := timer_removed e (sources s);
                  next_handler_id := S (S (S (next_handler_id s)));
                  next_source_id := next_source_id s;
                  emitted := emitted s ++ [ACTION_REQUESTED (uri_path m0) ACTION_GET];
                  announcedAddr := announcedAddr s |}).
Proof.
  intros Hm Hmeth He [Hunbound [Hnone | [id Hid]]].
  - unfold dispatch_allowed, dispatch_method. rewrite Hmeth. clear Hmeth.
    unfold timer_removed, served_get, serving_get. rewrite Hnone.
    rewrite (delete_id _ _ Hnone).
    munfold. mexec. norm. rewrite !insert_insert_eq. reflexivity.
  - unfold dispatch_allowed, dispatch_method. rewrite Hmeth. clear Hmeth.
    unfold timer_removed, served_get, serving_get. rewrite Hid.
    munfold. mexec. norm. rewrite !insert_insert_eq. reflexivity.
Qed.

(** The session check, first request and later requests. *)
Lemma session_first_state now rnd msg ep s m e lifetime :
  messages s !! msg = Some m →
  elements s !! ep = Some e →
  el_data e !! KEY_COOKIE = None →
  el_data e !! KEY_PARAM_LIFETIME = Some (QUint lifetime) →
  kms_http_ep_server_manage_cookie_session now rnd ep msg (uri_path m) s
    = inr (true, {| handlers := handlers s;
                    elements := <[ep := session_opened now rnd s m lifetime e]> (elements s);
                    messages := <[msg := session_announced now rnd s lifetime m]> (messages s);
                    sources := sources s;
                    next_handler_id := next_handler_id s;
                    next_source_id := next_source_id s;
                    emitted := emitted s;
                    announcedAddr := announcedAddr s |}).
Proof.
  intros Hm He Hc Hl. unfold session_opened, session_announced, session_cookie_of.
  munfold. mexec. norm. reflexivity.
Qed.

Lemma session_known_state now rnd msg ep s m e cookie path :
  messages s !! msg = Some m →
  elements s !! ep = Some e →
  el_data e !! KEY_COOKIE = Some (QCookie cookie) →
  kms_http_ep_server_manage_cookie_session now rnd ep msg path s
    = inr (kms_http_ep_server_check_cookie now cookie m, s).
Proof. intros Hm He Hc. munfold. mexec. reflexivity. Qed.

(** An accepted GET, from the arrival of its headers. *)
Lemma got_headers_get_state now rnd msg s m ep e :
  registry_ok s →
  messages s !! msg = Some m →
  method m = GET →
  handlers s !! uri_path m = Some ep →
  elements s !! ep = Some e →
  ready e →
  session_grants now e m →
  ∃ m1 e1,
    ((m1 = m ∧ e1 = e ∧ ∃ cookie, el_data e !! KEY_COOKIE = Some (QCookie cookie)) ∨
     (∃ lifetime, el_data e !! KEY_PARAM_LIFETIME = Some (QUint lifetime) ∧
                  el_data e !! KEY_COOKIE = None ∧
                  m1 = session_announced now rnd s lifetime m ∧
                  e1 = session_opened now rnd s m lifetime e)) ∧
    got_headers_handler now rnd msg s
      = inr (tt, {| handlers := handlers s;
                    elements := <[ep := serving_get (next_handler_id s) msg e1]> (elements s);
                    messages := <[msg := served_get (next_handler_id s) ep msg m1]> (messages s);
                    sources := timer_removed e (sources s);
                    next_handler_id := S (S (S (next_handler_id s)));
                    next_source_id := next_source_id s;
                    emitted := emitted s ++ [ACTION_REQUESTED (uri_path m) ACTION_GET];
                    announcedAddr := announcedAddr s |}).
Proof.
  intros Hok Hm Hmeth Hp He Hready [Hnone | (cookie & Hc & Hcheck)].
  - destruct (has_params_lifetime _ _ _ (Hok _ _ Hp) He) as [lifetime Hl].
    exists (session_announced now rnd s lifetime m), (session_opened now rnd s m lifetime e).
    split; [right; eauto |].
    rewrite (got_headers_handler_allowed _ _ _ _ _ _ _ Hm Hp
               (session_first_state now rnd _ _ _ _ _ _ Hm He Hnone Hl)).
    erewrite dispatch_get_state; [| proj_simpl; apply lookup_insert_eq | done
                                  | proj_simpl; apply lookup_insert_eq |].
    + proj_simpl. rewrite !insert_insert_eq.
      unfold timer_removed, session_opened. proj_simpl.
      rewrite lookup_insert_ne by done. reflexivity.
    + destruct Hready as [Hunbound Htimeout]. unfold ready, session_opened. proj_simpl.
      rewrite !lookup_insert_ne by done. done.
  - exists m, e. split; [left; eauto |].
    pose proof (session_known_state now rnd _ _ _ _ _ _ (uri_path m) Hm He Hc) as Hs.
    rewrite Hcheck in Hs.
    rewrite (got_headers_handler_allowed _ _ _ _ _ _ _ Hm Hp Hs).
    by apply dispatch_get_state.
Qed.

Section FinishedGet.
Variables (now : Z) (msg ep : nat) (s : State) (m : SoupMessage) (e : GstElement).
Variables (b : bool) (i1 i2 : nat) (cookie : SoupCookie).
Hypothesis Hm : messages s !! msg = Some m.
Hypothesis Hfin : msg_data m !! KEY_FINISHED = Some (QBool b).
Hypothesis Hserv : msg_data m !! KEY_HTTP_EP_SERVER = Some QServer.
Hypothesis Hp : handlers s !! uri_path m = Some ep.
Hypothesis Hi1 : msg_data m !! KEY_NEW_SAMPLE_HANDLER_ID = Some (QUlong i1).
Hypothesis Hi2 : msg_data m !! KEY_EOS_HANDLER_ID = Some (QUlong i2).
Hypothesis He : elements s !! ep = Some e.
Hypothesis Hc : el_data e !! KEY_COOKIE = Some (QCookie cookie).

Lemma finished_get_expired_state :
  cookie_has_expired now cookie = true →
  finished_get_processing now msg ep s
    = inr (tt, {| handlers := handlers s;
                  elements := <[ep := released_get i1 i2 e]> (elements s);
                  messages := <[msg := finished_message m]> (messages s);
                  sources := sources s;
                  next_handler_id := next_handler_id s;
                  next_source_id := next_source_id s;
                  emitted := emitted s ++ [URL_EXPIRED (uri_path m)];
                  announcedAddr := announcedAddr s |}).
Proof.
  intros Hpast. unfold released_get, finished_message.
  munfold. mexec. norm. rewrite !insert_insert_eq. reflexivity.
Qed.

Lemma finished_get_live_state timeout :
  cookie_has_expired now cookie = false →
  el_data e !! KEY_PARAM_TIMEOUT = Some (QUint timeout) →
  finished_get_processing now msg ep s
    = inr (tt, {| handlers := handlers s;
                  elements :=
                    <[ep := timer_armed (next_source_id s) (released_get i1 i2 e)]>
                      (elements s);
                  messages := <[msg := finished_message m]> (messages s);
                  sources :=
                    <[next_source_id s := expiry_source now msg cookie timeout]> (sources s);
                  next_handler_id := next_handler_id s;
                  next_source_id := next_source_id s + 1;
                  emitted := emitted s;
                  announcedAddr := announcedAddr s |}).
Proof.
  intros Hlive Ht. unfold timer_armed, released_get, finished_message, expiry_source.
  munfold. mexec. norm. rewrite !insert_insert_eq. reflexivity.
Qed.

End FinishedGet.

Lemma filter_replaced_header name value hs :
  filter (λ h : string * string, h.1 = name) (soup_message_headers_replace name value hs)
    = [(name, value)].
Proof.
  unfold soup_message_headers_replace. rewrite filter_app.
  replace (filter (λ h : string * string, h.1 = name)
             (filter (λ h : string * string, h.1 ≠ name) hs)) with (@nil (string * string)).
  - rewrite filter_cons_True by done. by rewrite filter_nil.
  - induction hs as [|h hs IH]; [done |].
    destruct (decide (h.1 = name)) as [Heq | Hne].
    + by rewrite (filter_cons_False _ h hs) by (intros H; by apply H).
    + rewrite (filter_cons_True _ h hs) by done.
      by rewrite filter_cons_False by done.
Qed.

Lemma drop_connection_fresh id l :
  Forall (λ c, conn_id c ≠ id) l → drop_connection id l = l.
Proof.
  unfold drop_connection. induction 1 as [|c l Hc _ IH]; [done |].
  rewrite filter_cons_True by done. by rewrite IH.
Qed.

Lemma drop_connection_last id l sig cb :
  Forall (λ c, conn_id c ≠ id) l →
  drop_connection id (l ++ [{| conn_id := id; conn_signal := sig; conn_callback := cb |}]) = l.
Proof.
  intros Hl. unfold drop_connection. rewrite filter_app.
  rewrite filter_cons_False by (intros H; by apply H).
  rewrite filter_nil, app_nil_r. by apply drop_connection_fresh.
Qed.

(** The two connections an accepted GET makes on the element are the
    two its completion removes. *)
Lemma drop_get_connections n msg l :
  Forall (λ c, (conn_id c < n)%nat) l →
  drop_connection (S (S n)) (drop_connection (S n)
    ((l ++ [{| conn_id := S n; conn_signal := "new-sample";
               conn_callback := new_sample_handler_cb |}])
       ++ [{| conn_id := S (S n); conn_signal := "eos";
              conn_callback := get_recv_eos_cb msg |}])) = l.
Proof.
  intros Hl.
  assert (H1 : drop_connection (S n)
    ((l ++ [{| conn_id := S n; conn_signal := "new-sample";
               conn_callback := new_sample_handler_cb |}])
       ++ [{| conn_id := S (S n); conn_signal := "eos";
              conn_callback := get_recv_eos_cb msg |}])
    = l ++ [{| conn_id := S (S n); conn_signal := "eos";
               conn_callback := get_recv_eos_cb msg |}]).
  { unfold drop_connection. rewrite filter_app.
    rewrite (filter_cons_True _ {| conn_id := S (S n) |}) by (cbn; lia).
    rewrite filter_nil. f_equal.
    apply drop_connection_last. eapply Forall_impl; [exact Hl |]. cbn. lia. }
  rewrite H1. apply drop_connection_last.
  eapply Forall_impl; [exact Hl |]. cbn. lia.
Qed.

(** What the session check leaves of the message and the element. *)
Lemma accepted_objects now rnd s m e m1 e1 :
  ((m1 = m ∧ e1 = e ∧ ∃ cookie, el_data e !! KEY_COOKIE = Some (QCookie cookie)) ∨
   (∃ lifetime, el_data e !! KEY_PARAM_LIFETIME = Some (QUint lifetime) ∧
                el_data e !! KEY_COOKIE = None ∧
                m1 = session_announced now rnd s lifetime m ∧
                e1 = session_opened now rnd s m lifetime e)) →
  request_view m1 = request_view m ∧
  msg_data m1 = msg_data m ∧ msg_connections m1 = msg_connections m ∧
  response_body m1 = response_body m ∧
  el_connections e1 = el_connections e ∧ el_pushed e1 = el_pushed e ∧
  el_eos e1 = el_eos e ∧
  (∀ k, k ≠ KEY_COOKIE → el_data e1 !! k = el_data e !! k) ∧
  (∃ cookie, el_data e1 !! KEY_COOKIE = Some (QCookie cookie)).
Proof.
  intros [(-> & -> & Hc) | (lifetime & Hl & Hnone & -> & ->)].
  - repeat split; done.
  - unfold session_announced, session_opened. proj_simpl.
    repeat split; try done.
    + intros k Hk. by rewrite lookup_insert_ne.
    + eexists. apply lookup_insert_eq.
Qed.

(** X8. An accepted GET.  A GET to a registered path whose element is
    ready, and which passes the session check, is answered 200 with
    content type video/webm and chunked encoding; the message is marked
    unfinished and bound to the element, the element is started, the
    finished handler is connected on the message and the new-sample and
    eos handlers on the element, and action-requested (path, Get) is
    emitted, once. *)
Theorem get_request_is_served (now rnd : Z) (msg ep : nat) (s : State)
    (m : SoupMessage) (e : GstElement) :
  registry_ok s →
  messages s !! msg = Some m →
  method m = GET →
  handlers s !! uri_path m = Some ep →
  elements s !! ep = Some e →
  ready e →
  session_grants now e m →
  ∃ s' m' e',
    got_headers_handler now rnd msg s = inr (tt, s') ∧
    messages s' !! msg = Some m' ∧ elements s' !! ep = Some e' ∧
    status_code m' = SOUP_STATUS_OK ∧
    filter (λ h : string * string, h.1 = "Content-Type") (response_headers m')
      = [("Content-Type", "video/webm")] ∧
    response_chunked m' = true ∧
    msg_data m' !! KEY_FINISHED = Some (QBool false) ∧
    el_data e' !! KEY_MESSAGE = Some (QMessage msg) ∧
    el_start e' = true ∧
    msg_connections m'
      = msg_connections m
          ++ [{| conn_id := next_handler_id s; conn_signal := "finished";
                 conn_callback := finished_get_processing_cb ep |}] ∧
    el_connections e'
      = el_connections e
          ++ [{| conn_id := S (next_handler_id s); conn_signal := "new-sample";
                 conn_callback := new_sample_handler_cb |};
              {| conn_id := S (S (next_handler_id s)); conn_signal := "eos";
                 conn_callback := get_recv_eos_cb msg |}] ∧
    emitted s' = emitted s ++ [ACTION_REQUESTED (uri_path m) ACTION_GET].
Proof.
  intros Hok Hm Hmeth Hp He Hready Hgrants.
  destruct (got_headers_get_state now rnd _ _ _ _ _ Hok Hm Hmeth Hp He Hready Hgrants)
    as (m1 & e1 & Hadm & Hrun).
  destruct (accepted_objects _ _ _ _ _ _ _ Hadm)
    as (_ & _ & Hmc & _ & Hec & _).
  do 3 eexists. split; [exact Hrun |]. proj_simpl.
  split; [apply lookup_insert_eq |]. split; [apply lookup_insert_eq |].
  unfold served_get, serving_get. proj_simpl.
  split; [done |]. split; [apply filter_replaced_header |]. split; [done |].
  split; [by data_simpl |].
  split; [apply lookup_insert_eq |]. split; [done |].
  split; [by rewrite Hmc |]. split; [| done].
  rewrite Hec. by rewrite <- app_assoc.
Qed.

(** X9. The cycle of a GET.  When the message of an accepted GET
    finishes, it is marked finished, the element is stopped and released
    and has the connections it had before the request: it is ready for
    the next request.  The registry is as it was. *)
Theorem get_cycle_releases_element (now rnd now' : Z) (msg ep : nat) (s : State)
    (m : SoupMessage) (e : GstElement) :
  registry_ok s →
  messages s !! msg = Some m →
  method m = GET →
  msg_connections m = [] →
  handlers s !! uri_path m = Some ep →
  elements s !! ep = Some e →
  ready e →
  session_grants now e m →
  Forall (λ c, (conn_id c < next_handler_id s)%nat) (el_connections e) →
  ∃ s1 s2 m2 e2,
    got_headers_handler now rnd msg s = inr (tt, s1) ∧
    run_event (EvFinished now' msg) s1 = inr (tt, s2) ∧
    messages s2 !! msg = Some m2 ∧ elements s2 !! ep = Some e2 ∧
    msg_data m2 !! KEY_FINISHED = Some (QBool true) ∧
    el_start e2 = false ∧
    el_connections e2 = el_connections e ∧
    ready e2 ∧
    handlers s2 = handlers s.
Proof.
  intros Hok Hm Hmeth Hmc Hp He Hready Hgrants Hfresh.
  destruct (got_headers_get_state now rnd _ _ _ _ _ Hok Hm Hmeth Hp He Hready Hgrants)
    as (m1 & e1 & Hadm & Hrun).
  destruct (accepted_objects _ _ _ _ _ _ _ Hadm)
    as (Hview & Hmd & Hmc1 & _ & Hec & _ & _ & Hed & [cookie Hc]).
  destruct (has_params_timeout _ _ _ (Hok _ _ Hp) He) as [timeout Ht].
  set (n := next_handler_id s) in *.
  set (s1 := {| handlers := handlers s;
                elements := <[ep := serving_get n msg e1]> (elements s);
                messages := <[msg := served_get n ep msg m1]> (messages s);
                sources := timer_removed e (sources s);
                next_handler_id := S (S (S n));
                next_source_id := next_source_id s;
                emitted := emitted s ++ [ACTION_REQUESTED (uri_path m) ACTION_GET];
                announcedAddr := announcedAddr s |}) in *.
  assert (Hm1 : messages s1 !! msg = Some (served_get n ep msg m1))
    by (unfold s1; proj_simpl; apply lookup_insert_eq).
  assert (He1 : elements s1 !! ep = Some (serving_get n msg e1))
    by (unfold s1; proj_simpl; apply lookup_insert_eq).
  assert (Hpath : uri_path (served_get n ep msg m1) = uri_path m).
  { unfold served_get. proj_simpl. unfold request_view in Hview. congruence. }
  assert (Hev : run_event (EvFinished now' msg) s1
                = (finished_get_processing now' msg ep;; mret tt) s1).
  { cbn [run_event]. rewrite (bind_inr _ _ _ _ _ (get_msg_ok _ _ _ Hm1)).
    unfold served_get at 1. proj_simpl. rewrite Hmc1, Hmc. cbn [app run_finished].
    proj_simpl. rewrite bool_decide_eq_true_2 by done. reflexivity. }
  assert (Hcookie : el_data (serving_get n msg e1) !! KEY_COOKIE = Some (QCookie cookie)).
  { unfold serving_get. proj_simpl. by rewrite lookup_insert_ne, lookup_delete_ne by done. }
  assert (Htimeout : el_data (serving_get n msg e1) !! KEY_PARAM_TIMEOUT
                     = Some (QUint timeout)).
  { unfold serving_get. proj_simpl. rewrite lookup_insert_ne, lookup_delete_ne by done.
    by rewrite Hed by done. }
  assert (Hconn : drop_connection (S (S n)) (drop_connection (S n)
                    (el_connections (serving_get n msg e1))) = el_connections e).
  { unfold serving_get. proj_simpl. rewrite Hec. by apply drop_get_connections. }
  exists s1.
  destruct (cookie_has_expired now' cookie) eqn:Hpast.
  - pose proof (finished_get_expired_state now' msg ep s1 _ (serving_get n msg e1) false (S n) (S (S n)) cookie
                  Hm1) as Hfin.
    rewrite Hpath in Hfin.
    specialize (Hfin ltac:(unfold served_get; by data_simpl)
                     ltac:(unfold served_get; by data_simpl)
                     Hp
                     ltac:(unfold served_get; by data_simpl)
                     ltac:(unfold served_get; by data_simpl)
                     He1 Hcookie Hpast).
    do 3 eexists. split; [exact Hrun |].
    split; [rewrite Hev; rewrite (bind_inr _ _ _ _ _ Hfin); reflexivity |].
    proj_simpl. split; [apply lookup_insert_eq |]. split; [apply lookup_insert_eq |].
    unfold finished_message, released_get. proj_simpl.
    split; [apply lookup_insert_eq |]. split; [done |]. split; [exact Hconn |].
    split; [| done]. unfold ready, serving_get. proj_simpl.
    split; [apply lookup_delete_eq |]. left.
    by rewrite lookup_delete_ne, lookup_insert_ne, lookup_delete_eq by done.
  - pose proof (finished_get_live_state now' msg ep s1 _ (serving_get n msg e1) false (S n) (S (S n)) cookie
                  Hm1) as Hfin.
    rewrite Hpath in Hfin.
    specialize (Hfin ltac:(unfold served_get; by data_simpl)
                     ltac:(unfold served_get; by data_simpl)
                     Hp
                     ltac:(unfold served_get; by data_simpl)
                     ltac:(unfold served_get; by data_simpl)
                     He1 Hcookie timeout Hpast Htimeout).
    do 3 eexists. split; [exact Hrun |].
    split; [rewrite Hev; rewrite (bind_inr _ _ _ _ _ Hfin); reflexivity |].
    proj_simpl. split; [apply lookup_insert_eq |]. split; [apply lookup_insert_eq |].
    unfold finished_message, timer_armed, released_get. proj_simpl.
    split; [apply lookup_insert_eq |]. split; [done |]. split; [exact Hconn |].
    split; [| done]. unfold ready, serving_get. proj_simpl.
    split; [by rewrite lookup_insert_ne, lookup_delete_eq by done |]. right.
    eexists. apply lookup_insert_eq.
Qed.

(** A pending timeout of the element runs. *)
Lemma timeout_dispatch_state id s src m ep e :
  sources s !! id = Some src →
  messages s !! source_msg src = Some m →
  msg_data m !! KEY_HTTP_EP_SERVER = Some QServer →
  handlers s !! uri_path m = Some ep →
  elements s !! ep = Some e →
  el_data e !! KEY_TIMEOUT_ID = Some (QUint id) →
  timeout_dispatch id s
    = inr (tt, {| handlers := handlers s;
                  elements := <[ep := timer_cleared e]> (elements s);
                  messages := messages s;
                  sources := delete id (sources s);
                  next_handler_id := next_handler_id s;
                  next_source_id := next_source_id s;
                  emitted := emitted s ++ [URL_EXPIRED (uri_path m)];
                  announcedAddr := announcedAddr s |}).
Proof.
  intros Hsrc Hm Hserv Hp He Hid. unfold timer_cleared.
  munfold. mexec. norm. rewrite delete_delete_eq. reflexivity.
Qed.

(** X10. The expiry timer, from the request to its end.  A GET that
    presents the session cookie is accepted and finishes at [now']
    before the cookie expires.  Then one timeout is added for the
    element, with the smaller of the seconds the cookie has left and the
    idle timeout, in milliseconds, provided that number fits a guint.
    When it runs, url-expired is emitted for the path, once: the source
    is gone and the element holds no timeout id, so that running it
    again does nothing.  The path stays registered. *)
Theorem session_expiry_fires_once (now rnd now' date timeout : Z) (msg ep : nat)
    (s : State) (m : SoupMessage) (e : GstElement) (cookie : SoupCookie) :
  messages s !! msg = Some m →
  method m = GET →
  msg_connections m = [] →
  handlers s !! uri_path m = Some ep →
  elements s !! ep = Some e →
  ready e →
  el_data e !! KEY_COOKIE = Some (QCookie cookie) →
  kms_http_ep_server_check_cookie now cookie m = true →
  el_data e !! KEY_PARAM_TIMEOUT = Some (QUint timeout) →
  cookie_expires cookie = Some date →
  now' ≤ date →
  0 ≤ timeout →
  Z.min (date - now') timeout * 1000 < 2 ^ 32 →
  let id := next_source_id s in
  ∃ s1 s2 s3,
    got_headers_handler now rnd msg s = inr (tt, s1) ∧
    run_event (EvFinished now' msg) s1 = inr (tt, s2) ∧
    sources s2 !! id
      = Some {| interval_ms := Z.min (date - now') timeout * 1000; source_msg := msg |} ∧
    emitted s2 = emitted s1 ∧
    run_event (EvTimeout id) s2 = inr (tt, s3) ∧
    emitted s3 = emitted s2 ++ [URL_EXPIRED (uri_path m)] ∧
    sources s3 !! id = None ∧
    (elements s3 !! ep) ≫= (λ e3, el_data e3 !! KEY_TIMEOUT_ID) = None ∧
    handlers s3 !! uri_path m = Some ep ∧
    run_event (EvTimeout id) s3 = inr (tt, s3).
Proof.
  intros Hm Hmeth Hmc Hp He Hready Hc Hcheck Ht Hd Hnow' Htimeout Hfits id.
  pose proof (session_known_state now rnd _ _ _ _ _ _ (uri_path m) Hm He Hc) as Hs.
  rewrite Hcheck in Hs.
  pose proof (got_headers_handler_allowed _ _ _ _ _ _ _ Hm Hp Hs) as Hrun.
  rewrite (dispatch_get_state _ _ _ _ _ _ Hm Hmeth He Hready) in Hrun.
  set (n := next_handler_id s) in *.
  set (s1 := {| handlers := handlers s;
                elements := <[ep := serving_get n msg e]> (elements s);
                messages := <[msg := served_get n ep msg m]> (messages s);
                sources := timer_removed e (sources s);
                next_handler_id := S (S (S n));
                next_source_id := next_source_id s;
                emitted := emitted s ++ [ACTION_REQUESTED (uri_path m) ACTION_GET];
                announcedAddr := announcedAddr s |}) in *.
  assert (Hm1 : messages s1 !! msg = Some (served_get n ep msg m))
    by (unfold s1; proj_simpl; apply lookup_insert_eq).
  assert (He1 : elements s1 !! ep = Some (serving_get n msg e))
    by (unfold s1; proj_simpl; apply lookup_insert_eq).
  assert (Hev : run_event (EvFinished now' msg) s1
                = (finished_get_processing now' msg ep;; mret tt) s1).
  { cbn [run_event]. rewrite (bind_inr _ _ _ _ _ (get_msg_ok _ _ _ Hm1)).
    unfold served_get at 1. proj_simpl. rewrite Hmc. cbn [app run_finished].
    proj_simpl. rewrite bool_decide_eq_true_2 by done. reflexivity. }
  assert (Hlive : cookie_has_expired now' cookie = false).
  { unfold cookie_has_expired, soup_date_is_past. rewrite Hd. apply Z.ltb_ge. lia. }
  pose proof (finished_get_live_state now' msg ep s1 _ (serving_get n msg e) false
                (S n) (S (S n)) cookie Hm1
                ltac:(unfold served_get; by data_simpl)
                ltac:(unfold served_get; by data_simpl)
                Hp
                ltac:(unfold served_get; by data_simpl)
                ltac:(unfold served_get; by data_simpl)
                He1
                ltac:(unfold serving_get; by data_simpl)
                timeout Hlive
                ltac:(unfold serving_get; by data_simpl)) as Hfin.
  assert (Hint : to_guint (expiry_interval now' (default 0 (cookie_expires cookie)) timeout
                           * 1000)
                 = Z.min (date - now') timeout * 1000).
  { rewrite Hd. change (default 0 (Some date)) with date.
    unfold expiry_interval, to_guint. cbv zeta.
    replace (now' + timeout - now') with timeout by lia.
    assert (Hmin : (if date - now' <? timeout then date - now' else timeout)
                   = Z.min (date - now') timeout).
    { destruct (date - now' <? timeout) eqn:Hlt.
      - apply Z.ltb_lt in Hlt. lia.
      - apply Z.ltb_ge in Hlt. lia. }
    rewrite Hmin.
    assert (0 ≤ Z.min (date - now') timeout) by lia.
    rewrite (Z.mod_small (Z.min (date - now') timeout)) by nia.
    apply Z.mod_small. lia. }
  set (s2 := {| handlers := handlers s1;
                elements :=
                  <[ep := timer_armed (next_source_id s1)
                            (released_get (S n) (S (S n)) (serving_get n msg e))]>
                    (elements s1);
                messages := <[msg := finished_message (served_get n ep msg m)]> (messages s1);
                sources :=
                  <[next_source_id s1 := expiry_source now' msg cookie timeout]> (sources s1);
                next_handler_id := next_handler_id s1;
                next_source_id := next_source_id s1 + 1;
                emitted := emitted s1;
                announcedAddr := announcedAddr s1 |}) in *.
  assert (Hsrc : sources s2 !! id = Some (expiry_source now' msg cookie timeout))
    by (unfold s2, s1; proj_simpl; apply lookup_insert_eq).
  pose proof (timeout_dispatch_state id s2 _ (finished_message (served_get n ep msg m)) ep
                (timer_armed id (released_get (S n) (S (S n)) (serving_get n msg e)))
                Hsrc
                ltac:(unfold s2, s1, expiry_source; proj_simpl; cbn [source_msg];
                      apply lookup_insert_eq)
                ltac:(unfold finished_message, served_get; by data_simpl)
                ltac:(unfold finished_message, served_get; proj_simpl; exact Hp)
                ltac:(unfold s2, s1; proj_simpl; apply lookup_insert_eq)
                ltac:(unfold timer_armed; proj_simpl; apply lookup_insert_eq)) as Hfire.
  exists s1, s2. eexists.
  split; [exact Hrun |].
  split; [rewrite Hev; rewrite (bind_inr _ _ _ _ _ Hfin); reflexivity |].
  split; [rewrite Hsrc; unfold expiry_source; by rewrite Hint |].
  split; [reflexivity |].
  split; [exact Hfire |].
  unfold finished_message, served_get. proj_simpl.
  split; [reflexivity |]. split; [apply lookup_delete_eq |].
  split; [rewrite lookup_insert_eq; cbn; unfold timer_cleared; proj_simpl;
          apply lookup_delete_eq |].
  split; [exact Hp |].
  cbn [run_event]. munfold. by rewrite lookup_delete_eq.
Qed.

(** The teardown of a GET that is being served, on its own. *)
Lemma destroy_pending_get_state msg ep s m e i0 i1 i2 :
  messages s !! msg = Some m →
  method m = GET →
  msg_data m !! KEY_HTTP_EP_SERVER = Some QServer →
  handlers s !! uri_path m = Some ep →
  msg_data m !! KEY_NEW_SAMPLE_HANDLER_ID = Some (QUlong i1) →
  msg_data m !! KEY_EOS_HANDLER_ID = Some (QUlong i2) →
  msg_data m !! KEY_FINISHED_HANDLER_ID = Some (QUlong i0) →
  elements s !! ep = Some e →
  destroy_pending_message msg s
    = inr (tt, {| handlers := handlers s;
                  elements :=
                    <[ep := with_el_start false
                              (with_el_connections
                                 (drop_connection i2 (drop_connection i1 (el_connections e)))
                                 e)]> (elements s);
                  messages := <[msg := torn_down_get i0 m]> (messages s);
                  sources := sources s;
                  next_handler_id := next_handler_id s;
                  next_source_id := next_source_id s;
                  emitted := emitted s;
                  announcedAddr := announcedAddr s |}).
Proof.
  intros Hm Hmeth Hserv Hp Hi1 Hi2 Hi0 He. unfold torn_down_get.
  munfold. mexec. norm. rewrite !insert_insert_eq. rewrite <- Hmeth. reflexivity.
Qed.

(** Unregistering the path of a GET that is being served. *)
Lemma unregister_served_get_state msg ep s m e i0 i1 i2 :
  messages s !! msg = Some m →
  method m = GET →
  msg_data m !! KEY_HTTP_EP_SERVER = Some QServer →
  handlers s !! uri_path m = Some ep →
  msg_data m !! KEY_NEW_SAMPLE_HANDLER_ID = Some (QUlong i1) →
  msg_data m !! KEY_EOS_HANDLER_ID = Some (QUlong i2) →
  msg_data m !! KEY_FINISHED_HANDLER_ID = Some (QUlong i0) →
  elements s !! ep = Some e →
  el_data e !! KEY_TIMEOUT_ID = None →
  el_data e !! KEY_MESSAGE = Some (QMessage msg) →
  kms_http_ep_server_unregister_end_point_impl (uri_path m) s
    = inr (true, {| handlers := delete (uri_path m) (handlers s);
                    elements := <[ep := released_get i1 i2 e]> (elements s);
                    messages := <[msg := torn_down_get i0 m]> (messages s);
                    sources := sources s;
                    next_handler_id := next_handler_id s;
                    next_source_id := next_source_id s;
                    emitted := emitted s ++ [URL_REMOVED (uri_path m)];
                    announcedAddr := announcedAddr s |}).
Proof.
  intros Hm Hmeth Hserv Hp Hi1 Hi2 Hi0 He Hnone Hbound.
  unfold torn_down_get, released_get.
  munfold. mexec. norm. rewrite !insert_insert_eq. rewrite <- Hmeth. reflexivity.
Qed.

(** X11. Unregistering the path of a GET that is being served ends the
    transfer: the response is completed and unpaused, the element is
    stopped and released and has the connections it had before the
    request, the finished handler of the message is disconnected,
    url-removed is emitted and the path is gone.  When the message
    finishes later, nothing runs. *)
Theorem unregister_ends_served_get (now rnd now' : Z) (msg ep : nat) (s : State)
    (m : SoupMessage) (e : GstElement) :
  registry_ok s →
  messages s !! msg = Some m →
  method m = GET →
  msg_connections m = [] →
  handlers s !! uri_path m = Some ep →
  elements s !! ep = Some e →
  ready e →
  session_grants now e m →
  Forall (λ c, (conn_id c < next_handler_id s)%nat) (el_connections e) →
  ∃ s1 s2 m2 e2,
    got_headers_handler now rnd msg s = inr (tt, s1) ∧
    kms_http_ep_server_unregister_end_point_impl (uri_path m) s1 = inr (true, s2) ∧
    handlers s2 = delete (uri_path m) (handlers s) ∧
    emitted s2 = emitted s1 ++ [URL_REMOVED (uri_path m)] ∧
    messages s2 !! msg = Some m2 ∧ elements s2 !! ep = Some e2 ∧
    response_complete m2 = true ∧ paused m2 = false ∧
    msg_connections m2 = [] ∧
    el_start e2 = false ∧
    el_connections e2 = el_connections e ∧
    el_data e2 !! KEY_MESSAGE = None ∧
    run_event (EvFinished now' msg) s2 = inr (tt, s2).
Proof.
  intros Hok Hm Hmeth Hmc Hp He Hready Hgrants Hfresh.
  destruct (got_headers_get_state now rnd _ _ _ _ _ Hok Hm Hmeth Hp He Hready Hgrants)
    as (m1 & e1 & Hadm & Hrun).
  destruct (accepted_objects _ _ _ _ _ _ _ Hadm)
    as (Hview & Hmd & Hmc1 & _ & Hec & _ & _ & Hed & _).
  set (n := next_handler_id s) in *.
  set (s1 := {| handlers := handlers s;
                elements := <[ep := serving_get n msg e1]> (elements s);
                messages := <[msg := served_get n ep msg m1]> (messages s);
                sources := timer_removed e (sources s);
                next_handler_id := S (S (S n));
                next_source_id := next_source_id s;
                emitted := emitted s ++ [ACTION_REQUESTED (uri_path m) ACTION_GET];
                announcedAddr := announcedAddr s |}) in *.
  assert (Hm1 : messages s1 !! msg = Some (served_get n ep msg m1))
    by (unfold s1; proj_simpl; apply lookup_insert_eq).
  assert (He1 : elements s1 !! ep = Some (serving_get n msg e1))
    by (unfold s1; proj_simpl; apply lookup_insert_eq).
  assert (Hpath : uri_path (served_get n ep msg m1) = uri_path m).
  { unfold served_get. proj_simpl. unfold request_view in Hview. congruence. }
  assert (Hmeth1 : method (served_get n ep msg m1) = GET).
  { unfold served_get. proj_simpl. unfold request_view in Hview. congruence. }
  pose proof (unregister_served_get_state msg ep s1 _ (serving_get n msg e1)
                n (S n) (S (S n)) Hm1 Hmeth1) as Hun.
  rewrite Hpath in Hun.
  specialize (Hun ltac:(unfold served_get; by data_simpl)
                  Hp
                  ltac:(unfold served_get; by data_simpl)
                  ltac:(unfold served_get; by data_simpl)
                  ltac:(unfold served_get; by data_simpl)
                  He1
                  ltac:(unfold serving_get; by data_simpl)
                  ltac:(unfold serving_get; by data_simpl)).
  assert (Hmconn : drop_connection n (msg_connections (served_get n ep msg m1)) = []).
  { unfold served_get. proj_simpl. rewrite Hmc1, Hmc. cbn [app].
    unfold drop_connection. by rewrite filter_cons_False by (intros H; by apply H). }
  exists s1. do 3 eexists. split; [exact Hrun |]. split; [exact Hun |].
  proj_simpl. split; [done |]. split; [done |].
  split; [apply lookup_insert_eq |]. split; [apply lookup_insert_eq |].
  unfold torn_down_get, released_get. proj_simpl.
  split; [done |]. split; [done |]. split; [exact Hmconn |]. split; [done |].
  split.
  { unfold serving_get. proj_simpl. rewrite Hec. by apply drop_get_connections. }
  split; [apply lookup_delete_eq |].
  cbn [run_event]. munfold. rewrite lookup_insert_eq. proj_simpl.
  rewrite Hmconn. reflexivity.
Qed.

Lemma dispatch_post_state msg ep s m0 m e content_type params :
  messages s !! msg = Some m →
  method m0 = POST →
  request_content_type m = Some (content_type, params) →
  g_str_has_prefix "multipart/" content_type = false →
  elements s !! ep = Some e →
  ready e →
  dispatch_allowed msg ep m0 s
    = inr (tt, {| handlers := handlers s;
                  elements := <[ep := bound_to msg e]> (elements s);
                  messages := <[msg := served_post (next_handler_id s) ep m]> (messages s);
                  sources := timer_removed e (sources s);
                  next_handler_id := S (S (next_handler_id s));
                  next_source_id := next_source_id s;
                  emitted := emitted s ++ [ACTION_REQUESTED (uri_path m0) ACTION_POST];
                  announcedAddr := announcedAddr s |}).
Proof.
  intros Hm Hmeth Hct Hpre He [Hunbound [Hnone | [id Hid]]].
  - unfold dispatch_allowed, dispatch_method. rewrite Hmeth. clear Hmeth.
    unfold timer_removed, served_post, bound_to. rewrite Hnone.
    rewrite (delete_id _ _ Hnone).
    munfold. mexec. norm. rewrite !insert_insert_eq. rewrite <- Hct. reflexivity.
  - unfold dispatch_allowed, dispatch_method. rewrite Hmeth. clear Hmeth.
    unfold timer_removed, served_post, bound_to. rewrite Hid.
    munfold. mexec. norm. rewrite !insert_insert_eq. rewrite <- Hct. reflexivity.
Qed.

Lemma got_chunk_plain_state msg chunk ep s m e :
  messages s !! msg = Some m →
  msg_data m !! KEY_BOUNDARY = None →
  elements s !! ep = Some e →
  chunk_in_region chunk →
  got_chunk_handler msg chunk ep s
    = inr (tt, with_elements
                 (<[ep := with_el_pushed (el_pushed e ++ [chunk_bytes chunk]) e]>
                    (elements s)) s).
Proof.
  intros Hm Hb He (Hd & Hl & Hfit). unfold chunk_bytes.
  munfold. mexec. cbn [content_range].
  rewrite (proj2 (Z.leb_le 0 (buffer_data chunk)) Hd).
  rewrite (proj2 (Z.leb_le 0 (buffer_length chunk)) Hl).
  rewrite (proj2 (Z.leb_le _ _) Hfit). cbn [andb]. mexec. reflexivity.
Qed.

Section FinishedPost.
Variables (now : Z) (msg ep : nat) (s : State) (m : SoupMessage) (e : GstElement).
Variables (b : bool) (cookie : SoupCookie).
Hypothesis Hm : messages s !! msg = Some m.
Hypothesis Hfin : msg_data m !! KEY_FINISHED = Some (QBool b).
Hypothesis Hserv : msg_data m !! KEY_HTTP_EP_SERVER = Some QServer.
Hypothesis He : elements s !! ep = Some e.
Hypothesis Hc : el_data e !! KEY_COOKIE = Some (QCookie cookie).

Lemma finished_post_expired_state :
  cookie_has_expired now cookie = true →
  finished_post_processing now msg ep s
    = inr (tt, {| handlers := handlers s;
                  elements := <[ep := released_post e]> (elements s);
                  messages := <[msg := finished_message m]> (messages s);
                  sources := sources s;
                  next_handler_id := next_handler_id s;
                  next_source_id := next_source_id s;
                  emitted := emitted s ++ [URL_EXPIRED (uri_path m)];
                  announcedAddr := announcedAddr s |}).
Proof.
  intros Hpast. unfold released_post, finished_message.
  munfold. mexec. norm. rewrite !insert_insert_eq. reflexivity.
Qed.

Lemma finished_post_live_state timeout :
  cookie_has_expired now cookie = false →
  el_data e !! KEY_PARAM_TIMEOUT = Some (QUint timeout) →
  finished_post_processing now msg ep s
    = inr (tt, {| handlers := handlers s;
                  elements :=
                    <[ep := timer_armed (next_source_id s) (released_post e)]> (elements s);
                  messages := <[msg := finished_message m]> (messages s);
                  sources :=
                    <[next_source_id s := expiry_source now msg cookie timeout]> (sources s);
                  next_handler_id := next_handler_id s;
                  next_source_id := next_source_id s + 1;
                  emitted := emitted s;
                  announcedAddr := announcedAddr s |}).
Proof.
  intros Hlive Ht. unfold timer_armed, released_post, finished_message, expiry_source.
  munfold. mexec. norm. rewrite !insert_insert_eq. reflexivity.
Qed.

End FinishedPost.

Lemma run_events_app evs1 evs2 s s1 :
  run_events evs1 s = inr (tt, s1) →
  run_events (evs1 ++ evs2) s = run_events evs2 s1.
Proof.
  revert s. induction evs1 as [|ev evs1 IH]; intros s Hrun.
  - by injection Hrun as ->.
  - cbn [app run_events] in *.
    apply bind_inv in Hrun as ([] & s0 & Hev & Hrun).
    rewrite (bind_inr _ _ _ _ _ Hev). by apply IH.
Qed.

(** An accepted POST whose content type does not send it to the
    boundary check, from the arrival of its headers. *)
Lemma got_headers_post_state now rnd msg s m ep e content_type params :
  registry_ok s →
  messages s !! msg = Some m →
  method m = POST →
  request_content_type m = Some (content_type, params) →
  g_str_has_prefix "multipart/" content_type = false →
  handlers s !! uri_path m = Some ep →
  elements s !! ep = Some e →
  ready e →
  session_grants now e m →
  ∃ m1 e1,
    ((m1 = m ∧ e1 = e ∧ ∃ cookie, el_data e !! KEY_COOKIE = Some (QCookie cookie)) ∨
     (∃ lifetime, el_data e !! KEY_PARAM_LIFETIME = Some (QUint lifetime) ∧
                  el_data e !! KEY_COOKIE = None ∧
                  m1 = session_announced now rnd s lifetime m ∧
                  e1 = session_opened now rnd s m lifetime e)) ∧
    got_headers_handler now rnd msg s
      = inr (tt, {| handlers := handlers s;
                    elements := <[ep := bound_to msg e1]> (elements s);
                    messages := <[msg := served_post (next_handler_id s) ep m1]> (messages s);
                    sources := timer_removed e (sources s);
                    next_handler_id := S (S (next_handler_id s));
                    next_source_id := next_source_id s;
                    emitted := emitted s ++ [ACTION_REQUESTED (uri_path m) ACTION_POST];
                    announcedAddr := announcedAddr s |}).
Proof.
  intros Hok Hm Hmeth Hct Hpre Hp He Hready [Hnone | (cookie & Hc & Hcheck)].
  - destruct (has_params_lifetime _ _ _ (Hok _ _ Hp) He) as [lifetime Hl].
    exists (session_announced now rnd s lifetime m), (session_opened now rnd s m lifetime e).
    split; [right; eauto |].
    rewrite (got_headers_handler_allowed _ _ _ _ _ _ _ Hm Hp
               (session_first_state now rnd _ _ _ _ _ _ Hm He Hnone Hl)).
    erewrite dispatch_post_state;
      [| proj_simpl; apply lookup_insert_eq | done
       | unfold session_announced; proj_simpl; exact Hct | exact Hpre
       | proj_simpl; apply lookup_insert_eq |].
    + proj_simpl. rewrite !insert_insert_eq.
      unfold timer_removed, session_opened. proj_simpl.
      rewrite lookup_insert_ne by done. reflexivity.
    + destruct Hready as [Hunbound Htimeout]. unfold ready, session_opened. proj_simpl.
      rewrite !lookup_insert_ne by done. done.
  - exists m, e. split; [left; eauto |].
    pose proof (session_known_state now rnd _ _ _ _ _ _ (uri_path m) Hm He Hc) as Hs.
    rewrite Hcheck in Hs.
    rewrite (got_headers_handler_allowed _ _ _ _ _ _ _ Hm Hp Hs).
    by eapply dispatch_post_state.
Qed.

(** The chunks of a body without a boundary reach the element one by
    one. *)
Lemma chunks_pushed msg ep m1 n chunks :
  msg_data m1 !! KEY_BOUNDARY = None →
  msg_connections m1
    = [{| conn_id := n; conn_signal := "got-chunk";
          conn_callback := got_chunk_handler_cb ep |};
       {| conn_id := S n; conn_signal := "finished";
          conn_callback := finished_post_processing_cb ep |}] →
  Forall chunk_in_region chunks →
  ∀ s e,
    messages s !! msg = Some m1 →
    elements s !! ep = Some e →
    ∃ s', run_events (EvGotChunk msg <$> chunks) s = inr (tt, s') ∧
          messages s' = messages s ∧ handlers s' = handlers s ∧
          sources s' = sources s ∧ emitted s' = emitted s ∧
          next_source_id s' = next_source_id s ∧
          elements s' !! ep
            = Some (with_el_pushed (el_pushed e ++ (chunk_bytes <$> chunks)) e).
Proof.
  intros Hb Hmc. induction 1 as [|chunk chunks Hin _ IH]; intros s e Hm He.
  - exists s. split; [done |]. repeat (split; [done |]).
    rewrite He. f_equal. destruct e. unfold with_el_pushed. cbn. by rewrite app_nil_r.
  - assert (Hev : run_event (EvGotChunk msg chunk) s
                  = inr (tt, with_elements
                               (<[ep := with_el_pushed (el_pushed e ++ [chunk_bytes chunk]) e]>
                                  (elements s)) s)).
    { cbn [run_event]. rewrite (bind_inr _ _ _ _ _ (get_msg_ok _ _ _ Hm)).
      rewrite Hmc. cbn [run_got_chunk]. proj_simpl.
      rewrite (bool_decide_eq_true_2 ("got-chunk" = "got-chunk")) by done.
      rewrite (bool_decide_eq_false_2 ("finished" = "got-chunk")) by done.
      rewrite (bind_inr _ _ _ _ _ (got_chunk_plain_state _ _ _ _ _ _ Hm Hb He Hin)).
      reflexivity. }
    destruct (IH (with_elements
                    (<[ep := with_el_pushed (el_pushed e ++ [chunk_bytes chunk]) e]>
                       (elements s)) s)
                 (with_el_pushed (el_pushed e ++ [chunk_bytes chunk]) e))
      as (s' & Hrun & Hms & Hh & Hsrc & Hem & Hns & Hel).
    { proj_simpl. exact Hm. }
    { proj_simpl. apply lookup_insert_eq. }
    exists s'. split.
    { cbn [fmap list_fmap run_events]. rewrite (bind_inr _ _ _ _ _ Hev). exact Hrun. }
    proj_simpl. repeat (split; [done |]).
    rewrite Hel. f_equal. unfold with_el_pushed. proj_simpl.
    by rewrite <- app_assoc.
Qed.

(** X12. An upload from the first header to the end.  A POST to a
    registered path whose element is ready, which passes the session
    check and whose content type is not sent to the boundary check, is
    answered 200; every chunk of its body that follows is handed to the
    element as it is, in the order of arrival; when the message finishes
    the element is told the end of the stream and released, ready for
    the next request, and the message is marked finished. *)
Theorem post_upload_reaches_element (now rnd now' : Z) (msg ep : nat) (s : State)
    (m : SoupMessage) (e : GstElement) (content_type : string)
    (params : gmap string string) (chunks : list SoupBuffer) :
  registry_ok s →
  messages s !! msg = Some m →
  method m = POST →
  msg_connections m = [] →
  msg_data m !! KEY_BOUNDARY = None →
  request_content_type m = Some (content_type, params) →
  g_str_has_prefix "multipart/" content_type = false →
  handlers s !! uri_path m = Some ep →
  elements s !! ep = Some e →
  ready e →
  session_grants now e m →
  Forall chunk_in_region chunks →
  ∃ s' m' e',
    run_events (EvGotHeaders now rnd msg :: (EvGotChunk msg <$> chunks)
                  ++ [EvFinished now' msg]) s = inr (tt, s') ∧
    messages s' !! msg = Some m' ∧ elements s' !! ep = Some e' ∧
    status_code m' = SOUP_STATUS_OK ∧
    msg_data m' !! KEY_FINISHED = Some (QBool true) ∧
    el_pushed e' = el_pushed e ++ (chunk_bytes <$> chunks) ∧
    el_eos e' = true ∧
    ready e' ∧
    handlers s' = handlers s.
Proof.
  intros Hok Hm Hmeth Hmc Hb Hct Hpre Hp He Hready Hgrants Hchunks.
  destruct (got_headers_post_state now rnd _ _ _ _ _ _ _ Hok Hm Hmeth Hct Hpre Hp He
              Hready Hgrants) as (m1 & e1 & Hadm & Hrun).
  destruct (accepted_objects _ _ _ _ _ _ _ Hadm)
    as (Hview & Hmd & Hmc1 & _ & Hec & Hpu & _ & Hed & [cookie Hc]).
  destruct (has_params_timeout _ _ _ (Hok _ _ Hp) He) as [timeout Ht].
  set (n := next_handler_id s) in *.
  set (s1 := {| handlers := handlers s;
                elements := <[ep := bound_to msg e1]> (elements s);
                messages := <[msg := served_post n ep m1]> (messages s);
                sources := timer_removed e (sources s);
                next_handler_id := S (S n);
                next_source_id := next_source_id s;
                emitted := emitted s ++ [ACTION_REQUESTED (uri_path m) ACTION_POST];
                announcedAddr := announcedAddr s |}) in *.
  assert (Hm1 : messages s1 !! msg = Some (served_post n ep m1))
    by (unfold s1; proj_simpl; apply lookup_insert_eq).
  assert (He1 : elements s1 !! ep = Some (bound_to msg e1))
    by (unfold s1; proj_simpl; apply lookup_insert_eq).
  assert (Hconn : msg_connections (served_post n ep m1)
                  = [{| conn_id := n; conn_signal := "got-chunk";
                        conn_callback := got_chunk_handler_cb ep |};
                     {| conn_id := S n; conn_signal := "finished";
                        conn_callback := finished_post_processing_cb ep |}]).
  { unfold served_post. proj_simpl. by rewrite Hmc1, Hmc. }
  destruct (chunks_pushed msg ep (served_post n ep m1) n chunks
              ltac:(unfold served_post; proj_simpl; rewrite !lookup_insert_ne by done;
                    by rewrite Hmd)
              Hconn Hchunks s1 _ Hm1 He1)
    as (s2 & Hrun2 & Hms2 & Hh2 & _ & _ & _ & He2).
  set (e2 := with_el_pushed (el_pushed (bound_to msg e1) ++ (chunk_bytes <$> chunks))
               (bound_to msg e1)) in *.
  assert (Hm2 : messages s2 !! msg = Some (served_post n ep m1)) by (by rewrite Hms2).
  assert (Hev : run_event (EvFinished now' msg) s2
                = (finished_post_processing now' msg ep;; mret tt) s2).
  { cbn [run_event]. rewrite (bind_inr _ _ _ _ _ (get_msg_ok _ _ _ Hm2)).
    rewrite Hconn. cbn [run_finished]. proj_simpl.
    rewrite (bool_decide_eq_false_2 ("got-chunk" = "finished")) by done.
    rewrite (bool_decide_eq_true_2 ("finished" = "finished")) by done.
    reflexivity. }
  assert (Hcookie : el_data e2 !! KEY_COOKIE = Some (QCookie cookie)).
  { unfold e2, bound_to. proj_simpl. by rewrite lookup_insert_ne, lookup_delete_ne by done. }
  assert (Htimeout : el_data e2 !! KEY_PARAM_TIMEOUT = Some (QUint timeout)).
  { unfold e2, bound_to. proj_simpl. rewrite lookup_insert_ne, lookup_delete_ne by done.
    by rewrite Hed by done. }
  assert (Hall : ∀ s3, finished_post_processing now' msg ep s2 = inr (tt, s3) →
            run_events (EvGotHeaders now rnd msg :: (EvGotChunk msg <$> chunks)
                          ++ [EvFinished now' msg]) s = inr (tt, s3)).
  { intros s3 Hfin. cbn [run_events].
    rewrite (bind_inr (run_event (EvGotHeaders now rnd msg)) _ _ _ _ Hrun).
    rewrite (run_events_app _ _ _ _ Hrun2). cbn [run_events].
    assert (Hev3 : run_event (EvFinished now' msg) s2 = inr (tt, s3))
      by (rewrite Hev; by rewrite (bind_inr _ _ _ _ _ Hfin)).
    by rewrite (bind_inr _ _ _ _ _ Hev3). }
  destruct (cookie_has_expired now' cookie) eqn:Hpast.
  - pose proof (finished_post_expired_state now' msg ep s2 _ e2 false cookie Hm2
                  ltac:(unfold served_post; by data_simpl)
                  ltac:(unfold served_post; by data_simpl)
                  He2 Hcookie Hpast) as Hfin.
    do 3 eexists. split; [exact (Hall _ Hfin) |].
    proj_simpl. split; [apply lookup_insert_eq |]. split; [apply lookup_insert_eq |].
    unfold finished_message, released_post, served_post. proj_simpl.
    split; [done |]. split; [apply lookup_insert_eq |].
    split; [unfold e2, bound_to; proj_simpl; by rewrite Hpu |].
    split; [done |]. split; [| by rewrite Hh2].
    unfold ready, e2, bound_to. proj_simpl.
    split; [apply lookup_delete_eq |]. left.
    by rewrite lookup_delete_ne, lookup_insert_ne, lookup_delete_eq by done.
  - pose proof (finished_post_live_state now' msg ep s2 _ e2 false cookie Hm2
                  ltac:(unfold served_post; by data_simpl)
                  He2 Hcookie timeout Hpast Htimeout) as Hfin.
    do 3 eexists. split; [exact (Hall _ Hfin) |].
    proj_simpl. split; [apply lookup_insert_eq |]. split; [apply lookup_insert_eq |].
    unfold finished_message, timer_armed, released_post, served_post. proj_simpl.
    split; [done |]. split; [apply lookup_insert_eq |].
    split; [unfold e2, bound_to; proj_simpl; by rewrite Hpu |].
    split; [done |]. split; [| by rewrite Hh2].
    unfold ready, e2, bound_to. proj_simpl.
    split; [by rewrite lookup_insert_ne, lookup_delete_eq by done |]. right.
    eexists. apply lookup_insert_eq.
Qed.

(** * Sessions over time *)

Lemma presents_iff cookie m :
  presents cookie m ↔ (cookie_name cookie, cookie_value cookie) ∈ request_cookies m.
Proof.
  unfold presents. split.
  - intros ([n v] & Hin & Hn & Hv). cbn in Hn, Hv. by subst.
  - intros Hin. by exists (cookie_name cookie, cookie_value cookie).
Qed.

Lemma to_gint_small n : 0 ≤ n < 2 ^ 31 → to_gint n = n.
Proof.
  intros Hn. unfold to_gint. rewrite Z.mod_small by lia.
  by rewrite (proj2 (Z.ltb_lt n (2 ^ 31))) by lia.
Qed.

Lemma to_gint_large n : 2 ^ 31 ≤ n < 2 ^ 32 → to_gint n = n - 2 ^ 32.
Proof.
  intros Hn. unfold to_gint. rewrite Z.mod_small by lia.
  by rewrite (proj2 (Z.ltb_ge n (2 ^ 31))) by lia.
Qed.

(** X13. A session lasts for the lifetime of the registration.  The
    first request to an element opens the session; with a lifetime
    between 1 and 2^31 - 1 seconds, a later request is accepted exactly
    when it comes no later than [lifetime] seconds after the first and
    carries a cookie with the name and the value of the session.  The
    check changes nothing. *)
Theorem session_lasts_lifetime (now rnd : Z) (msg ep : nat) (s : State)
    (m : SoupMessage) (e : GstElement) (lifetime : Z) :
  messages s !! msg = Some m →
  elements s !! ep = Some e →
  el_data e !! KEY_COOKIE = None →
  el_data e !! KEY_PARAM_LIFETIME = Some (QUint lifetime) →
  0 < lifetime < 2 ^ 31 →
  ∃ s1,
    kms_http_ep_server_manage_cookie_session now rnd ep msg (uri_path m) s
      = inr (true, s1) ∧
    ∀ now' rnd' msg' m' path',
      messages s1 !! msg' = Some m' →
      ∃ allowed,
        kms_http_ep_server_manage_cookie_session now' rnd' ep msg' path' s1
          = inr (allowed, s1) ∧
        (allowed = true ↔
           now' ≤ now + lifetime ∧ (COOKIE_NAME, pretty rnd) ∈ request_cookies m').
Proof.
  intros Hm He Hnone Hl Hrange. eexists.
  split; [exact (session_first_state now rnd _ _ _ _ _ _ Hm He Hnone Hl) |].
  intros now' rnd' msg' m' path' Hm'.
  eexists. split.
  - eapply session_known_state; [exact Hm' | proj_simpl; apply lookup_insert_eq |].
    unfold session_opened. proj_simpl. apply lookup_insert_eq.
  - rewrite check_cookie_spec, presents_iff.
    unfold session_cookie_of, cookie_has_expired, soup_cookie_new, soup_date_is_past.
    cbn [cookie_name cookie_value cookie_expires].
    rewrite to_gint_small by lia.
    rewrite (proj2 (Z.eqb_neq lifetime (-1))) by lia.
    rewrite (proj2 (Z.eqb_neq lifetime 0)) by lia.
    rewrite Z.ltb_ge. tauto.
Qed.

(** X14. The lifetimes that lock the element.  With a lifetime of 0,
    or one above G_MAXINT, which [soup_cookie_new] takes as a negative
    number, the first request still opens the session, and the cookie it
    makes has expired from the start: every later request to the
    element is answered 400, whatever cookies it carries. *)
Theorem degenerate_lifetime_locks_element (now rnd : Z) (msg ep : nat) (s : State)
    (m : SoupMessage) (e : GstElement) (lifetime : Z) :
  messages s !! msg = Some m →
  elements s !! ep = Some e →
  el_data e !! KEY_COOKIE = None →
  el_data e !! KEY_PARAM_LIFETIME = Some (QUint lifetime) →
  lifetime = 0 ∨ 2 ^ 31 ≤ lifetime < 2 ^ 32 →
  ∃ s1,
    kms_http_ep_server_manage_cookie_session now rnd ep msg (uri_path m) s
      = inr (true, s1) ∧
    ∀ now' rnd' msg' m',
      0 < now' → now ≤ now' →
      messages s1 !! msg' = Some m' →
      handlers s1 !! uri_path m' = Some ep →
      got_headers_handler now' rnd' msg' s1
        = inr (tt, with_messages
                     (<[msg' := with_status SOUP_STATUS_BAD_REQUEST m']> (messages s1)) s1).
Proof.
  intros Hm He Hnone Hl Hrange. eexists.
  split; [exact (session_first_state now rnd _ _ _ _ _ _ Hm He Hnone Hl) |].
  intros now' rnd' msg' m' Hpos Hlater Hm' Hp'.
  set (s1 := {| handlers := handlers s |}) in *.
  assert (Hs : kms_http_ep_server_manage_cookie_session now' rnd' ep msg' (uri_path m') s1
               = inr (false, s1)).
  { erewrite session_known_state;
      [| exact Hm' | unfold s1; proj_simpl; apply lookup_insert_eq
       | unfold session_opened; proj_simpl; apply lookup_insert_eq].
    f_equal. f_equal. unfold kms_http_ep_server_check_cookie.
    assert (Hpast : cookie_has_expired now' (session_cookie_of now rnd s m lifetime) = true).
    { unfold session_cookie_of, cookie_has_expired, soup_cookie_new, soup_date_is_past.
      cbn [cookie_expires].
      destruct Hrange as [-> | Hbig].
      - change (to_gint 0) with 0. cbn. by apply Z.ltb_lt.
      - rewrite to_gint_large by done.
        destruct (lifetime - 2 ^ 32 =? -1) eqn:H1; [done |].
        apply Z.eqb_neq in H1.
        rewrite (proj2 (Z.eqb_neq (lifetime - 2 ^ 32) 0)) by lia.
        apply Z.ltb_lt. lia. }
    by rewrite Hpast. }
  unfold got_headers_handler.
  rewrite (bind_inr _ _ _ _ _ (get_msg_ok _ _ _ Hm')).
  rewrite (bind_inr _ _ s1 s1 s1 eq_refl). rewrite Hp'.
  rewrite (bind_inr _ _ _ _ _ Hs). cbn [negb].
  by apply upd_msg_ok.
Qed.

(** * Registrations of one element *)

Lemma register_end_point_state uuid_str ep lifetime timeout s e :
  elements s !! ep = Some e →
  is_httpendpoint e = true →
  handlers s !! ("/" +:+ uuid_str) = None →
  kms_http_ep_server_register_end_point_impl uuid_str ep lifetime timeout s
    = inr (Some ("/" +:+ uuid_str),
           {| handlers := <["/" +:+ uuid_str := ep]> (handlers s);
              elements := <[ep := registered_with lifetime timeout e]> (elements s);
              messages := messages s;
              sources := sources s;
              next_handler_id := next_handler_id s;
              next_source_id := next_source_id s;
              emitted := emitted s;
              announcedAddr := announcedAddr s |}).
Proof.
  intros He Hh Hfree. unfold registered_with.
  munfold. mexec. norm. rewrite !insert_insert_eq. rewrite <- Hh. reflexivity.
Qed.

(** X15. The parameters of a registration belong to the element, not
    to the path.  On a server whose table of handlers exists, when an
    element that is registered under one path is registered under a
    second one, both paths lead to it, and the lifetime and the idle
    timeout of the second registration replace those of the first for
    both. *)
Theorem registration_parameters_are_per_element (uuid1 uuid2 : string) (ep : nat)
    (lifetime1 timeout1 lifetime2 timeout2 : Z) (s : State) (e : GstElement) :
  elements s !! ep = Some e →
  is_httpendpoint e = true →
  table_is_null (handlers s) = false →
  handlers s !! ("/" +:+ uuid1) = None →
  handlers s !! ("/" +:+ uuid2) = None →
  uuid1 ≠ uuid2 →
  ∃ s1 s2,
    kms_http_ep_server_register_end_point_impl uuid1 ep lifetime1 timeout1 s
      = inr (Some ("/" +:+ uuid1), s1) ∧
    params_of ep s1 = Some (Some (QUint lifetime1), Some (QUint timeout1)) ∧
    kms_http_ep_server_register_end_point_impl uuid2 ep lifetime2 timeout2 s1
      = inr (Some ("/" +:+ uuid2), s2) ∧
    handlers s2 !! ("/" +:+ uuid1) = Some ep ∧
    handlers s2 !! ("/" +:+ uuid2) = Some ep ∧
    params_of ep s2 = Some (Some (QUint lifetime2), Some (QUint timeout2)).
Proof.
  intros He Hh Htable Hfree1 Hfree2 Hne.
  assert (Hurl : "/" +:+ uuid1 ≠ "/" +:+ uuid2).
  { intros H. apply Hne. vm_compute in H. by injection H. }
  do 2 eexists.
  split; [exact (register_end_point_state _ _ _ _ _ _ He Hh Hfree1) |].
  split.
  { unfold params_of, data_of, registered_with. proj_simpl. rewrite lookup_insert_eq.
    cbn [fmap option_fmap option_map]. proj_simpl.
    rewrite lookup_insert_ne by done. by rewrite !lookup_insert_eq. }
  split.
  { apply register_end_point_state.
    - proj_simpl. apply lookup_insert_eq.
    - done.
    - proj_simpl. by rewrite table_lookup_insert_ne. }
  proj_simpl.
  split; [rewrite table_lookup_insert_ne by done; by apply table_lookup_insert_eq |].
  split; [apply table_lookup_insert_eq; by rewrite table_is_null_insert |].
  unfold params_of, data_of, registered_with. proj_simpl. rewrite lookup_insert_eq.
  cbn [fmap option_fmap option_map]. proj_simpl.
  rewrite lookup_insert_ne by done. by rewrite !lookup_insert_eq.
Qed.

(** * The session of an element is never replaced *)

Lemma keeps_cookie_upd_el q p g :
  (∀ e, el_data (g e) !! KEY_COOKIE = el_data e !! KEY_COOKIE) →
  keeps (cookie_of q) (upd_el p g).
Proof.
  intros Hg s a s' H. unfold upd_el in H.
  apply bind_inv in H as (e & s1 & He & H). unfold get_el in He.
  destruct (elements s !! p) as [e'|] eqn:Hp; [| discriminate].
  injection He as <- <-. injection H as _ <-.
  unfold cookie_of, data_of. cbn [elements with_elements].
  destruct (decide (p = q)) as [-> | Hne].
  - rewrite (lookup_insert_eq (elements s)), Hp. cbn. apply Hg.
  - by rewrite lookup_insert_ne.
Qed.

Lemma keeps_cookie_upd_other q p g : p ≠ q → keeps (cookie_of q) (upd_el p g).
Proof.
  intros Hne s a s' H. unfold upd_el in H.
  apply bind_inv in H as (e & s1 & He & H). unfold get_el in He.
  destruct (elements s !! p) as [e'|]; [| discriminate].
  injection He as <- <-. injection H as _ <-.
  unfold cookie_of, data_of. cbn [elements with_elements].
  by rewrite lookup_insert_ne.
Qed.

Ltac cookie_step :=
  match goal with
  | |- keeps (cookie_of _) (upd_el _ _) =>
      apply keeps_cookie_upd_el; intros; proj_simpl;
      rewrite ?lookup_insert_ne, ?lookup_delete_ne by done; done
  end.

Ltac frame_cookie := repeat first [ cookie_step | keeps_step | progress unfold_source ].

Lemma keeps_cookie_run_finished q now msg cs : keeps (cookie_of q) (run_finished now msg cs).
Proof. induction cs as [|c cs IH]; cbn [run_finished]; frame_cookie. Qed.

Lemma keeps_cookie_run_got_chunk q msg chunk cs :
  keeps (cookie_of q) (run_got_chunk msg chunk cs).
Proof. induction cs as [|c cs IH]; cbn [run_got_chunk]; frame_cookie. Qed.

Lemma keeps_cookie_run_eos q cs : keeps (cookie_of q) (run_eos cs).
Proof. induction cs as [|c cs IH]; cbn [run_eos]; frame_cookie. Qed.

(** The session check writes a cookie only where there is none. *)
Lemma session_keeps_cookie q c now rnd ep msg path s b s' :
  cookie_of q s = Some c →
  kms_http_ep_server_manage_cookie_session now rnd ep msg path s = inr (b, s') →
  cookie_of q s' = Some c.
Proof.
  intros Hq. unfold kms_http_ep_server_manage_cookie_session.
  intros H. apply bind_inv in H as (ck & s0 & Hget & H).
  unfold el_get_data in Hget. apply bind_inv in Hget as (e & s0' & He & Hret).
  injection Hret as <- <-. unfold get_el in He.
  destruct (elements s !! ep) as [e'|] eqn:Hep; [| discriminate]. injection He as <- <-.
  destruct (el_data e' !! KEY_COOKIE) as [[]|] eqn:Hck; try discriminate.
  - apply bind_inv in H as (m & s1 & Hm & H). apply get_msg_inv in Hm as [_ ->].
    by injection H as _ <-.
  - assert (Hne : ep ≠ q).
    { intros ->. revert Hq. unfold cookie_of, data_of. rewrite Hep. cbn. congruence. }
    apply bind_inv in H as ([] & s1 & Hset & H). injection H as _ <-.
    assert (Hk : keeps (cookie_of q) (kms_http_ep_server_set_cookie now rnd ep msg path)).
    { repeat first [ apply keeps_cookie_upd_other; done | cookie_step | keeps_step
                   | progress unfold_source ]. }
    by rewrite (Hk _ _ _ Hset).
Qed.

Lemma cookie_kept_by_event q c ev s s' :
  cookie_of q s = Some c →
  run_event ev s = inr (tt, s') →
  cookie_of q s' = Some c.
Proof.
  intros Hq Hrun. destruct ev; cbn [run_event] in Hrun.
  - assert (Hk : keeps (cookie_of q)
      (kms_http_ep_server_register_end_point_impl uuid_str endpoint lifetime timeout;;
       mret tt)) by frame_cookie.
    by rewrite (Hk _ _ _ Hrun).
  - assert (Hk : keeps (cookie_of q)
      (kms_http_ep_server_unregister_end_point_impl uri;; mret tt)) by frame_cookie.
    by rewrite (Hk _ _ _ Hrun).
  - unfold got_headers_handler in Hrun.
    apply bind_inv in Hrun as (m & s0 & Hm & Hrun). apply get_msg_inv in Hm as [_ ->].
    rewrite (bind_inr _ _ s s s eq_refl) in Hrun.
    destruct (handlers s !! uri_path m) as [ep|].
    + apply bind_inv in Hrun as (b & s1 & Hs & Hrun).
      pose proof (session_keeps_cookie _ _ _ _ _ _ _ _ _ _ Hq Hs) as Hq1.
      destruct b; cbn [negb] in Hrun.
      * assert (Hk : keeps (cookie_of q)
          (remove_cookie_timeout ep;; set_message_binding ep (Some msg);;
           msg_set_data msg KEY_HTTP_EP_SERVER QServer;;
           match method m with
           | GET => kms_http_ep_server_get_handler msg ep;;
                    g_signal_emit (ACTION_REQUESTED (uri_path m) ACTION_GET)
           | POST => kms_http_ep_server_post_handler msg ep;;
                     g_signal_emit (ACTION_REQUESTED (uri_path m) ACTION_POST)
           | OTHER _ => soup_message_set_status msg SOUP_STATUS_METHOD_NOT_ALLOWED
           end)) by frame_cookie.
        by rewrite (Hk _ _ _ Hrun).
      * assert (Hk : keeps (cookie_of q)
          (soup_message_set_status msg SOUP_STATUS_BAD_REQUEST)) by frame_cookie.
        by rewrite (Hk _ _ _ Hrun).
    + assert (Hk : keeps (cookie_of q)
        (soup_message_set_status msg SOUP_STATUS_NOT_FOUND)) by frame_cookie.
      by rewrite (Hk _ _ _ Hrun).
  - apply bind_inv in Hrun as (m & s1 & Hm & Hrun). apply get_msg_inv in Hm as [_ ->].
    by rewrite (keeps_cookie_run_got_chunk _ _ _ _ _ _ _ Hrun).
  - apply bind_inv in Hrun as (m & s1 & Hm & Hrun). apply get_msg_inv in Hm as [_ ->].
    by rewrite (keeps_cookie_run_finished _ _ _ _ _ _ _ Hrun).
  - apply bind_inv in Hrun as (e & s1 & He & Hrun).
    apply keeps_get_el with (f := id) in He. cbn in He. subst s1.
    by rewrite (keeps_cookie_run_eos _ _ _ _ _ Hrun).
  - assert (Hk : keeps (cookie_of q) (timeout_dispatch id)) by frame_cookie.
    by rewrite (Hk _ _ _ Hrun).
  - assert (Hk : keeps (cookie_of q) (send_buffer_cb sdata)) by frame_cookie.
    by rewrite (Hk _ _ _ Hrun).
Qed.

(** X16. The session of an element is for good.  Once an element holds
    a session cookie, no event replaces or removes it: not the requests,
    not the timeouts, not unregistering the element nor registering it
    again.  So whatever happened in between, a request to a path of
    that element that does not carry the cookie is answered 400. *)
Theorem session_cookie_is_permanent (q : nat) (cookie : SoupCookie)
    (evs : list event) (s s' : State) :
  cookie_of q s = Some (QCookie cookie) →
  run_events evs s = inr (tt, s') →
  cookie_of q s' = Some (QCookie cookie) ∧
  ∀ now rnd msg m,
    messages s' !! msg = Some m →
    handlers s' !! uri_path m = Some q →
    (cookie_name cookie, cookie_value cookie) ∉ request_cookies m →
    got_headers_handler now rnd msg s'
      = inr (tt, with_messages
                   (<[msg := with_status SOUP_STATUS_BAD_REQUEST m]> (messages s')) s').
Proof.
  intros Hq Hrun.
  assert (Hq' : cookie_of q s' = Some (QCookie cookie)).
  { revert s Hq Hrun. induction evs as [|ev evs IH]; intros s Hq Hrun.
    - by injection Hrun as <-.
    - cbn [run_events] in Hrun. apply bind_inv in Hrun as ([] & s1 & Hev & Hrun).
      eapply IH; [| exact Hrun]. by eapply cookie_kept_by_event. }
  split; [exact Hq' |].
  intros now rnd msg m Hm Hp Hmiss.
  unfold cookie_of, data_of in Hq'.
  destruct (elements s' !! q) as [e|] eqn:He; [| discriminate]. cbn in Hq'.
  pose proof (session_known_state now rnd _ _ _ _ _ _ (uri_path m) Hm He Hq') as Hs.
  assert (Hcheck : kms_http_ep_server_check_cookie now cookie m = false).
  { apply not_true_is_false. rewrite check_cookie_spec, presents_iff. tauto. }
  rewrite Hcheck in Hs.
  unfold got_headers_handler.
  rewrite (bind_inr _ _ _ _ _ (get_msg_ok _ _ _ Hm)).
  rewrite (bind_inr _ _ s' s' s' eq_refl). rewrite Hp.
  rewrite (bind_inr _ _ _ _ _ Hs). cbn [negb].
  by apply upd_msg_ok.
Qed.

(** * A download from the first header to the end *)

Lemma send_buffer_state msg buffer s m :
  messages s !! msg = Some m →
  msg_data m !! KEY_FINISHED = Some (QBool false) →
  buffer_maps buffer = true →
  send_buffer_cb (write_task msg buffer) s
    = inr (tt, with_messages
                 (<[msg := with_paused false
                             (with_response_body (response_body m ++ buffer_bytes buffer) m)]>
                    (messages s)) s).
Proof.
  intros Hm Hf Hmaps. unfold write_task.
  munfold. cbn [sd_msg sd_sample]. mexec. norm. rewrite !insert_insert_eq. reflexivity.
Qed.

Lemma buffers_sent msg buffers :
  Forall (λ b, buffer_maps b = true) buffers →
  ∀ s m,
    messages s !! msg = Some m →
    msg_data m !! KEY_FINISHED = Some (QBool false) →
    ∃ s',
      run_events (EvSendBuffer <$> (write_task msg <$> buffers)) s = inr (tt, s') ∧
      messages s' !! msg
        = Some (with_paused (match buffers with [] => paused m | _ => false end)
                  (with_response_body
                     (response_body m ++ concat (buffer_bytes <$> buffers)) m)) ∧
      elements s' = elements s ∧ handlers s' = handlers s ∧ emitted s' = emitted s.
Proof.
  induction 1 as [|b buffers Hb _ IH]; intros s m Hm Hf.
  - exists s. split; [done |]. split; [| done].
    rewrite Hm. f_equal. destruct m. unfold with_paused, with_response_body. cbn.
    by rewrite app_nil_r.
  - pose proof (send_buffer_state _ _ _ _ Hm Hf Hb) as Hsend.
    set (m1 := with_paused false
                 (with_response_body (response_body m ++ buffer_bytes b) m)) in *.
    destruct (IH (with_messages (<[msg := m1]> (messages s)) s) m1)
      as (s' & Hrun & Hm' & Hel & Hh & Hem);
      [proj_simpl; apply lookup_insert_eq | done |].
    exists s'. split.
    { cbn [fmap list_fmap run_events run_event].
      rewrite (bind_inr (send_buffer_cb (write_task msg b)) _ _ _ _ Hsend). exact Hrun. }
    split; [| done].
    rewrite Hm'. f_equal. unfold m1, with_paused, with_response_body. proj_simpl.
    cbn [fmap list_fmap concat]. rewrite <- app_assoc.
    by destruct buffers.
Qed.

(** X17. A download from the first header to the end.  After an
    accepted GET, the buffers the write tasks carry are appended to the
    body of the response in the order of the tasks and the message is
    unpaused; when the element reports the end of its stream the body
    is completed. *)
Theorem get_download_reaches_client (now rnd : Z) (msg ep : nat) (s : State)
    (m : SoupMessage) (e : GstElement) (buffers : list GstBuffer) :
  registry_ok s →
  messages s !! msg = Some m →
  method m = GET →
  handlers s !! uri_path m = Some ep →
  elements s !! ep = Some e →
  ready e →
  session_grants now e m →
  el_connections e = [] →
  Forall (λ b, buffer_maps b = true) buffers →
  ∃ s' m',
    run_events (EvGotHeaders now rnd msg
                  :: (EvSendBuffer <$> (write_task msg <$> buffers)) ++ [EvEos ep]) s
      = inr (tt, s') ∧
    messages s' !! msg = Some m' ∧
    status_code m' = SOUP_STATUS_OK ∧
    response_body m' = response_body m ++ concat (buffer_bytes <$> buffers) ∧
    response_complete m' = true ∧
    (buffers ≠ [] → paused m' = false).
Proof.
  intros Hok Hm Hmeth Hp He Hready Hgrants Hec Hmaps.
  destruct (got_headers_get_state now rnd _ _ _ _ _ Hok Hm Hmeth Hp He Hready Hgrants)
    as (m1 & e1 & Hadm & Hrun).
  destruct (accepted_objects _ _ _ _ _ _ _ Hadm)
    as (_ & _ & _ & Hbody & Hec1 & _).
  set (n := next_handler_id s) in *.
  set (s1 := {| handlers := handlers s;
                elements := <[ep := serving_get n msg e1]> (elements s);
                messages := <[msg := served_get n ep msg m1]> (messages s);
                sources := timer_removed e (sources s);
                next_handler_id := S (S (S n));
                next_source_id := next_source_id s;
                emitted := emitted s ++ [ACTION_REQUESTED (uri_path m) ACTION_GET];
                announcedAddr := announcedAddr s |}) in *.
  assert (Hm1 : messages s1 !! msg = Some (served_get n ep msg m1))
    by (unfold s1; proj_simpl; apply lookup_insert_eq).
  destruct (buffers_sent msg buffers Hmaps s1 _ Hm1
              ltac:(unfold served_get; by data_simpl))
    as (s2 & Hrun2 & Hm2 & Hel2 & _).
  set (m2 := with_paused (match buffers with [] => paused (served_get n ep msg m1)
                          | _ => false end)
               (with_response_body
                  (response_body (served_get n ep msg m1)
                     ++ concat (buffer_bytes <$> buffers)) (served_get n ep msg m1))) in *.
  assert (He2 : elements s2 !! ep = Some (serving_get n msg e1))
    by (rewrite Hel2; unfold s1; proj_simpl; apply lookup_insert_eq).
  assert (Heos : run_event (EvEos ep) s2
                 = inr (tt, with_messages
                              (<[msg := with_response_complete true m2]> (messages s2)) s2)).
  { cbn [run_event]. rewrite (bind_inr _ _ _ _ _ (get_el_ok _ _ _ He2)).
    unfold serving_get at 1. proj_simpl. rewrite Hec1, Hec. cbn [app run_eos]. proj_simpl.
    rewrite (bool_decide_eq_false_2 ("new-sample" = "eos")) by done.
    rewrite (bool_decide_eq_true_2 ("eos" = "eos")) by done.
    unfold get_recv_eos. cbn [run_eos]. munfold. cbn [conn_callback]. cbv beta.
    rewrite Hm2. reflexivity. }
  do 2 eexists. split.
  { cbn [run_events].
    rewrite (bind_inr (run_event (EvGotHeaders now rnd msg)) _ _ _ _ Hrun).
    rewrite (run_events_app _ _ _ _ Hrun2). cbn [run_events].
    rewrite (bind_inr _ _ _ _ _ Heos). reflexivity. }
  proj_simpl. split; [apply lookup_insert_eq |].
  unfold m2, served_get. proj_simpl.
  split; [done |]. split; [by rewrite Hbody |]. split; [done |].
  intros Hne. by destruct buffers.
Qed.

(** X18. The producer side.  While a message is bound to the element
    and is not finished, a sample the element hands over is turned into
    one idle source for that message, and [new_sample_handler] itself
    changes nothing; when the main loop runs the source, the buffer of
    the sample is appended to the body of the response and the message
    is unpaused.  Without a sample the handler reports an error and adds
    no source. *)
Theorem sample_reaches_response (msg ep : nat) (s : State) (m : SoupMessage)
    (e : GstElement) (buffer : GstBuffer) :
  elements s !! ep = Some e →
  el_data e !! KEY_MESSAGE = Some (QMessage msg) →
  messages s !! msg = Some m →
  msg_data m !! KEY_HTTP_EP_SERVER = Some QServer →
  msg_data m !! KEY_FINISHED = Some (QBool false) →
  buffer_maps buffer = true →
  let src := {| idle_sample := Some buffer; idle_msg := Some (QMessage msg);
                idle_httpepserver := Some QServer |} in
  new_sample_handler ep (Some (Some buffer)) s = inr ((GST_FLOW_OK, Some src), s) ∧
  new_sample_handler ep None s = inr ((GST_FLOW_ERROR, None), s) ∧
  idle_dispatch src s
    = inr (tt, with_messages
                 (<[msg := with_paused false
                             (with_response_body (response_body m ++ buffer_bytes buffer) m)]>
                    (messages s)) s).
Proof.
  intros He Hbound Hm Hserv Hfin Hmaps src. split; [| split].
  - unfold new_sample_handler. munfold. mexec. reflexivity.
  - unfold new_sample_handler. munfold. mexec. reflexivity.
  - unfold src, idle_dispatch. cbn [idle_msg idle_httpepserver idle_sample].
    by apply send_buffer_state.
Qed.

(** * A request that arrives while another one is being served *)

Lemma rebind_get_state msg1 msg2 ep s m1 m2 m0 e i0 i1 i2 :
  msg1 ≠ msg2 → msg2 ≠ msg1 →
  messages s !! msg1 = Some m1 →
  method m1 = GET →
  msg_data m1 !! KEY_HTTP_EP_SERVER = Some QServer →
  handlers s !! uri_path m1 = Some ep →
  msg_data m1 !! KEY_NEW_SAMPLE_HANDLER_ID = Some (QUlong i1) →
  msg_data m1 !! KEY_EOS_HANDLER_ID = Some (QUlong i2) →
  msg_data m1 !! KEY_FINISHED_HANDLER_ID = Some (QUlong i0) →
  messages s !! msg2 = Some m2 →
  method m0 = GET →
  elements s !! ep = Some e →
  el_data e !! KEY_MESSAGE = Some (QMessage msg1) →
  el_data e !! KEY_TIMEOUT_ID = None →
  dispatch_allowed msg2 ep m0 s
    = inr (tt, {| handlers := handlers s;
                  elements := <[ep := taken_over (next_handler_id s) msg2 i1 i2 e]> (elements s);
                  messages :=
                    <[msg2 := served_get (next_handler_id s) ep msg2 m2]>
                      (<[msg1 := torn_down_get i0 m1]> (messages s));
                  sources := sources s;
                  next_handler_id := S (S (S (next_handler_id s)));
                  next_source_id := next_source_id s;
                  emitted := emitted s ++ [ACTION_REQUESTED (uri_path m0) ACTION_GET];
                  announcedAddr := announcedAddr s |}).
Proof.
  intros Hne Hne' Hm1 Hmeth1 Hserv Hp Hi1 Hi2 Hi0 Hm2 Hmeth0 He Hbound Hnone.
  unfold dispatch_allowed, dispatch_method. rewrite Hmeth0. clear Hmeth0.
  unfold taken_over, served_get, torn_down_get.
  munfold. mexec. norm. rewrite !insert_insert_eq. rewrite <- Hmeth1. reflexivity.
Qed.

(** X19. One transfer per element.  When a second GET for the element
    is accepted while the first is still being served, the first is
    ended: its response is completed and unpaused, its finished handler
    and its two handlers on the element are disconnected.  The second
    request is bound to the element and served as usual. *)
Theorem second_request_takes_over (now1 rnd1 now2 rnd2 : Z) (msg1 msg2 ep : nat)
    (s : State) (m1 m2 : SoupMessage) (e : GstElement) (cookie : SoupCookie) :
  msg1 ≠ msg2 →
  messages s !! msg1 = Some m1 →
  messages s !! msg2 = Some m2 →
  method m1 = GET →
  method m2 = GET →
  msg_connections m1 = [] →
  handlers s !! uri_path m1 = Some ep →
  handlers s !! uri_path m2 = Some ep →
  elements s !! ep = Some e →
  ready e →
  el_data e !! KEY_COOKIE = Some (QCookie cookie) →
  kms_http_ep_server_check_cookie now1 cookie m1 = true →
  kms_http_ep_server_check_cookie now2 cookie m2 = true →
  Forall (λ c, (conn_id c < next_handler_id s)%nat) (el_connections e) →
  let n := next_handler_id s in
  ∃ s1 s2 m1' m2' e2,
    got_headers_handler now1 rnd1 msg1 s = inr (tt, s1) ∧
    got_headers_handler now2 rnd2 msg2 s1 = inr (tt, s2) ∧
    messages s2 !! msg1 = Some m1' ∧ messages s2 !! msg2 = Some m2' ∧
    elements s2 !! ep = Some e2 ∧
    response_complete m1' = true ∧ paused m1' = false ∧ msg_connections m1' = [] ∧
    status_code m2' = SOUP_STATUS_OK ∧
    el_data e2 !! KEY_MESSAGE = Some (QMessage msg2) ∧
    el_start e2 = true ∧
    el_connections e2
      = el_connections e
          ++ [{| conn_id := S (S (S (S n))); conn_signal := "new-sample";
                 conn_callback := new_sample_handler_cb |};
              {| conn_id := S (S (S (S (S n)))); conn_signal := "eos";
                 conn_callback := get_recv_eos_cb msg2 |}].
Proof.
  intros Hne Hm1 Hm2 Hmeth1 Hmeth2 Hmc Hp1 Hp2 He Hready Hc Hcheck1 Hcheck2 Hfresh n.
  assert (Hne' : msg2 ≠ msg1) by congruence.
  pose proof (session_known_state now1 rnd1 _ _ _ _ _ _ (uri_path m1) Hm1 He Hc) as Hs1.
  rewrite Hcheck1 in Hs1.
  pose proof (got_headers_handler_allowed _ _ _ _ _ _ _ Hm1 Hp1 Hs1) as Hrun1.
  rewrite (dispatch_get_state _ _ _ _ _ _ Hm1 Hmeth1 He Hready) in Hrun1.
  fold n in Hrun1.
  set (s1 := {| handlers := handlers s;
                elements := <[ep := serving_get n msg1 e]> (elements s);
                messages := <[msg1 := served_get n ep msg1 m1]> (messages s);
                sources := timer_removed e (sources s);
                next_handler_id := S (S (S n));
                next_source_id := next_source_id s;
                emitted := emitted s ++ [ACTION_REQUESTED (uri_path m1) ACTION_GET];
                announcedAddr := announcedAddr s |}) in *.
  assert (Hm1' : messages s1 !! msg1 = Some (served_get n ep msg1 m1))
    by (unfold s1; proj_simpl; apply lookup_insert_eq).
  assert (Hm2' : messages s1 !! msg2 = Some m2)
    by (unfold s1; proj_simpl; by rewrite lookup_insert_ne).
  assert (He1 : elements s1 !! ep = Some (serving_get n msg1 e))
    by (unfold s1; proj_simpl; apply lookup_insert_eq).
  pose proof (session_known_state now2 rnd2 msg2 ep s1 m2 _ cookie (uri_path m2) Hm2' He1
                ltac:(unfold serving_get; by data_simpl)) as Hs2.
  rewrite Hcheck2 in Hs2.
  pose proof (got_headers_handler_allowed now2 rnd2 msg2 s1 m2 ep s1 Hm2' Hp2 Hs2) as Hrun2.
  rewrite (rebind_get_state msg1 msg2 ep s1 (served_get n ep msg1 m1) m2 m2
             (serving_get n msg1 e) n (S n) (S (S n)) Hne Hne' Hm1'
             ltac:(unfold served_get; proj_simpl; exact Hmeth1)
             ltac:(unfold served_get; by data_simpl)
             ltac:(unfold served_get; proj_simpl; exact Hp1)
             ltac:(unfold served_get; by data_simpl)
             ltac:(unfold served_get; by data_simpl)
             ltac:(unfold served_get; by data_simpl)
             Hm2' Hmeth2 He1
             ltac:(unfold serving_get; by data_simpl)
             ltac:(unfold serving_get; by data_simpl)) in Hrun2.
  exists s1. do 4 eexists. split; [exact Hrun1 |]. split; [exact Hrun2 |].
  proj_simpl.
  split; [by rewrite lookup_insert_ne, lookup_insert_eq by done |].
  split; [apply lookup_insert_eq |]. split; [apply lookup_insert_eq |].
  unfold torn_down_get, served_get, taken_over. proj_simpl.
  split; [done |]. split; [done |].
  split.
  { rewrite Hmc. cbn [app]. unfold drop_connection.
    by rewrite filter_cons_False by (intros H; by apply H). }
  split; [done |]. split; [apply lookup_insert_eq |]. split; [done |].
  unfold serving_get. proj_simpl. rewrite (drop_get_connections _ _ _ Hfresh).
  by rewrite <- app_assoc.
Qed.

(** X20. A sample that arrives when no message is bound to the
    element.  [new_sample_handler] does not look at the message it read:
    it still adds an idle source, holding no message and no server, and
    reports success.  When the main loop runs that source,
    [send_buffer_cb] reads the finished flag through a null pointer. *)
Theorem sample_without_message_faults (ep : nat) (s : State) (e : GstElement)
    (sample : option GstBuffer) :
  elements s !! ep = Some e →
  el_data e !! KEY_MESSAGE = None →
  let src := {| idle_sample := sample; idle_msg := None; idle_httpepserver := None |} in
  new_sample_handler ep (Some sample) s = inr ((GST_FLOW_OK, Some src), s) ∧
  idle_dispatch src s = inl (NullPointer KEY_FINISHED).
Proof.
  intros He Hnone src. split.
  - unfold new_sample_handler. munfold. mexec. reflexivity.
  - reflexivity.
Qed.

(** * Unregistering during an upload *)

Lemma unregister_served_post_state msg ep s m e i0 i1 :
  messages s !! msg = Some m →
  method m = POST →
  handlers s !! uri_path m = Some ep →
  msg_data m !! KEY_GOT_CHUNK_HANDLER_ID = Some (QUlong i1) →
  msg_data m !! KEY_FINISHED_HANDLER_ID = Some (QUlong i0) →
  elements s !! ep = Some e →
  el_data e !! KEY_TIMEOUT_ID = None →
  el_data e !! KEY_MESSAGE = Some (QMessage msg) →
  kms_http_ep_server_unregister_end_point_impl (uri_path m) s
    = inr (true, {| handlers := delete (uri_path m) (handlers s);
                    elements :=
                      <[ep := with_el_data (delete KEY_MESSAGE (el_data e)) e]> (elements s);
                    messages := <[msg := torn_down_post i0 i1 m]> (messages s);
                    sources := sources s;
                    next_handler_id := next_handler_id s;
                    next_source_id := next_source_id s;
                    emitted := emitted s ++ [URL_REMOVED (uri_path m)];
                    announcedAddr := announcedAddr s |}).
Proof.
  intros Hm Hmeth Hp Hi1 Hi0 He Hnone Hbound. unfold torn_down_post.
  munfold. mexec. norm. rewrite !insert_insert_eq. reflexivity.
Qed.

(** X21. Unregistering the path of an upload that is under way.  The
    got-chunk and the finished handler of the message are disconnected,
    the element is released, url-removed is emitted and the path is
    gone.  What arrives afterwards is dropped: a further chunk is not
    handed to the element, and when the message finishes the element is
    not told the end of the stream. *)
Theorem unregister_ends_upload (now rnd now' : Z) (msg ep : nat) (s : State)
    (m : SoupMessage) (e : GstElement) (content_type : string)
    (params : gmap string string) (chunk : SoupBuffer) :
  registry_ok s →
  messages s !! msg = Some m →
  method m = POST →
  msg_connections m = [] →
  request_content_type m = Some (content_type, params) →
  g_str_has_prefix "multipart/" content_type = false →
  handlers s !! uri_path m = Some ep →
  elements s !! ep = Some e →
  ready e →
  session_grants now e m →
  ∃ s1 s2 m2 e2,
    got_headers_handler now rnd msg s = inr (tt, s1) ∧
    kms_http_ep_server_unregister_end_point_impl (uri_path m) s1 = inr (true, s2) ∧
    handlers s2 = delete (uri_path m) (handlers s) ∧
    emitted s2 = emitted s1 ++ [URL_REMOVED (uri_path m)] ∧
    messages s2 !! msg = Some m2 ∧ elements s2 !! ep = Some e2 ∧
    msg_connections m2 = [] ∧
    el_data e2 !! KEY_MESSAGE = None ∧
    el_pushed e2 = el_pushed e ∧ el_eos e2 = el_eos e ∧
    run_events [EvGotChunk msg chunk; EvFinished now' msg] s2 = inr (tt, s2).
Proof.
  intros Hok Hm Hmeth Hmc Hct Hpre Hp He Hready Hgrants.
  destruct (got_headers_post_state now rnd _ _ _ _ _ _ _ Hok Hm Hmeth Hct Hpre Hp He
              Hready Hgrants) as (m1 & e1 & Hadm & Hrun).
  destruct (accepted_objects _ _ _ _ _ _ _ Hadm)
    as (Hview & Hmd & Hmc1 & _ & Hec & Hpu & Heos & Hed & _).
  set (n := next_handler_id s) in *.
  set (s1 := {| handlers := handlers s;
                elements := <[ep := bound_to msg e1]> (elements s);
                messages := <[msg := served_post n ep m1]> (messages s);
                sources := timer_removed e (sources s);
                next_handler_id := S (S n);
                next_source_id := next_source_id s;
                emitted := emitted s ++ [ACTION_REQUESTED (uri_path m) ACTION_POST];
                announcedAddr := announcedAddr s |}) in *.
  assert (Hm1 : messages s1 !! msg = Some (served_post n ep m1))
    by (unfold s1; proj_simpl; apply lookup_insert_eq).
  assert (He1 : elements s1 !! ep = Some (bound_to msg e1))
    by (unfold s1; proj_simpl; apply lookup_insert_eq).
  assert (Hpath : uri_path (served_post n ep m1) = uri_path m).
  { unfold served_post. proj_simpl. unfold request_view in Hview. congruence. }
  assert (Hmeth1 : method (served_post n ep m1) = POST).
  { unfold served_post. proj_simpl. unfold request_view in Hview. congruence. }
  pose proof (unregister_served_post_state msg ep s1 _ (bound_to msg e1) (S n) n
                Hm1 Hmeth1) as Hun.
  rewrite Hpath in Hun.
  specialize (Hun Hp
                  ltac:(unfold served_post; by data_simpl)
                  ltac:(unfold served_post; by data_simpl)
                  He1
                  ltac:(unfold bound_to; by data_simpl)
                  ltac:(unfold bound_to; by data_simpl)).
  assert (Hmconn : drop_connection (S n)
                     (drop_connection n (msg_connections (served_post n ep m1))) = []).
  { unfold served_post. proj_simpl. rewrite Hmc1, Hmc. cbn [app].
    unfold drop_connection.
    rewrite (filter_cons_False _ {| conn_id := n |}) by (intros H; by apply H).
    rewrite (filter_cons_True _ {| conn_id := S n |}) by (cbn; lia).
    rewrite filter_nil.
    by rewrite filter_cons_False by (intros H; by apply H). }
  exists s1. do 3 eexists. split; [exact Hrun |]. split; [exact Hun |].
  proj_simpl. split; [done |]. split; [done |].
  split; [apply lookup_insert_eq |]. split; [apply lookup_insert_eq |].
  unfold torn_down_post, bound_to. proj_simpl.
  split; [exact Hmconn |]. split; [apply lookup_delete_eq |].
  split; [done |]. split; [done |].
  cbn [run_events run_event]. munfold.
  do 2 (rewrite ?lookup_insert_eq; proj_simpl; rewrite ?Hmconn;
        cbn [run_got_chunk run_finished]; munfold).
  reflexivity.
Qed.

(** * The theorems at concrete servers *)

Lemma registry_ok_registered : registry_ok Fixture.registered.
Proof.
  apply (registry_ok_events [EvRegister "u" 1 60 5] (Fixture.server Fixture.requests)).
  - apply registry_ok_initial. vm_compute; reflexivity.
  - vm_compute; reflexivity.
Qed.

Lemma ready_registered : ready Fixture.registered_element.
Proof. split; [vm_compute; reflexivity | left; vm_compute; reflexivity]. Qed.


Lemma start_reports_resolution_witness :
  kms_http_ep_server_start_impl (Some Scenario.soup_server) Scenario.named
    = {| step_priv := Scenario.named; step_callbacks := [];
         step_resolving := Some ("media.example.org", 0) |} ∧
  step_callbacks
    (soup_address_callback (Some Scenario.soup_server) SOUP_STATUS_CANT_RESOLVE
       Scenario.named)
    = [Some HTTPEPSERVER_CANT_RESOLVE_ERROR].
Proof.
  destruct (start_reports_resolution (Some Scenario.soup_server) SOUP_STATUS_CANT_RESOLVE
              Scenario.named "media.example.org" eq_refl eq_refl)
    as (Hstart & err & Hcb & _).
  split; [exact Hstart |]. vm_compute; reflexivity.
Defined.

Lemma stopped_server_does_not_restart_witness :
  ∃ stopped sigs,
    kms_http_ep_server_stop_impl
      (step_priv (kms_http_ep_server_start_impl (Some Scenario.soup_server)
                    kms_http_ep_server_init)) = Some (stopped, sigs) ∧
    kms_http_ep_server_start_impl (Some Scenario.soup_server) stopped
      = {| step_priv := stopped; step_callbacks := []; step_resolving := None |}.
Proof.
  destruct (stopped_server_does_not_restart Scenario.soup_server
              (Some Scenario.soup_server) kms_http_ep_server_init eq_refl eq_refl)
    as (_ & stopped & sigs & Hstop & _ & _ & Hstart).
  - by eexists.
  - exists stopped, sigs. split; [exact Hstop | exact Hstart].
Defined.

Lemma find_content_part_without_dash_witness :
  result (scan_chunk (bytes_of "payload") [] "XYZ") = inr (NULL, NULL) ∧
  Forall (λ e, in_chunk 0 7 e = true) (reads (scan_chunk (bytes_of "payload") [] "XYZ")).
Proof.
  apply (find_content_part_without_dash (bytes_of "payload" ++ []) 0 7 (bytes_of "XYZ")).
  - lia.
  - vm_compute. discriminate.
  - vm_compute. reflexivity.
  - vm_compute. repeat constructor; discriminate.
Defined.

Lemma find_content_part_short_chunk_witness :
  result (scan_chunk (bytes_of "--XYZ--") [] "XYZ") = inr (NULL, NULL) ∧
  Forall (λ e, in_chunk 0 7 e = true) (reads (scan_chunk (bytes_of "--XYZ--") [] "XYZ")).
Proof.
  apply (find_content_part_short_chunk (bytes_of "--XYZ--" ++ []) 0 7 (bytes_of "XYZ")).
  - lia.
  - vm_compute. discriminate.
  - vm_compute. reflexivity.
  - vm_compute. discriminate.
Defined.

Lemma get_request_is_served_witness :
  ∃ s' m' e',
    got_headers_handler 1000 42 10 Fixture.registered = inr (tt, s') ∧
    messages s' !! 10%nat = Some m' ∧ elements s' !! 1%nat = Some e' ∧
    status_code m' = SOUP_STATUS_OK ∧
    response_chunked m' = true ∧
    el_data e' !! KEY_MESSAGE = Some (QMessage 10) ∧
    el_start e' = true ∧
    emitted s' = emitted Fixture.registered ++ [ACTION_REQUESTED "/u" ACTION_GET].
Proof.
  destruct (get_request_is_served 1000 42 10 1 Fixture.registered
              (Fixture.request GET "/u" None []) Fixture.registered_element)
    as (s' & m' & e' & H1 & H2 & H3 & H4 & _ & H6 & _ & H8 & H9 & _ & _ & H12).
  - exact registry_ok_registered.
  - vm_compute; reflexivity.
  - reflexivity.
  - vm_compute; reflexivity.
  - vm_compute; reflexivity.
  - exact ready_registered.
  - left. vm_compute; reflexivity.
  - exists s', m', e'.
    exact (conj H1 (conj H2 (conj H3 (conj H4 (conj H6 (conj H8 (conj H9 H12))))))).
Defined.

Lemma get_cycle_releases_element_witness :
  ∃ s1 s2 m2 e2,
    got_headers_handler 1000 42 10 Fixture.registered = inr (tt, s1) ∧
    run_event (EvFinished 1010 10) s1 = inr (tt, s2) ∧
    messages s2 !! 10%nat = Some m2 ∧ elements s2 !! 1%nat = Some e2 ∧
    msg_data m2 !! KEY_FINISHED = Some (QBool true) ∧
    el_start e2 = false ∧
    el_connections e2 = [] ∧
    ready e2 ∧
    handlers s2 = handlers Fixture.registered.
Proof.
  destruct (get_cycle_releases_element 1000 42 1010 10 1 Fixture.registered
              (Fixture.request GET "/u" None []) Fixture.registered_element)
    as (s1 & s2 & m2 & e2 & H1 & H2 & H3 & H4 & H5 & H6 & H7 & H8 & H9).
  - exact registry_ok_registered.
  - vm_compute; reflexivity.
  - reflexivity.
  - reflexivity.
  - vm_compute; reflexivity.
  - vm_compute; reflexivity.
  - exact ready_registered.
  - left. vm_compute; reflexivity.
  - vm_compute. constructor.
  - exists s1, s2, m2, e2.
    exact (conj H1 (conj H2 (conj H3 (conj H4 (conj H5 (conj H6 (conj H7 (conj H8 H9)))))))).
Defined.

Lemma ready_idle : ready Fixture.idle_element.
Proof.
  split; [vm_compute; reflexivity | right; exists 1; vm_compute; reflexivity].
Qed.

Lemma session_expiry_fires_once_witness :
  ∃ s1 s2 s3,
    got_headers_handler 1012 7 16 Fixture.idle = inr (tt, s1) ∧
    run_event (EvFinished 1020 16) s1 = inr (tt, s2) ∧
    sources s2 !! next_source_id Fixture.idle
      = Some {| interval_ms := 5000; source_msg := 16 |} ∧
    run_event (EvTimeout (next_source_id Fixture.idle)) s2 = inr (tt, s3) ∧
    emitted s3 = emitted s2 ++ [URL_EXPIRED "/u"] ∧
    run_event (EvTimeout (next_source_id Fixture.idle)) s3 = inr (tt, s3).
Proof.
  destruct (session_expiry_fires_once 1012 7 1020 1060 5 16 1 Fixture.idle
              (Fixture.request GET "/u" None Fixture.the_cookie)
              Fixture.idle_element Fixture.session_cookie)
    as (s1 & s2 & s3 & H1 & H2 & H3 & _ & H5 & H6 & _ & _ & _ & H10).
  - vm_compute; reflexivity.
  - reflexivity.
  - reflexivity.
  - vm_compute; reflexivity.
  - vm_compute; reflexivity.
  - exact ready_idle.
  - vm_compute; reflexivity.
  - vm_compute; reflexivity.
  - vm_compute; reflexivity.
  - vm_compute; reflexivity.
  - lia.
  - lia.
  - vm_compute; reflexivity.
  - exists s1, s2, s3.
    exact (conj H1 (conj H2 (conj H3 (conj H5 (conj H6 H10))))).
Defined.

Lemma unregister_ends_served_get_witness :
  ∃ s1 s2 m2 e2,
    got_headers_handler 1000 42 10 Fixture.registered = inr (tt, s1) ∧
    kms_http_ep_server_unregister_end_point_impl "/u" s1 = inr (true, s2) ∧
    handlers s2 = delete "/u" (handlers Fixture.registered) ∧
    emitted s2 = emitted s1 ++ [URL_REMOVED "/u"] ∧
    messages s2 !! 10%nat = Some m2 ∧ elements s2 !! 1%nat = Some e2 ∧
    response_complete m2 = true ∧ paused m2 = false ∧
    msg_connections m2 = [] ∧
    el_start e2 = false ∧
    el_data e2 !! KEY_MESSAGE = None ∧
    run_event (EvFinished 1010 10) s2 = inr (tt, s2).
Proof.
  destruct (unregister_ends_served_get 1000 42 1010 10 1 Fixture.registered
              (Fixture.request GET "/u" None []) Fixture.registered_element)
    as (s1 & s2 & m2 & e2 & H1 & H2 & H3 & H4 & H5 & H6 & H7 & H8 & H9 & H10
        & _ & H12 & H13).
  - exact registry_ok_registered.
  - vm_compute; reflexivity.
  - reflexivity.
  - reflexivity.
  - vm_compute; reflexivity.
  - vm_compute; reflexivity.
  - exact ready_registered.
  - left. vm_compute; reflexivity.
  - vm_compute. constructor.
  - exists s1, s2, m2, e2.
    exact (conj H1 (conj H2 (conj H3 (conj H4 (conj H5 (conj H6 (conj H7 (conj H8
             (conj H9 (conj H10 (conj H12 H13))))))))))).
Defined.

Lemma post_upload_reaches_element_witness :
  ∃ s' m' e',
    run_events [EvGotHeaders 1000 42 12; EvGotChunk 12 Fixture.multipart_chunk;
                EvGotChunk 12 Fixture.multipart_chunk; EvFinished 1010 12]
      Fixture.registered = inr (tt, s') ∧
    messages s' !! 12%nat = Some m' ∧ elements s' !! 1%nat = Some e' ∧
    status_code m' = SOUP_STATUS_OK ∧
    msg_data m' !! KEY_FINISHED = Some (QBool true) ∧
    el_pushed e' = [Fixture.multipart_body; Fixture.multipart_body] ∧
    el_eos e' = true ∧
    ready e'.
Proof.
  destruct (post_upload_reaches_element 1000 42 1010 12 1 Fixture.registered
              (Fixture.request POST "/u" (Some ("multipart/form-data", ∅)) Fixture.the_cookie)
              Fixture.registered_element "multipart/form-data" ∅
              [Fixture.multipart_chunk; Fixture.multipart_chunk])
    as (s' & m' & e' & H1 & H2 & H3 & H4 & H5 & H6 & H7 & H8 & _).
  - exact registry_ok_registered.
  - vm_compute; reflexivity.
  - reflexivity.
  - reflexivity.
  - reflexivity.
  - reflexivity.
  - vm_compute; reflexivity.
  - vm_compute; reflexivity.
  - vm_compute; reflexivity.
  - exact ready_registered.
  - left. vm_compute; reflexivity.
  - repeat constructor; vm_compute; intuition discriminate.
  - exists s', m', e'.
    refine (conj H1 (conj H2 (conj H3 (conj H4 (conj H5 (conj _ (conj H7 H8))))))).
    rewrite H6. vm_compute; reflexivity.
Defined.

Lemma session_lasts_lifetime_witness :
  ∃ s1,
    kms_http_ep_server_manage_cookie_session 1000 42 1 10 "/u" Fixture.registered
      = inr (true, s1) ∧
    ∀ now' rnd' msg' m' path',
      messages s1 !! msg' = Some m' →
      ∃ allowed,
        kms_http_ep_server_manage_cookie_session now' rnd' 1 msg' path' s1
          = inr (allowed, s1) ∧
        (allowed = true ↔
           now' ≤ 1000 + 60 ∧ (COOKIE_NAME, pretty 42) ∈ request_cookies m').
Proof.
  apply (session_lasts_lifetime 1000 42 10 1 Fixture.registered
           (Fixture.request GET "/u" None []) Fixture.registered_element 60).
  - vm_compute; reflexivity.
  - vm_compute; reflexivity.
  - vm_compute; reflexivity.
  - vm_compute; reflexivity.
  - lia.
Defined.

Lemma degenerate_lifetime_locks_element_witness :
  ∃ s1,
    kms_http_ep_server_manage_cookie_session 1000 42 1 10 "/u" Scenario.registered_zero
      = inr (true, s1) ∧
    ∀ now' rnd' msg' m',
      0 < now' → 1000 ≤ now' →
      messages s1 !! msg' = Some m' →
      handlers s1 !! uri_path m' = Some 1%nat →
      got_headers_handler now' rnd' msg' s1
        = inr (tt, with_messages
                     (<[msg' := with_status SOUP_STATUS_BAD_REQUEST m']> (messages s1)) s1).
Proof.
  apply (degenerate_lifetime_locks_element 1000 42 10 1 Scenario.registered_zero
           (Fixture.request GET "/u" None [])
           (default Fixture.httpendpoint (elements Scenario.registered_zero !! 1%nat)) 0).
  - vm_compute; reflexivity.
  - vm_compute; reflexivity.
  - vm_compute; reflexivity.
  - vm_compute; reflexivity.
  - left; reflexivity.
Defined.

Lemma registration_parameters_are_per_element_witness :
  ∃ s1 s2,
    kms_http_ep_server_register_end_point_impl "u" 1 60 5 (Fixture.server Fixture.requests)
      = inr (Some "/u", s1) ∧
    params_of 1 s1 = Some (Some (QUint 60), Some (QUint 5)) ∧
    kms_http_ep_server_register_end_point_impl "v" 1 3600 0 s1 = inr (Some "/v", s2) ∧
    handlers s2 !! "/u" = Some 1%nat ∧
    handlers s2 !! "/v" = Some 1%nat ∧
    params_of 1 s2 = Some (Some (QUint 3600), Some (QUint 0)).
Proof.
  apply (registration_parameters_are_per_element "u" "v" 1 60 5 3600 0
           (Fixture.server Fixture.requests) Fixture.httpendpoint).
  - vm_compute; reflexivity.
  - reflexivity.
  - reflexivity.
  - vm_compute; reflexivity.
  - vm_compute; reflexivity.
  - discriminate.
Defined.

Lemma session_cookie_is_permanent_witness :
  cookie_of 1 Scenario.registered_again = Some (QCookie Fixture.session_cookie) ∧
  ∀ now rnd msg m,
    messages Scenario.registered_again !! msg = Some m →
    handlers Scenario.registered_again !! uri_path m = Some 1%nat →
    (cookie_name Fixture.session_cookie, cookie_value Fixture.session_cookie)
      ∉ request_cookies m →
    got_headers_handler now rnd msg Scenario.registered_again
      = inr (tt, with_messages
                   (<[msg := with_status SOUP_STATUS_BAD_REQUEST m]>
                      (messages Scenario.registered_again)) Scenario.registered_again).
Proof.
  apply (session_cookie_is_permanent 1 Fixture.session_cookie
           [EvUnregister "/u"; EvRegister "w" 1 60 5] Fixture.idle).
  - vm_compute; reflexivity.
  - vm_compute; reflexivity.
Defined.

Lemma get_download_reaches_client_witness :
  ∃ s' m',
    run_events [EvGotHeaders 1000 42 10;
                EvSendBuffer (write_task 10 Scenario.webm_buffer);
                EvSendBuffer (write_task 10 Scenario.webm_buffer);
                EvEos 1] Fixture.registered = inr (tt, s') ∧
    messages s' !! 10%nat = Some m' ∧
    status_code m' = SOUP_STATUS_OK ∧
    response_body m' = bytes_of "webmwebm" ∧
    response_complete m' = true ∧
    paused m' = false.
Proof.
  destruct (get_download_reaches_client 1000 42 10 1 Fixture.registered
              (Fixture.request GET "/u" None []) Fixture.registered_element
              [Scenario.webm_buffer; Scenario.webm_buffer])
    as (s' & m' & H1 & H2 & H3 & H4 & H5 & H6).
  - exact registry_ok_registered.
  - vm_compute; reflexivity.
  - reflexivity.
  - vm_compute; reflexivity.
  - vm_compute; reflexivity.
  - exact ready_registered.
  - left. vm_compute; reflexivity.
  - vm_compute; reflexivity.
  - repeat constructor.
  - exists s', m'.
    refine (conj H1 (conj H2 (conj H3 (conj _ (conj H5 (H6 _)))))).
    + rewrite H4. vm_compute; reflexivity.
    + discriminate.
Defined.

Lemma sample_reaches_response_witness :
  new_sample_handler 1 (Some (Some Scenario.webm_buffer)) Fixture.serving
    = inr ((GST_FLOW_OK,
            Some {| idle_sample := Some Scenario.webm_buffer;
                    idle_msg := Some (QMessage 10);
                    idle_httpepserver := Some QServer |}), Fixture.serving) ∧
  new_sample_handler 1 None Fixture.serving = inr ((GST_FLOW_ERROR, None), Fixture.serving).
Proof.
  destruct (sample_reaches_response 10 1 Fixture.serving Fixture.serving_request
              (default Fixture.httpendpoint (elements Fixture.serving !! 1%nat))
              Scenario.webm_buffer)
    as (H1 & H2 & _).
  - vm_compute; reflexivity.
  - vm_compute; reflexivity.
  - vm_compute; reflexivity.
  - vm_compute; reflexivity.
  - vm_compute; reflexivity.
  - reflexivity.
  - exact (conj H1 H2).
Defined.

Lemma second_request_takes_over_witness :
  ∃ s1 s2 m1' m2' e2,
    got_headers_handler 1012 7 16 Scenario.idle_with_two = inr (tt, s1) ∧
    got_headers_handler 1013 8 20 s1 = inr (tt, s2) ∧
    messages s2 !! 16%nat = Some m1' ∧ messages s2 !! 20%nat = Some m2' ∧
    elements s2 !! 1%nat = Some e2 ∧
    response_complete m1' = true ∧ paused m1' = false ∧ msg_connections m1' = [] ∧
    status_code m2' = SOUP_STATUS_OK ∧
    el_data e2 !! KEY_MESSAGE = Some (QMessage 20) ∧
    el_start e2 = true.
Proof.
  destruct (second_request_takes_over 1012 7 1013 8 16 20 1 Scenario.idle_with_two
              (Fixture.request GET "/u" None Fixture.the_cookie)
              (Fixture.request GET "/u" None Fixture.the_cookie)
              Fixture.idle_element Fixture.session_cookie)
    as (s1 & s2 & m1' & m2' & e2 & H1 & H2 & H3 & H4 & H5 & H6 & H7 & H8 & H9
        & H10 & H11 & _).
  - discriminate.
  - vm_compute; reflexivity.
  - vm_compute; reflexivity.
  - reflexivity.
  - reflexivity.
  - reflexivity.
  - vm_compute; reflexivity.
  - vm_compute; reflexivity.
  - vm_compute; reflexivity.
  - exact ready_idle.
  - vm_compute; reflexivity.
  - vm_compute; reflexivity.
  - vm_compute; reflexivity.
  - vm_compute. constructor.
  - exists s1, s2, m1', m2', e2.
    exact (conj H1 (conj H2 (conj H3 (conj H4 (conj H5 (conj H6 (conj H7 (conj H8
             (conj H9 (conj H10 H11)))))))))).
Defined.

Lemma sample_without_message_faults_witness :
  new_sample_handler 1 (Some (Some Scenario.webm_buffer)) Fixture.registered
    = inr ((GST_FLOW_OK,
            Some {| idle_sample := Some Scenario.webm_buffer; idle_msg := None;
                    idle_httpepserver := None |}), Fixture.registered) ∧
  idle_dispatch {| idle_sample := Some Scenario.webm_buffer; idle_msg := None;
                   idle_httpepserver := None |} Fixture.registered
    = inl (NullPointer KEY_FINISHED).
Proof.
  apply (sample_without_message_faults 1 Fixture.registered Fixture.registered_element
           (Some Scenario.webm_buffer)).
  - vm_compute; reflexivity.
  - vm_compute; reflexivity.
Defined.

Lemma unregister_ends_upload_witness :
  ∃ s1 s2 m2 e2,
    got_headers_handler 1000 42 12 Fixture.registered = inr (tt, s1) ∧
    kms_http_ep_server_unregister_end_point_impl "/u" s1 = inr (true, s2) ∧
    handlers s2 = delete "/u" (handlers Fixture.registered) ∧
    emitted s2 = emitted s1 ++ [URL_REMOVED "/u"] ∧
    messages s2 !! 12%nat = Some m2 ∧ elements s2 !! 1%nat = Some e2 ∧
    msg_connections m2 = [] ∧
    el_data e2 !! KEY_MESSAGE = None ∧
    el_pushed e2 = [] ∧ el_eos e2 = false ∧
    run_events [EvGotChunk 12 Fixture.multipart_chunk; EvFinished 1010 12] s2
      = inr (tt, s2).
Proof.
  apply (unregister_ends_upload 1000 42 1010 12 1 Fixture.registered
           (Fixture.request POST "/u" (Some ("multipart/form-data", ∅)) Fixture.the_cookie)
           Fixture.registered_element "multipart/form-data" ∅ Fixture.multipart_chunk).
  - exact registry_ok_registered.
  - vm_compute; reflexivity.
  - reflexivity.
  - reflexivity.
  - reflexivity.
  - vm_compute; reflexivity.
  - vm_compute; reflexivity.
  - vm_compute; reflexivity.
  - exact ready_registered.
  - left. vm_compute; reflexivity.
Defined.

Lemma finalize_announces_remaining_paths_witness :
  (∃ final sigs,
     kms_http_ep_server_finalize (kms_http_ep_server_dispose Scenario.started)
       = Some (final, sigs) ∧
     (∀ sig, sig ∈ sigs ↔
        ∃ p, sig = URL_REMOVED p
             ∧ is_Some (({[ "/u" := 1%nat; "/v" := 2%nat ]} : gmap string nat) !! p)) ∧
     priv_handlers final = None) ∧
  (∃ stopped sigs,
     kms_http_ep_server_stop_impl Scenario.started = Some (stopped, sigs) ∧
     snd <$> kms_http_ep_server_finalize (kms_http_ep_server_dispose stopped) = Some []).
Proof.
  destruct (finalize_announces_remaining_paths Scenario.started
              {[ "/u" := 1%nat; "/v" := 2%nat ]})
    as ((final & sigs & H1 & H2 & _ & H4) & Hstop).
  - vm_compute; reflexivity.
  - split.
    + exists final, sigs. split; [exact H1 |]. split; [exact H2 |]. by rewrite H4.
    + destruct (Hstop (soup_server_run_async Scenario.soup_server))
        as (stopped & sigs' & H5 & H6); [vm_compute; reflexivity |].
      exists stopped, sigs'. split; [exact H5 |]. by rewrite H6.
Defined.
